(** * qtype_ddmarker/question: coordinate mapping, marker codec and drop-zone shapes

    A shallow embedding of [question/type/ddmarker/amd/src/question.js].

    Numbers.  Pixel quantities read from the page (offsets, positions, widths)
    are integers; the only operation of the module that leaves the integers is
    the division by two of the label anchors.  JavaScript numbers are
    therefore modelled as exact rationals together with [NaN]; rounding and
    overflow of IEEE doubles are not modelled.

    Strings are ASCII strings.  jQuery result sets are lists in document
    order, arrays are lists. *)

From Stdlib Require Import ZArith QArith Qminmax Qreduction Qcanon List Bool Lia.
From Stdlib Require Import Ascii String DecimalString DecimalZ DecimalPos.
From Stdlib Require Import Permutation Sorted.
Import ListNotations.

#[local] Open Scope list_scope.
#[local] Open Scope string_scope.

(* ================================================================== *)
(** ** JavaScript values *)

Inductive jsnum : Type :=
| Num (q : Q)
| NaN.

(** An integer as a JavaScript number. *)
Definition Fin (z : Z) : jsnum := Num (inject_Z z).

Inductive jsval : Type :=
| VNum (n : jsnum)
| VStr (s : string)
| VUndef.

(** Arrays are lists; reading past the end gives [undefined]. *)
Definition array := list jsval.

Definition idx (a : array) (i : nat) : jsval := nth i a VUndef.

Module Js.

(** *** Arithmetic: [NaN] is absorbing. *)

Definition add (a b : jsnum) : jsnum :=
  match a, b with
  | Num x, Num y => Num (x + y)
  | _, _ => NaN
  end.

Definition sub (a b : jsnum) : jsnum :=
  match a, b with
  | Num x, Num y => Num (x - y)
  | _, _ => NaN
  end.

(** The module divides by 2 only; a zero divisor, which gives an infinity
    or [NaN] in JavaScript, is sent to [NaN]. *)
Definition div (a b : jsnum) : jsnum :=
  match a, b with
  | Num x, Num y => if Qeq_bool y 0 then NaN else Num (x / y)
  | _, _ => NaN
  end.

(** [q + z] for an integer [z], on the numerator: the denominator stays. *)
Definition shift (q : Q) (z : Z) : Q :=
  (Qnum q + z * Zpos (Qden q) # Qden q)%Q.

(** [a < b], [a <= b], [a > b]: false as soon as one side is [NaN]. *)
Definition lt (a b : jsnum) : bool :=
  match a, b with
  | Num x, Num y => negb (Qle_bool y x)
  | _, _ => false
  end.

Definition le (a b : jsnum) : bool :=
  match a, b with
  | Num x, Num y => Qle_bool x y
  | _, _ => false
  end.

Definition gt (a b : jsnum) : bool := lt b a.

(** [Math.max] and [Math.min]. *)
Definition Math_max (a b : jsnum) : jsnum :=
  match a, b with
  | Num x, Num y => Num (Qmax x y)
  | _, _ => NaN
  end.

Definition Math_min (a b : jsnum) : jsnum :=
  match a, b with
  | Num x, Num y => Num (Qmin x y)
  | _, _ => NaN
  end.

(** *** Characters *)

Definition is_digit (c : ascii) : bool :=
  let n := nat_of_ascii c in (48 <=? n)%nat && (n <=? 57)%nat.

(** The ASCII members of [StrWhiteSpaceChar]: TAB, LF, VT, FF, CR, SP. *)
Definition is_space (c : ascii) : bool :=
  let n := nat_of_ascii c in
  ((9 <=? n)%nat && (n <=? 13)%nat) || (n =? 32)%nat.

(** Every character of [s] satisfies [p]. *)
Fixpoint all_chars (p : ascii -> bool) (s : string) : bool :=
  match s with
  | String c t => p c && all_chars p t
  | EmptyString => true
  end.

(** The separator [sep] does not occur in [s]. *)
Definition no_sep (sep : ascii) (s : string) : Prop :=
  all_chars (fun c => negb (Ascii.eqb c sep)) s = true.

(** What a printed integer is made of. *)
Definition is_digit_or_minus (c : ascii) : bool :=
  is_digit c || Ascii.eqb c "-".

Fixpoint trim_left (s : string) : string :=
  match s with
  | String c t => if is_space c then trim_left t else s
  | EmptyString => EmptyString
  end.

Fixpoint trim_right (s : string) : string :=
  match s with
  | String c t =>
      match trim_right t with
      | EmptyString => if is_space c then EmptyString else String c EmptyString
      | t' => String c t'
      end
  | EmptyString => EmptyString
  end.

Definition trim (s : string) : string := trim_right (trim_left s).

(** *** Numbers and strings *)

Definition string_of_Z (z : Z) : string := NilZero.string_of_int (Z.to_int z).

(** [StringToNumber] on the integer literals: surrounding blanks are
    dropped, the empty string is [0], an optional sign is followed by
    decimal digits.  Literals with a fraction, an exponent or a radix
    prefix and [Infinity] are not pixel values of this module; they are
    sent to [NaN] here, and nothing below is stated about them. *)
Definition StringToNumber (s : string) : jsnum :=
  match trim s with
  | EmptyString => Fin 0
  | String "+" r =>
      match NilZero.uint_of_string r with
      | Some u => Fin (Z.of_uint u)
      | None => NaN
      end
  | t =>
      match NilZero.int_of_string t with
      | Some i => Fin (Z.of_int i)
      | None => NaN
      end
  end.

(** [Number(v)]. *)
Definition Number (v : jsval) : jsnum :=
  match v with
  | VNum n => n
  | VStr s => StringToNumber s
  | VUndef => NaN
  end.

(** Decimal digits of the fraction [n / d] ([0 <= n < d]), at most
    [fuel] of them, stopping when the expansion ends. *)
Fixpoint frac_digits (fuel : nat) (n d : Z) : string :=
  match fuel with
  | O => EmptyString
  | S k =>
      if (n =? 0)%Z then EmptyString
      else string_of_Z (10 * n / d) ++ frac_digits k ((10 * n) mod d) d
  end.

(** [Number.prototype.toString].  Integers print in decimal.  Other finite
    values print their decimal expansion cut after 17 digits, which
    approximates the shortest round-trip numeral JavaScript prints; no
    statement below depends on it. *)
Definition number_toString (n : jsnum) : string :=
  match n with
  | NaN => "NaN"
  | Num q =>
      let r := Qred q in
      let d := Zpos (Qden r) in
      if (d =? 1)%Z then string_of_Z (Qnum r)
      else
        let a := Z.abs (Qnum r) in
        (if (Qnum r <? 0)%Z then "-" else "")
          ++ string_of_Z (a / d) ++ "." ++ frac_digits 17 (a mod d) d
  end.

(** [Array.prototype.join]. *)
Fixpoint join (sep : string) (l : list string) : string :=
  match l with
  | [] => EmptyString
  | [x] => x
  | x :: r => x ++ sep ++ join sep r
  end.

(** [String.prototype.split] on a one-character separator: the empty
    string gives one empty piece. *)
Fixpoint split (sep : ascii) (s : string) : list string :=
  match s with
  | EmptyString => [EmptyString]
  | String c t =>
      if Ascii.eqb c sep then EmptyString :: split sep t
      else
        match split sep t with
        | h :: r => String c h :: r
        | [] => [String c EmptyString]
        end
  end.

(** The string of a value inside [join]: [undefined] prints as nothing. *)
Definition toString_in_join (v : jsval) : string :=
  match v with
  | VNum n => number_toString n
  | VStr s => s
  | VUndef => EmptyString
  end.

(** [Array.prototype.toString] is [join(',')]. *)
Definition array_toString (a : array) : string :=
  join "," (map toString_in_join a).

(** [s.replace(/[,;]/g, ' ')]. *)
Fixpoint replace_comma_semicolon (s : string) : string :=
  match s with
  | EmptyString => EmptyString
  | String c t =>
      String (if Ascii.eqb c "," || Ascii.eqb c ";" then " "%char else c)
             (replace_comma_semicolon t)
  end.

(** *** Regular expressions of the module

    [\d+] is greedy; in each pattern it is followed by a literal that is
    not a digit or by the end of the pattern, so giving digits back never
    turns a failed match into a successful one and the longest run is the
    one the engine settles on. *)

Fixpoint span_digits (s : string) : string * string :=
  match s with
  | String c t =>
      if is_digit c then let (d, r) := span_digits t in (String c d, r)
      else (EmptyString, s)
  | EmptyString => (EmptyString, EmptyString)
  end.

Definition starts_with_digit (s : string) : bool :=
  match s with
  | String c _ => is_digit c
  | EmptyString => false
  end.

(** A non-empty run of decimal digits. *)
Definition is_digits (s : string) : Prop :=
  s <> EmptyString /\ all_chars is_digit s = true.

(** [(\d+)] at the head of [s]: the digits and what follows them. *)
Definition digits1 (s : string) : option (string * string) :=
  match span_digits s with
  | (EmptyString, _) => None
  | (d, r) => Some (d, r)
  end.

(** A literal character at the head of [s]. *)
Definition lit (c : ascii) (s : string) : option string :=
  match s with
  | String a r => if Ascii.eqb a c then Some r else None
  | EmptyString => None
  end.

(** An unanchored pattern is tried at every position from the left. *)
Fixpoint search {A : Type} (at_head : string -> option A) (s : string) : option A :=
  match at_head s with
  | Some r => Some r
  | None =>
      match s with
      | String _ t => search at_head t
      | EmptyString => None
      end
  end.

(** [/(\d+),(\d+);(\d+)/] at the head of [s]: the whole match and the
    three groups. *)
Definition circle_at (s : string) : option (list string) :=
  match digits1 s with
  | Some (g1, r) =>
      match lit "," r with
      | Some r =>
          match digits1 r with
          | Some (g2, r) =>
              match lit ";" r with
              | Some r =>
                  match digits1 r with
                  | Some (g3, _) => Some [g1 ++ "," ++ g2 ++ ";" ++ g3; g1; g2; g3]
                  | None => None
                  end
              | None => None
              end
          | None => None
          end
      | None => None
      end
  | None => None
  end.

(** [coords.match(/(\d+),(\d+);(\d+)/)] *)
Definition match_circle (coords : string) : option (list string) :=
  search circle_at coords.

(** [/(\d+),(\d+);(\d+),(\d+)/] at the head of [s]. *)
Definition rectangle_at (s : string) : option (list string) :=
  match digits1 s with
  | Some (g1, r) =>
      match lit "," r with
      | Some r =>
          match digits1 r with
          | Some (g2, r) =>
              match lit ";" r with
              | Some r =>
                  match digits1 r with
                  | Some (g3, r) =>
                      match lit "," r with
                      | Some r =>
                          match digits1 r with
                          | Some (g4, _) =>
                              Some [g1 ++ "," ++ g2 ++ ";" ++ g3 ++ "," ++ g4;
                                    g1; g2; g3; g4]
                          | None => None
                          end
                      | None => None
                      end
                  | None => None
                  end
              | None => None
              end
          | None => None
          end
      | None => None
      end
  | None => None
  end.

(** [coords.match(/(\d+),(\d+);(\d+),(\d+)/)] *)
Definition match_rectangle (coords : string) : option (list string) :=
  search rectangle_at coords.

(** [part.match(/^(\d+),(\d+)$/)]: anchored at both ends. *)
Definition match_point (s : string) : option (list string) :=
  match digits1 s with
  | Some (g1, r) =>
      match lit "," r with
      | Some r =>
          match digits1 r with
          | Some (g2, EmptyString) => Some [s; g1; g2]
          | _ => None
          end
      | None => None
      end
  | None => None
  end.

End Js.

#[local] Open Scope list_scope.

(* ================================================================== *)
(** ** The page

    What the module reads from and writes to the document through [t.doc]. *)

Record LeftTop : Type := { left : Z; top : Z }.

(** The background image [.dropbackground]: [offset()] is relative to the
    page, [position()] to the positioned ancestor. *)
Record BgImage : Type := {
  offset : LeftTop;
  position : LeftTop;
  width : Z;
  height : Z
}.

(** A marker [span.dragitem.choiceN.itemI].  [drag_offset] is what
    [offset()] returns when the item is read; [style_left] and [style_top]
    are what [css('left', _)] and [css('top', _)] last wrote.  The layout
    that derives the one from the other is the browser's. *)
Record DragItem : Type := {
  itemno : nat;
  beingdragged : bool;
  unneeded : bool;
  innerText : string;
  drag_offset : LeftTop;
  style_left : option jsnum;
  style_top : option jsnum
}.

(** The template [span.draghome.choiceN] of a choice. *)
Record Home : Type := {
  home_innerText : string;
  home_position : LeftTop;
  home_offset : LeftTop
}.

(** A hidden field [input.choices.choiceN]: its value, whether it carries
    the class [infinite], and the numeric suffix of its class
    [noofdragsK] ([0] when there is none, as [Number(null)] is). *)
Record Input : Type := {
  choice : nat;
  val : string;
  infinite : bool;
  noofdrags : nat
}.

(** The document.  Every clone is inserted right after the home of its
    choice, so the markers of a choice are kept per choice, newest first,
    which is their document order. *)
Record Doc : Type := {
  bgImage : BgImage;
  dragItemHome : nat -> Home;
  dragItemsForChoice : nat -> list DragItem;
  inputsForChoices : list Input
}.

(** The members of a set whose number is [i], in document order. *)
Definition bucket {A : Type} (key : A -> nat) (l : list A) (i : nat) : list A :=
  filter (fun e => (key e =? i)%nat) l.

(** [t.doc.dragItemForChoice(choiceNo, itemno)]: the markers of the choice
    with the class [item<itemno>]. *)
Definition dragItemForChoice (d : Doc) (choiceNo itemNo : nat) : list DragItem :=
  bucket itemno (dragItemsForChoice d choiceNo) itemNo.

(** [t.doc.dragItemBeingDragged(choiceNo)] *)
Definition dragItemBeingDragged (d : Doc) (choiceNo : nat) : list DragItem :=
  filter beingdragged (dragItemsForChoice d choiceNo).

(** [$set.hasClass('beingdragged')]: true when some member has the class. *)
Definition hasClass_beingdragged (set : list DragItem) : bool :=
  existsb beingdragged set.

Definition set_dragItems (d : Doc) (choiceNo : nat) (l : list DragItem) : Doc :=
  {| bgImage := bgImage d;
     dragItemHome := dragItemHome d;
     dragItemsForChoice :=
       fun c => if (c =? choiceNo)%nat then l else dragItemsForChoice d c;
     inputsForChoices := inputsForChoices d |}.

(** [t.doc.inputForChoice(choiceNo).val(value)] *)
Definition set_val (d : Doc) (choiceNo : nat) (value : string) : Doc :=
  {| bgImage := bgImage d;
     dragItemHome := dragItemHome d;
     dragItemsForChoice := dragItemsForChoice d;
     inputsForChoices :=
       map (fun i =>
              if (choice i =? choiceNo)%nat
              then {| choice := choice i; val := value;
                      infinite := infinite i; noofdrags := noofdrags i |}
              else i)
           (inputsForChoices d) |}.

(** Exceptions of the run time. *)
Inductive JsError : Type := TypeError.

Inductive Outcome (A : Type) : Type :=
| Returned (a : A)
| Thrown (e : JsError).

Arguments Returned {A} a.
Arguments Thrown {A} e.

(* ================================================================== *)
(** ** Coordinate mapping *)

Definition num_of_Z (z : Z) : jsval := VNum (Fin z).

(** [coordsInBgImg] (lines 188-195).  Comparing a value with a number
    converts the value with [ToNumber]. *)
Definition coordsInBgImg (d : Doc) (coords : array) : bool :=
  Js.gt (Js.Number (idx coords 0)) (Fin 0) &&
  Js.gt (Js.Number (idx coords 1)) (Fin 0) &&
  Js.le (Js.Number (idx coords 0)) (Fin (width (bgImage d))) &&
  Js.le (Js.Number (idx coords 1)) (Fin (height (bgImage d))).

(** [convertToBgImgXY] (lines 216-219) *)
Definition convertToBgImgXY (d : Doc) (windowxy : array) : array :=
  [VNum (Js.sub (Js.sub (Js.Number (idx windowxy 0))
                        (Fin (left (offset (bgImage d))))) (Fin 1));
   VNum (Js.sub (Js.sub (Js.Number (idx windowxy 1))
                        (Fin (top (offset (bgImage d))))) (Fin 1))].

(** [convertToWindowXY] (lines 227-234) *)
Definition convertToWindowXY (d : Doc) (bgImgXY : array) : array :=
  [VNum (Js.add (Js.add (Js.Number (idx bgImgXY 0))
                        (Fin (left (position (bgImage d))))) (Fin 1));
   VNum (Js.add (Js.add (Js.Number (idx bgImgXY 1))
                        (Fin (top (position (bgImage d))))) (Fin 1))].

(** [constrainToBgImg] (lines 202-209): the two assignments to
    [bgImgXY[0]] and the two to [bgImgXY[1]] are composed. *)
Definition constrainToBgImg (d : Doc) (windowxy : array) : array :=
  let bgImgXY := convertToBgImgXY d windowxy in
  let x := Js.Math_max (Fin 0) (Js.Number (idx bgImgXY 0)) in
  let y := Js.Math_max (Fin 0) (Js.Number (idx bgImgXY 1)) in
  let x := Js.Math_min (Fin (width (bgImage d))) x in
  let y := Js.Math_min (Fin (height (bgImage d))) y in
  convertToWindowXY d [VNum x; VNum y].

(* ================================================================== *)
(** ** Marker positions *)

(** [coords.join(';')] on an array of coordinate arrays, as
    [saveCoordsForChoice] builds the field value (line 179). *)
Definition encode (coords : list array) : string :=
  Js.join ";" (map Js.array_toString coords).

(** The offset of the first member of a set, as an array
    [[drag.offset().left, drag.offset().top]]. *)
Definition offset_array (e : DragItem) : array :=
  [num_of_Z (left (drag_offset e)); num_of_Z (top (drag_offset e))].

(** One turn of the loop of [saveCoordsForChoice] (lines 158-169).
    [dropped] is the jQuery object handed in, [None] when the argument is
    missing. *)
Definition saveCoords_step (d : Doc) (choiceNo : nat)
    (dropped : option (list DragItem))
    (st : list array * bool) (i : nat) : list array * bool :=
  let (coords, addme) := st in
  let drag := dragItemForChoice d choiceNo i in
  match drag with
  | [] => (coords, addme)
  | first :: _ =>
      let coords :=
        if negb (hasClass_beingdragged drag) then
          let bgImgXY := convertToBgImgXY d (offset_array first) in
          if coordsInBgImg d bgImgXY then coords ++ [bgImgXY] else coords
        else coords in
      let addme :=
        match dropped with
        | Some (dr :: _) =>
            if String.eqb (innerText dr) (innerText first) then false else addme
        | _ => addme
        end in
      (coords, addme)
  end.

(** [saveCoordsForChoice] (lines 149-181).  With [addme] still set, a
    missing or empty [dropped] makes [dropped.offset().left] throw before
    the field is written. *)
Definition saveCoordsForChoice (d : Doc) (choiceNo : nat)
    (dropped : option (list DragItem)) : Outcome Doc :=
  let n := List.length (dragItemsForChoice d choiceNo) in
  let (coords, addme) :=
    fold_left (saveCoords_step d choiceNo dropped) (seq 0 (S n)) ([], true) in
  if addme then
    match dropped with
    | Some (dr :: _) =>
        let bgImgXY := convertToBgImgXY d (offset_array dr) in
        let coords := if coordsInBgImg d bgImgXY then coords ++ [bgImgXY] else coords in
        Returned (set_val d choiceNo (encode coords))
    | _ => Thrown TypeError
    end
  else Returned (set_val d choiceNo (encode coords)).

(** [dragHomeXY] (lines 266-269) *)
Definition dragHomeXY (d : Doc) (choiceNo : nat) : array :=
  let dragItemHome := dragItemHome d choiceNo in
  [num_of_Z (left (home_position dragItemHome));
   VNum (Js.sub (Fin (top (home_position dragItemHome))) (Fin 12))].

(** The decoding loop of [getCoords] (lines 247-253): [coords] before the
    spare is considered. *)
Definition coords_of_val (d : Doc) (val : string) : list array :=
  if String.eqb val "" then []
  else
    map (fun coordsstring => convertToWindowXY d (map VStr (Js.split "," coordsstring)))
        (Js.split ";" val).

(** [getCoords] (lines 241-259) *)
Definition getCoords (d : Doc) (inputnode : Input) : list array :=
  let choiceNo := choice inputnode in
  let dragging := (0 <? List.length (dragItemBeingDragged d choiceNo))%nat in
  let coords := coords_of_val d (val inputnode) in
  let displayeddrags := (List.length coords + (if dragging then 1 else 0))%nat in
  if infinite inputnode || (displayeddrags <? noofdrags inputnode)%nat
  then coords ++ [dragHomeXY d choiceNo]
  else coords.

(** [css(name, value)] with a number: jQuery leaves the style alone when
    the value is [NaN]. *)
Definition css (value : jsval) (old : option jsnum) : option jsnum :=
  match Js.Number value with
  | NaN => old
  | n => Some n
  end.

(** [cloneNewDragItem] (lines 132-142): a copy of the home with the classes
    [dragitem] and [item<itemno>]. *)
Definition cloneNewDragItem (draghome : Home) (itemNo : nat) : DragItem :=
  {| itemno := itemNo;
     beingdragged := false;
     unneeded := false;
     innerText := home_innerText draghome;
     drag_offset := home_offset draghome;
     style_left := None;
     style_top := None |}.

Definition place (xy : array) (e : DragItem) : DragItem :=
  {| itemno := itemno e;
     beingdragged := beingdragged e;
     unneeded := unneeded e;
     innerText := innerText e;
     drag_offset := drag_offset e;
     style_left := css (idx xy 0) (style_left e);
     style_top := css (idx xy 1) (style_top e) |}.

Definition set_unneeded (b : bool) (e : DragItem) : DragItem :=
  {| itemno := itemno e;
     beingdragged := beingdragged e;
     unneeded := b;
     innerText := innerText e;
     drag_offset := drag_offset e;
     style_left := style_left e;
     style_top := style_top e |}.

(** One turn of the inner loop of [redrawDragsAndDrops] (lines 99-107) on
    the markers of the choice. *)
Definition redraw_slot (draghome : Home) (items : list DragItem)
    (slot : nat * array) : list DragItem :=
  let (i, xy) := slot in
  let drag := bucket itemno items i in
  if match drag with [] => true | _ => false end || hasClass_beingdragged drag
  then place xy (cloneNewDragItem draghome i) :: items
  else map (fun e => if (itemno e =? i)%nat then place xy (set_unneeded false e) else e)
           items.

(** The body run for one hidden field (lines 95-108). *)
Definition redraw_input (d : Doc) (input : Input) : Doc :=
  let choiceNo := choice input in
  let coords := getCoords d input in
  let dragItemHome := dragItemHome d choiceNo in
  set_dragItems d choiceNo
    (fold_left (redraw_slot dragItemHome)
               (combine (seq 0 (List.length coords)) coords)
               (dragItemsForChoice d choiceNo)).

Definition map_dragItems (f : list DragItem -> list DragItem) (d : Doc) : Doc :=
  {| bgImage := bgImage d;
     dragItemHome := dragItemHome d;
     dragItemsForChoice := fun c => f (dragItemsForChoice d c);
     inputsForChoices := inputsForChoices d |}.

(** The marker half of [redrawDragsAndDrops] (lines 91-114): mark every
    marker unneeded, reconcile each choice with its field, remove what is
    still unneeded and not being dragged.  The drop-zone half that follows
    it in the source does not touch the markers. *)
Definition redrawDrags (d : Doc) : Doc :=
  let d := map_dragItems (map (set_unneeded true)) d in
  let d := fold_left redraw_input (inputsForChoices d) d in
  map_dragItems (filter (fun item => negb (unneeded item && negb (beingdragged item)))) d.

(* ================================================================== *)
(** ** Drop-zone shapes *)

(** An svg element built from markup: its tag and its attributes, in the
    order the markup writes them. *)
Record Shape : Type := {
  tag : string;
  attrs : list (string * string)
}.

Definition attr (name : string) (s : Shape) : option string :=
  option_map snd (find (fun kv => String.eqb (fst kv) name) (attrs s)).

(** [t.shapes]: an array with holes. *)
Definition Shapes := list (option Shape).

(** [a[i] = v]: an index past the end extends the array. *)
Fixpoint array_set (a : Shapes) (i : nat) (v : Shape) : Shapes :=
  match i, a with
  | O, [] => [Some v]
  | O, _ :: r => Some v :: r
  | S k, [] => None :: array_set [] k v
  | S k, x :: r => x :: array_set r k v
  end.

(** [a[i]]: [None] for a hole and past the end. *)
Definition array_get (a : Shapes) (i : nat) : option Shape :=
  match nth_error a i with
  | Some (Some v) => Some v
  | _ => None
  end.

(** The member [i] of a match result. *)
Definition group (parts : list string) (i : nat) : jsval :=
  match nth_error parts i with
  | Some s => VStr s
  | None => VUndef
  end.

Definition dz (dropzoneno : nat) : string :=
  ("dz" ++ Js.string_of_Z (Z.of_nat dropzoneno))%string.

(** [addShape_circle] (lines 522-537): the shapes array after the call and
    the value returned, [None] for [null]. *)
Definition addShape_circle (d : Doc) (shapes : Shapes)
    (dropzoneno : nat) (coords colour : string) : Shapes * option array :=
  match Js.match_circle coords with
  | Some coordsparts =>
      if (List.length coordsparts =? 4)%nat then
        let centrex := Js.Number (group coordsparts 1) in
        let centrey := Js.Number (group coordsparts 2) in
        let radius := Js.Number (group coordsparts 3) in
        if coordsInBgImg d [VNum (Js.sub centrex radius); VNum (Js.sub centrey radius)]
        then
          let shape :=
            {| tag := "circle";
               attrs := [("id", dz dropzoneno);
                         ("cx", Js.number_toString centrex);
                         ("cy", Js.number_toString centrey);
                         ("r", Js.number_toString radius);
                         ("fill", colour); ("fill-opacity", "0.5");
                         ("stroke", "black"); ("stroke-width", "1")] |} in
          (array_set shapes dropzoneno shape, Some [VNum centrex; VNum centrey])
        else (shapes, None)
      else (shapes, None)
  | None => (shapes, None)
  end.

(** [addShape_rectangle] (lines 547-565) *)
Definition addShape_rectangle (d : Doc) (shapes : Shapes)
    (dropzoneno : nat) (coords colour : string) : Shapes * option array :=
  match Js.match_rectangle coords with
  | Some coordsparts =>
      if (List.length coordsparts =? 5)%nat then
        let x := Js.Number (group coordsparts 1) in
        let y := Js.Number (group coordsparts 2) in
        let width := Js.Number (group coordsparts 3) in
        let height := Js.Number (group coordsparts 4) in
        if coordsInBgImg d [VNum (Js.add x width); VNum (Js.add y height)]
        then
          let shape :=
            {| tag := "rect";
               attrs := [("id", dz dropzoneno);
                         ("width", Js.number_toString width);
                         ("height", Js.number_toString height);
                         ("x", Js.number_toString x);
                         ("y", Js.number_toString y);
                         ("fill", colour); ("fill-opacity", "0.5");
                         ("stroke", "black"); ("stroke-width", "1")] |} in
          (array_set shapes dropzoneno shape,
           Some [VNum (Js.add x (Js.div width (Fin 2)));
                 VNum (Js.add y (Js.div height (Fin 2)))])
        else (shapes, None)
      else (shapes, None)
  | None => (shapes, None)
  end.

(** The first loop of [addShape_polygon] (lines 581-586): the vertices
    kept in [xy], each a pair of digit strings. *)
Definition polygon_step (d : Doc) (xy : list array) (part : string) : list array :=
  match Js.match_point part with
  | Some parts =>
      if coordsInBgImg d [group parts 1; group parts 2]
      then xy ++ [[group parts 1; group parts 2]]
      else xy
  | None => xy
  end.

Definition polygon_xy (d : Doc) (coords : string) : list array :=
  fold_left (polygon_step d) (Js.split ";" coords) [].

(** The second loop (lines 590-596): [minxy] and [maxxy] after it. *)
Definition minmax_step (st : (jsnum * jsnum) * (jsnum * jsnum)) (p : array)
    : (jsnum * jsnum) * (jsnum * jsnum) :=
  let '((minx, miny), (maxx, maxy)) := st in
  ((Js.Math_min (Js.Number (idx p 0)) minx, Js.Math_min (Js.Number (idx p 1)) miny),
   (Js.Math_max (Js.Number (idx p 0)) maxx, Js.Math_max (Js.Number (idx p 1)) maxy)).

(** [addShape_polygon] (lines 575-604) *)
Definition addShape_polygon (d : Doc) (shapes : Shapes)
    (dropzoneno : nat) (coords colour : string) : Shapes * option array :=
  let width := width (bgImage d) in
  let height := height (bgImage d) in
  let xy := polygon_xy d coords in
  if (2 <? List.length xy)%nat then
    let maxxy := (Fin 0, Fin 0) in
    let minxy := (Fin width, Fin height) in
    let '(minxy, maxxy) := fold_left minmax_step xy (minxy, maxxy) in
    let path := Js.replace_comma_semicolon coords in
    let polygon :=
      {| tag := "polygon";
         attrs := [("id", dz dropzoneno);
                   ("fill", colour); ("fill-opacity", "0.5");
                   ("stroke", "black"); ("stroke-width", "1");
                   ("points", path)] |} in
    (array_set shapes dropzoneno polygon,
     Some [VNum (Js.div (Js.add (fst minxy) (fst maxxy)) (Fin 2));
           VNum (Js.div (Js.add (snd minxy) (snd maxxy)) (Fin 2))])
  else (shapes, None).

(** The dispatch of [addDropzone] (lines 453-456): [t['addShape_' + shape]]
    is a function for the three shape names only. *)
Definition drawShape (d : Doc) (shapes : Shapes) (dropzoneno : nat)
    (shape coords colour : string) : Shapes * option array :=
  if String.eqb shape "circle" then addShape_circle d shapes dropzoneno coords colour
  else if String.eqb shape "rectangle" then addShape_rectangle d shapes dropzoneno coords colour
  else if String.eqb shape "polygon" then addShape_polygon d shapes dropzoneno coords colour
  else (shapes, None).

(* ================================================================== *)
(** ** The codec as the specification words it *)

Module Spec.

(** "each part split on [,] into two integers": exactly two fields, each
    an optionally signed run of decimal digits. *)
Definition two_integers (part : string) : option (Z * Z) :=
  match Js.split "," part with
  | [a; b] =>
      match NilZero.int_of_string a, NilZero.int_of_string b with
      | Some x, Some y => Some (Z.of_int x, Z.of_int y)
      | _, _ => None
      end
  | _ => None
  end.

Fixpoint all_parts (parts : list string) : option (list (Z * Z)) :=
  match parts with
  | [] => Some []
  | p :: r =>
      match two_integers p, all_parts r with
      | Some xy, Some l => Some (xy :: l)
      | _, _ => None
      end
  end.

(** "empty string decodes to empty sequence; otherwise split on [;] ...
    Fails with [FormatError] if any part is not exactly two integers":
    [None] stands for the failure. *)
Definition decode (s : string) : option (list (Z * Z)) :=
  if String.eqb s "" then Some [] else all_parts (Js.split ";" s).

(** "each segment matched against [int,int]" *)
Definition int_int (part a b : string) : Prop :=
  part = (a ++ "," ++ b)%string /\ Js.is_digits a /\ Js.is_digits b.

(** The point written [a], [b] lies within the image. *)
Definition vertex_in_image (d : Doc) (a b : string) : Prop :=
  exists x y : Z,
    Js.StringToNumber a = Fin x /\ Js.StringToNumber b = Fin y /\
    (0 < x <= width (bgImage d) /\ 0 < y <= height (bgImage d))%Z.

Definition kept (d : Doc) (part a b : string) : Prop :=
  int_int part a b /\ vertex_in_image d a b.

(** "segments that don't match or fall outside the image are silently
    dropped ... Result is the filtered sequence." *)
Inductive filtered (d : Doc) : list string -> list array -> Prop :=
| filtered_nil : filtered d [] []
| filtered_keep part a b parts xy :
    kept d part a b -> filtered d parts xy ->
    filtered d (part :: parts) ([VStr a; VStr b] :: xy)
| filtered_drop part parts xy :
    (forall a b, ~ kept d part a b) -> filtered d parts xy ->
    filtered d (part :: parts) xy.

(** The integer point a vertex of [xy] denotes. *)
Definition vertex_value (v : array) (p : Z * Z) : Prop :=
  Js.Number (idx v 0) = Fin (fst p) /\ Js.Number (idx v 1) = Fin (snd p).

Definition is_min (m : Z) (l : list Z) : Prop :=
  In m l /\ Forall (fun x => (m <= x)%Z) l.

Definition is_max (m : Z) (l : list Z) : Prop :=
  In m l /\ Forall (fun x => (x <= m)%Z) l.

End Spec.

(** An integer point as the array [saveCoordsForChoice] stores. *)
Definition point (p : Z * Z) : array := [num_of_Z (fst p); num_of_Z (snd p)].

(* ================================================================== *)
(** ** Example pages *)

Module Examples.

(** A 100x100 image whose page offset and position differ. *)
Definition image_offset : BgImage :=
  {| offset := {| left := 10; top := 20 |};
     position := {| left := 0; top := 0 |};
     width := 100; height := 100 |}.

(** A 100x100 image whose page offset and position agree. *)
Definition image_aligned : BgImage :=
  {| offset := {| left := 10; top := 20 |};
     position := {| left := 10; top := 20 |};
     width := 100; height := 100 |}.

Definition home : Home :=
  {| home_innerText := "A";
     home_position := {| left := 5; top := 300 |};
     home_offset := {| left := 15; top := 320 |} |}.

Definition page (bg : BgImage) (items : list DragItem) (inputs : list Input) : Doc :=
  {| bgImage := bg;
     dragItemHome := fun _ => home;
     dragItemsForChoice := fun c => if (c =? 0)%nat then items else [];
     inputsForChoices := inputs |}.

(** A marker of choice 0 labelled as the home, at a page offset. *)
Definition marker (i : nat) (dragged : bool) (l t : Z) : DragItem :=
  {| itemno := i; beingdragged := dragged; unneeded := false;
     innerText := "A";
     drag_offset := {| left := l; top := t |};
     style_left := None; style_top := None |}.

Definition field (v : string) : Input :=
  {| choice := 0; val := v; infinite := true; noofdrags := 0 |}.

(** Three markers of choice 0 on the image at page offset (10, 20), newest
    first: item 2 was just dropped at image-relative (0, 50), item 1 sits
    at (30, 40), item 0 at (70, 20). *)
Definition dropped_on_edge : DragItem := marker 2 false 11 71.

Definition edge_page : Doc :=
  page image_offset
       [dropped_on_edge; marker 1 false 41 61; marker 0 false 81 41]
       [field "70,20;30,40"].

(** Unlimited policy, nothing placed, nothing dragged. *)
Definition unlimited_page : Doc := page image_offset [] [field ""].

(** At most two markers, two placed, none dragged. *)
Definition two_of_two : Input :=
  {| choice := 0; val := "70,20;30,40"; infinite := false; noofdrags := 2 |}.

Definition full_page : Doc :=
  page image_offset [marker 1 false 41 61; marker 0 false 81 41] [two_of_two].

Definition aligned_page : Doc := page image_aligned [] [].
Definition offset_page : Doc := page image_offset [] [].

End Examples.

(* ================================================================== *)
(** ** Class names *)

(** What is left of [s] after the literal [prefix]. *)
Fixpoint strip_prefix (prefix s : string) : option string :=
  match prefix, s with
  | EmptyString, _ => Some s
  | String a p, String b r => if Ascii.eqb a b then strip_prefix p r else None
  | String _ _, EmptyString => None
  end.

(** [/([0-9])+$/] at the head of [s]: digits up to the end. *)
Definition digits_at_end (s : string) : option string :=
  match Js.digits1 s with
  | Some (g, EmptyString) => Some g
  | _ => None
  end.

(** An ASCII letter.  In the text of a pattern a letter stands for
    itself. *)
Definition is_letter (c : ascii) : bool :=
  let n := nat_of_ascii c in
  ((65 <=? n)%nat && (n <=? 90)%nat) || ((97 <=? n)%nat && (n <=? 122)%nat).

(** A prefix made of letters, as the two the module passes, ['choice']
    and ['noofdrags'], are.  The pattern built from such a prefix reads it
    as literal text. *)
Definition literal_prefix (prefix : string) : Prop :=
  Js.all_chars is_letter prefix = true.

(** [new RegExp('^' + prefix + '([0-9])+$').test(s)] for a
    [literal_prefix].  The source hands the prefix to the pattern compiler;
    a prefix that holds characters with a meaning of their own in a
    pattern is compiled to another pattern, or refused, and is outside
    this model: everything stated below is stated for a
    [literal_prefix]. *)
Definition test_prefix_digits (prefix s : string) : bool :=
  match strip_prefix prefix s with
  | Some r => match digits_at_end r with Some _ => true | None => false end
  | None => false
  end.

(** [new RegExp('([0-9])+$').exec(s)]: the whole match. *)
Definition exec_digits_at_end (s : string) : option string :=
  Js.search digits_at_end s.

(** The loop of [getClassnameNumericSuffix] (lines 378-385) over the class
    names.  A name that passes the test always has digits at its end, so
    [match[0]] is read from a match. *)
Fixpoint first_numeric_suffix (prefix : string) (classesarr : list string)
    : option jsnum :=
  match classesarr with
  | [] => None
  | c :: r =>
      if test_prefix_digits prefix c then
        match exec_digits_at_end c with
        | Some m => Some (Js.Number (VStr m))
        | None => None
        end
      else first_numeric_suffix prefix r
  end.

(** [getClassnameNumericSuffix] (lines 374-388) on the [class] attribute
    of the node, [None] when the node has none; the result is [None] for
    [null]. *)
Definition getClassnameNumericSuffix (classes : option string) (prefix : string)
    : option jsnum :=
  match classes with
  | Some c =>
      if String.eqb c "" then None
      else first_numeric_suffix prefix (Js.split " " c)
  | None => None
  end.

(** [getChoiceNoForNode] (lines 276-278): [Number(null)] is [0]. *)
Definition getChoiceNoForNode (classes : option string) : jsnum :=
  match getClassnameNumericSuffix classes "choice" with
  | Some n => n
  | None => Fin 0
  end.

(* ================================================================== *)
(** ** Keyboard *)

Inductive Direction : Type := Remove | GoLeft | GoUp | GoRight | GoDown.

(** The table [keys] of [dropzoneKeyPress] (lines 286-297). *)
Definition keys (keyCode : nat) : option Direction :=
  if (keyCode =? 32)%nat then Some Remove
  else if (keyCode =? 37)%nat then Some GoLeft
  else if (keyCode =? 38)%nat then Some GoUp
  else if (keyCode =? 39)%nat then Some GoRight
  else if (keyCode =? 40)%nat then Some GoDown
  else if (keyCode =? 65)%nat then Some GoLeft
  else if (keyCode =? 87)%nat then Some GoUp
  else if (keyCode =? 68)%nat then Some GoRight
  else if (keyCode =? 83)%nat then Some GoDown
  else if (keyCode =? 27)%nat then Some Remove
  else None.

(** [dropzoneKeyPress] up to the position it gives the marker (lines
    284-325): [None] when the key is ignored, otherwise the [xy] handed to
    [drag.css].  The writes that follow it, [saveCoordsForChoice] and the
    redraw, read the page after the browser has laid the marker out
    again. *)
Definition dropzoneKeyPress_xy (d : Doc) (choiceNo : nat) (drag : DragItem)
    (keyCode : nat) : option array :=
  let xy := offset_array drag in
  match keys keyCode with
  | None => None
  | Some direction =>
      let xy :=
        match direction with
        | GoLeft => Some [VNum (Js.sub (Js.Number (idx xy 0)) (Fin 1)); idx xy 1]
        | GoRight => Some [VNum (Js.add (Js.Number (idx xy 0)) (Fin 1)); idx xy 1]
        | GoDown => Some [idx xy 0; VNum (Js.add (Js.Number (idx xy 1)) (Fin 1))]
        | GoUp => Some [idx xy 0; VNum (Js.sub (Js.Number (idx xy 1)) (Fin 1))]
        | Remove => None
        end in
      Some match xy with
           | Some xy => constrainToBgImg d xy
           | None => dragHomeXY d choiceNo
           end
  end.

(* ================================================================== *)
(** ** The end of a drag *)

Definition removeClass_beingdragged (e : DragItem) : DragItem :=
  {| itemno := itemno e;
     beingdragged := false;
     unneeded := unneeded e;
     innerText := innerText e;
     drag_offset := drag_offset e;
     style_left := style_left e;
     style_top := style_top e |}.

Fixpoint update_nth {A : Type} (k : nat) (f : A -> A) (l : list A) : list A :=
  match k, l with
  | _, [] => []
  | O, x :: r => f x :: r
  | S k, x :: r => x :: update_nth k f r
  end.

(** [dragEnd] (lines 337-343).  The node is the marker at place [k] among
    the markers of choice [c]; a place past the end stands for an empty
    jQuery object, whose choice number is [Number(null)].  The redraw is
    run for its marker half. *)
Definition dragEnd (d : Doc) (c k : nat) : Outcome Doc :=
  let d1 :=
    set_dragItems d c
      (update_nth k removeClass_beingdragged (dragItemsForChoice d c)) in
  let node :=
    match nth_error (dragItemsForChoice d1 c) k with
    | Some e => [e]
    | None => []
    end in
  let choiceNo := match node with [] => 0%nat | _ => c end in
  match saveCoordsForChoice d1 choiceNo (Some node) with
  | Returned d2 => Returned (redrawDrags d2)
  | Thrown e => Thrown e
  end.

(* ================================================================== *)
(** ** Colours and the overlay *)

(** [t.colours] *)
Definition colours : list string :=
  ["#FFFFFF"; "#B0C4DE"; "#DCDCDC"; "#D8BFD8";
   "#87CEFA"; "#DAA520"; "#FFD700"; "#F0E68C"].

(** The svg element laid over the image: the shapes it holds and its
    [left], [top], [width] and [height]. *)
Record Svg : Type := {
  svg_shapes : list Shape;
  svg_left : Z;
  svg_top : Z;
  svg_width : Z;
  svg_height : Z
}.

(** The part of [t] the drop zones use. *)
Record State : Type := {
  t_shapes : Shapes;
  t_nextColourIndex : nat;
  t_svg : option Svg
}.

(** One drop zone of [t.dropzones]. *)
Record Dropzone : Type := {
  dz_markertext : string;
  dz_shape : string;
  dz_coords : string
}.

(** [restartColours] (lines 404-406) *)
Definition restartColours (t : State) : State :=
  {| t_shapes := t_shapes t; t_nextColourIndex := 0; t_svg := t_svg t |}.

(** [getNextColour] (lines 412-419): the colour, [undefined] past the end
    of the palette, and the state after the call. *)
Definition getNextColour (t : State) : jsval * State :=
  let colour :=
    match nth_error colours (t_nextColourIndex t) with
    | Some c => VStr c
    | None => VUndef
    end in
  let next := S (t_nextColourIndex t) in
  (colour,
   {| t_shapes := t_shapes t;
      t_nextColourIndex := if (next =? List.length colours)%nat then 0%nat else next;
      t_svg := t_svg t |}).

(** A value appended to a string with [+]. *)
Definition concat_toString (v : jsval) : string :=
  match v with
  | VNum n => Js.number_toString n
  | VStr s => s
  | VUndef => "undefined"
  end.

(** The entries of an array that [for (var i in a)] visits, in order: the
    holes are skipped. *)
Definition present (a : Shapes) : list Shape :=
  flat_map (fun o => match o with Some s => [s] | None => [] end) a.

(** [drawDropzones] (lines 482-512) *)
Definition drawDropzones (d : Doc) (t : State) : State :=
  if (List.length (t_shapes t) <? 1)%nat then t
  else
    {| t_shapes := t_shapes t;
       t_nextColourIndex := t_nextColourIndex t;
       t_svg :=
         Some {| svg_shapes := present (t_shapes t);
                 svg_left := left (position (bgImage d)) + 1;
                 svg_top := top (position (bgImage d)) + 1;
                 svg_width := width (bgImage d);
                 svg_height := height (bgImage d) |} |}.

(** One turn of the loop over [t.dropzones] (lines 118-122): the colour is
    drawn, then [addDropzone] hands the geometry to the shape handler.  The
    marker text that [addDropzone] also lays out is left to the page. *)
Definition redrawDrops_step (d : Doc) (t : State) (slot : nat * Dropzone) : State :=
  let (dropzoneno, z) := slot in
  let (colourfordropzone, t) := getNextColour t in
  {| t_shapes :=
       fst (drawShape d (t_shapes t) dropzoneno (dz_shape z) (dz_coords z)
              (concat_toString colourfordropzone));
     t_nextColourIndex := t_nextColourIndex t;
     t_svg := t_svg t |}.

(** The drop-zone half of [redrawDragsAndDrops] (lines 116-124). *)
Definition redrawDrops (d : Doc) (dropzones : list Dropzone) (t : State) : State :=
  if (List.length dropzones =? 0)%nat then t
  else
    let t := restartColours t in
    let t := fold_left (redrawDrops_step d)
                       (combine (seq 0 (List.length dropzones)) dropzones) t in
    drawDropzones d t.

(** ** More example pages *)

Module Pages.

(** One marker of choice 0 is being dragged over the image at page offset
    (10, 20); the other two are placed, and the field holds their places
    and that of the dragged one before it was picked up. *)
Definition dragging_page : Doc :=
  Examples.page Examples.image_offset
    [Examples.marker 2 false 15 320;
     Examples.marker 1 true 61 91;
     Examples.marker 0 false 81 41]
    [Examples.field "70,20;30,40"].

Definition three_zones : list Dropzone :=
  [{| dz_markertext := "a"; dz_shape := "circle"; dz_coords := "50,50;20" |};
   {| dz_markertext := "b"; dz_shape := "rectangle"; dz_coords := "200,10;5,5" |};
   {| dz_markertext := "c"; dz_shape := "polygon"; dz_coords := "10,10;90,10;50,90" |}].

Definition fresh : State :=
  {| t_shapes := []; t_nextColourIndex := 0; t_svg := None |}.

(** The spare of an unlimited choice, number 1, is being dragged over the
    image, at image-relative (44, 45); marker 0 is placed at (70, 20). *)
Definition spare_dragged : Doc :=
  Examples.page Examples.image_offset
    [Examples.marker 1 true 55 66; Examples.marker 0 false 81 41]
    [Examples.field "70,20"].

(** That page after a redraw during the drag, a window resize say, at the
    moment [dragEnd] saves: the marker has been dropped where it was and
    no longer carries [beingdragged]. *)
Definition dropped_after_redraw : Doc :=
  set_dragItems (redrawDrags spare_dragged) 0
    (update_nth 1 removeClass_beingdragged
       (dragItemsForChoice (redrawDrags spare_dragged) 0)).

(** The dropped marker on that page; the redraw marked it unneeded and
    kept it, since it was being dragged. *)
Definition dropped : DragItem :=
  {| itemno := 1; beingdragged := false; unneeded := true;
     innerText := "A";
     drag_offset := {| left := 55; top := 66 |};
     style_left := None; style_top := None |}.

End Pages.

(* ================================================================== *)
(** * Properties *)

(** ** Numbers *)

Module JsFacts.

Lemma add_Fin a b : Js.add (Fin a) (Fin b) = Fin (a + b).
Proof.
  unfold Fin, inject_Z; cbn. unfold Qplus; cbn. do 2 f_equal. lia.
Qed.

Lemma sub_Fin a b : Js.sub (Fin a) (Fin b) = Fin (a - b).
Proof.
  unfold Fin, inject_Z; cbn. unfold Qminus, Qplus, Qopp; cbn. do 2 f_equal. lia.
Qed.

Lemma lt_Fin a b : Js.lt (Fin a) (Fin b) = (a <? b)%Z.
Proof.
  unfold Fin, Js.lt, Qle_bool, inject_Z; cbn.
  rewrite !Z.mul_1_r. now rewrite Z.ltb_antisym.
Qed.

Lemma le_Fin a b : Js.le (Fin a) (Fin b) = (a <=? b)%Z.
Proof.
  unfold Fin, Js.le, Qle_bool, inject_Z; cbn. now rewrite !Z.mul_1_r.
Qed.

Lemma gt_Fin a b : Js.gt (Fin a) (Fin b) = (b <? a)%Z.
Proof. apply lt_Fin. Qed.

Lemma lt_Num x y : Js.lt (Num x) (Num y) = true <-> (x < y)%Q.
Proof.
  cbn. rewrite negb_true_iff. split.
  - intros H. apply Qnot_le_lt. intros L. apply Qle_bool_iff in L. congruence.
  - intros H. destruct (Qle_bool y x) eqn:E; [|reflexivity].
    apply Qle_bool_iff in E. now apply Qlt_not_le in H.
Qed.

Lemma le_Num x y : Js.le (Num x) (Num y) = true <-> (x <= y)%Q.
Proof. cbn. apply Qle_bool_iff. Qed.

(** The two outcomes of [Qmax] and of [Qmin], up to Leibniz equality. *)
Lemma Qmax_cases x y :
  (Qmax x y = x /\ (y <= x)%Q) \/ (Qmax x y = y /\ (x < y)%Q).
Proof.
  unfold Qmax, GenericMinMax.gmax.
  destruct (Qcompare_spec x y) as [E|L|G].
  - left. split; [reflexivity|]. rewrite E. apply Qle_refl.
  - right. now split.
  - left. split; [reflexivity|]. now apply Qlt_le_weak.
Qed.

Lemma Qmin_cases x y :
  (Qmin x y = x /\ (x <= y)%Q) \/ (Qmin x y = y /\ (y < x)%Q).
Proof.
  unfold Qmin, GenericMinMax.gmin.
  destruct (Qcompare_spec x y) as [E|L|G].
  - left. split; [reflexivity|]. rewrite E. apply Qle_refl.
  - left. split; [reflexivity|]. now apply Qlt_le_weak.
  - right. now split.
Qed.

Lemma max_Fin a b : Js.Math_max (Fin a) (Fin b) = Fin (Z.max a b).
Proof.
  unfold Fin; cbn. f_equal.
  destruct (Qmax_cases (inject_Z a) (inject_Z b)) as [[-> H]|[-> H]].
  - rewrite <- Zle_Qle in H. now rewrite Z.max_l.
  - rewrite <- Zlt_Qlt in H. rewrite Z.max_r; [reflexivity|lia].
Qed.

Lemma min_Fin a b : Js.Math_min (Fin a) (Fin b) = Fin (Z.min a b).
Proof.
  unfold Fin; cbn. f_equal.
  destruct (Qmin_cases (inject_Z a) (inject_Z b)) as [[-> H]|[-> H]].
  - rewrite <- Zle_Qle in H. now rewrite Z.min_l.
  - rewrite <- Zlt_Qlt in H. rewrite Z.min_r; [reflexivity|lia].
Qed.

(** Adding an integer keeps the denominator. *)
Lemma add_shift q z : Js.add (Num q) (Num (inject_Z z)) = Num (Js.shift q z).
Proof.
  destruct q as [n d]. unfold Js.shift, inject_Z; cbn. unfold Qplus; cbn.
  f_equal. rewrite Pos.mul_1_r. f_equal. lia.
Qed.

Lemma sub_shift q z : Js.sub (Num q) (Num (inject_Z z)) = Num (Js.shift q (- z)).
Proof.
  destruct q as [n d]. unfold Js.shift, inject_Z; cbn.
  unfold Qminus, Qplus, Qopp; cbn.
  f_equal. rewrite Pos.mul_1_r. f_equal. lia.
Qed.

Lemma shift_shift q a b : Js.shift (Js.shift q a) b = Js.shift q (a + b).
Proof. destruct q as [n d]. unfold Js.shift; cbn. f_equal. lia. Qed.

Lemma shift_0 q : Js.shift q 0 = q.
Proof. destruct q as [n d]. unfold Js.shift; cbn. f_equal. lia. Qed.

Lemma Qmax_l_eq x y : (y <= x)%Q -> Qmax x y = x.
Proof.
  intros H. destruct (Qmax_cases x y) as [[E _]|[_ L]]; [exact E|].
  now apply Qlt_not_le in L.
Qed.

Lemma Qmax_r_eq x y : (x < y)%Q -> Qmax x y = y.
Proof.
  intros H. destruct (Qmax_cases x y) as [[_ L]|[E _]]; [|exact E].
  now apply Qlt_not_le in H.
Qed.

Lemma Qmin_l_eq x y : (x <= y)%Q -> Qmin x y = x.
Proof.
  intros H. destruct (Qmin_cases x y) as [[E _]|[_ L]]; [exact E|].
  now apply Qlt_not_le in L.
Qed.

Lemma Qmin_r_eq x y : (y < x)%Q -> Qmin x y = y.
Proof.
  intros H. destruct (Qmin_cases x y) as [[_ L]|[E _]]; [|exact E].
  now apply Qlt_not_le in H.
Qed.

(** Clamping to [[lo, hi]] twice is clamping once, whatever the bounds. *)
Lemma clip_idem lo hi x :
  Qmin hi (Qmax lo (Qmin hi (Qmax lo x))) = Qmin hi (Qmax lo x).
Proof.
  destruct (Qlt_le_dec lo x) as [Hx|Hx].
  - rewrite (Qmax_r_eq lo x Hx).
    destruct (Qlt_le_dec x hi) as [Hh|Hh].
    + rewrite (Qmin_r_eq hi x Hh), (Qmax_r_eq lo x Hx).
      apply Qmin_r_eq, Hh.
    + rewrite (Qmin_l_eq hi x Hh).
      destruct (Qlt_le_dec lo hi) as [Hl|Hl].
      * rewrite (Qmax_r_eq lo hi Hl). apply Qmin_l_eq, Qle_refl.
      * rewrite (Qmax_l_eq lo hi Hl). apply Qmin_l_eq, Hl.
  - rewrite (Qmax_l_eq lo x Hx).
    destruct (Qlt_le_dec lo hi) as [Hl|Hl].
    + rewrite (Qmin_r_eq hi lo Hl), (Qmax_l_eq lo lo (Qle_refl lo)).
      apply Qmin_r_eq, Hl.
    + rewrite (Qmin_l_eq hi lo Hl), (Qmax_l_eq lo hi Hl).
      apply Qmin_l_eq, Hl.
Qed.

End JsFacts.

(* ================================================================== *)
(** ** Coordinate mapping *)

(** One axis of [constrainToBgImg] on a number. *)
Lemma constrain_axis_Num (off pos w : Z) (q : Q) :
  Js.add (Js.add (Js.Math_min (Fin w)
                    (Js.Math_max (Fin 0) (Js.sub (Js.sub (Num q) (Fin off)) (Fin 1))))
                 (Fin pos)) (Fin 1)
  = Num (Js.shift (Qmin (inject_Z w)
                     (Qmax (inject_Z 0) (Js.shift q (- off + - (1))))) (pos + 1)).
Proof.
  unfold Fin.
  rewrite !JsFacts.sub_shift, JsFacts.shift_shift.
  cbn [Js.Math_max Js.Math_min].
  now rewrite !JsFacts.add_shift, JsFacts.shift_shift.
Qed.

Lemma constrain_axis_idem (off w : Z) (v : jsnum) :
  let axis v :=
    Js.add (Js.add (Js.Math_min (Fin w)
                      (Js.Math_max (Fin 0) (Js.sub (Js.sub v (Fin off)) (Fin 1))))
                   (Fin off)) (Fin 1) in
  axis (axis v) = axis v.
Proof.
  intros axis. subst axis. cbv beta.
  destruct v as [q|]; [|reflexivity].
  rewrite !constrain_axis_Num. f_equal. f_equal.
  rewrite JsFacts.shift_shift.
  replace (off + 1 + (- off + - (1)))%Z with 0%Z by lia.
  rewrite JsFacts.shift_0. apply JsFacts.clip_idem.
Qed.

Section CoordinateMapper.

Variable d : Doc.

Let W := width (bgImage d).
Let H := height (bgImage d).

Lemma coordsInBgImg_Num (x y : Q) :
  coordsInBgImg d [VNum (Num x); VNum (Num y)] = true <->
  (0 < x /\ x <= inject_Z W /\ 0 < y /\ y <= inject_Z H)%Q.
Proof.
  unfold coordsInBgImg, Js.gt, idx; cbn [nth Js.Number].
  rewrite !andb_true_iff.
  change (Fin 0) with (Num 0).
  unfold Fin. rewrite !JsFacts.lt_Num, !JsFacts.le_Num.
  subst W H. tauto.
Qed.

Lemma coordsInBgImg_point (x y : Z) :
  coordsInBgImg d (point (x, y)) = true <->
  (0 < x <= W /\ 0 < y <= H)%Z.
Proof.
  unfold point, num_of_Z, coordsInBgImg, idx; cbn [nth Js.Number fst snd].
  rewrite !JsFacts.gt_Fin, !JsFacts.le_Fin, !andb_true_iff.
  rewrite !Z.ltb_lt, !Z.leb_le. subst W H. tauto.
Qed.

End CoordinateMapper.

(** C8.  [coordsInBgImg] holds of an image-relative point [(x, y)] exactly
    when [0 < x <= width] and [0 < y <= height]: the lower bound is strict,
    the upper bound inclusive.  It is stated for every rational point and
    again for the integer points; hence it is false as soon as [x <= 0],
    [y <= 0], [x > width] or [y > height]. *)
Theorem coordsInBgImg_spec (d : Doc) :
  (forall x y : Q,
      coordsInBgImg d [VNum (Num x); VNum (Num y)] = true <->
      (0 < x /\ x <= inject_Z (width (bgImage d)) /\
       0 < y /\ y <= inject_Z (height (bgImage d)))%Q) /\
  (forall x y : Z,
      coordsInBgImg d (point (x, y)) = true <->
      (0 < x <= width (bgImage d) /\ 0 < y <= height (bgImage d))%Z) /\
  (forall x y : Z,
      (x <= 0 \/ y <= 0 \/ width (bgImage d) < x \/ height (bgImage d) < y)%Z ->
      coordsInBgImg d (point (x, y)) = false).
Proof.
  split; [|split].
  - apply coordsInBgImg_Num.
  - apply coordsInBgImg_point.
  - intros x y Hout.
    destruct (coordsInBgImg d (point (x, y))) eqn:E; [|reflexivity].
    apply coordsInBgImg_point in E. lia.
Qed.

(** C7, as the code has it.  [constrainToBgImg] goes to image space with the
    image's page offset and comes back with its position; when the two
    agree, constraining twice is constraining once, for every array handed
    in. *)
Theorem constrainToBgImg_idempotent_aligned (d : Doc) (windowxy : array) :
  offset (bgImage d) = position (bgImage d) ->
  constrainToBgImg d (constrainToBgImg d windowxy) = constrainToBgImg d windowxy.
Proof.
  intros Hal.
  unfold constrainToBgImg, convertToWindowXY, convertToBgImgXY, idx.
  cbn [nth Js.Number]. rewrite <- Hal.
  f_equal; [|f_equal]; f_equal.
  - apply (constrain_axis_idem (left (offset (bgImage d))) (width (bgImage d))).
  - apply (constrain_axis_idem (top (offset (bgImage d))) (height (bgImage d))).
Qed.

Lemma constrainToBgImg_idempotent_aligned_witness :
  offset (bgImage Examples.aligned_page) = position (bgImage Examples.aligned_page) /\
  constrainToBgImg Examples.aligned_page
    (constrainToBgImg Examples.aligned_page (point (500, 7)%Z))
  = constrainToBgImg Examples.aligned_page (point (500, 7)%Z).
Proof.
  split; [reflexivity|].
  apply (constrainToBgImg_idempotent_aligned Examples.aligned_page (point (500, 7)%Z)).
  reflexivity.
Defined.

(** C7 as stated fails: with the image at page offset (10, 20) and position
    (0, 0), the window point (60, 60)%Z is constrained to (50, 40), and that
    point to (40, 20). *)
Lemma constrainToBgImg_not_idempotent :
  constrainToBgImg Examples.offset_page (point (60, 60)%Z) = point (50, 40)%Z /\
  constrainToBgImg Examples.offset_page
    (constrainToBgImg Examples.offset_page (point (60, 60)%Z)) = point (40, 20)%Z /\
  constrainToBgImg Examples.offset_page
    (constrainToBgImg Examples.offset_page (point (60, 60)%Z))
  <> constrainToBgImg Examples.offset_page (point (60, 60)%Z).
Proof.
  split; [reflexivity|]. split; [reflexivity|].
  vm_compute. intros E. discriminate E.
Qed.

(* ================================================================== *)
(** ** Strings *)

Module StringFacts.

Lemma all_chars_impl (p q : ascii -> bool) s :
  (forall c, p c = true -> q c = true) ->
  Js.all_chars p s = true -> Js.all_chars q s = true.
Proof.
  intros Hpq. induction s as [|c t IH]; cbn; [reflexivity|].
  rewrite !andb_true_iff. intros [Hc Ht]. split; auto.
Qed.

Lemma all_chars_app p s t :
  Js.all_chars p (s ++ t)%string = Js.all_chars p s && Js.all_chars p t.
Proof.
  induction s as [|c s IH]; cbn; [reflexivity|].
  now rewrite IH, andb_assoc.
Qed.

Lemma digit_or_minus_not_space c :
  Js.is_digit_or_minus c = true -> negb (Js.is_space c) = true.
Proof.
  destruct c as [[|] [|] [|] [|] [|] [|] [|] [|]]; cbv; congruence.
Qed.

Lemma digit_or_minus_not_sep (sep : ascii) c :
  sep = ","%char \/ sep = ";"%char ->
  Js.is_digit_or_minus c = true -> negb (Ascii.eqb c sep) = true.
Proof.
  intros [-> | ->];
    destruct c as [[|] [|] [|] [|] [|] [|] [|] [|]]; cbv; congruence.
Qed.

Lemma digit_is_digit_or_minus c :
  Js.is_digit c = true -> Js.is_digit_or_minus c = true.
Proof. unfold Js.is_digit_or_minus. now intros ->. Qed.

(** *** Trimming *)

Lemma trim_right_id s :
  Js.all_chars (fun c => negb (Js.is_space c)) s = true -> Js.trim_right s = s.
Proof.
  induction s as [|c t IH]; cbn; [reflexivity|].
  rewrite andb_true_iff, negb_true_iff. intros [Hc Ht].
  rewrite (IH Ht), Hc. now destruct t.
Qed.

Lemma trim_id s :
  Js.all_chars (fun c => negb (Js.is_space c)) s = true -> Js.trim s = s.
Proof.
  intros H. unfold Js.trim.
  assert (Js.trim_left s = s) as ->.
  { destruct s as [|c t]; [reflexivity|]. cbn in *.
    apply andb_true_iff in H as [Hc _]. apply negb_true_iff in Hc.
    now rewrite Hc. }
  now apply trim_right_id.
Qed.

(** *** Printed integers *)

Lemma string_of_uint_digits u :
  Js.all_chars Js.is_digit (NilEmpty.string_of_uint u) = true.
Proof. induction u; cbn; auto. Qed.

Lemma NilZero_string_of_uint_digits u :
  Js.all_chars Js.is_digit (NilZero.string_of_uint u) = true.
Proof.
  destruct u; try reflexivity; apply (string_of_uint_digits (_ _)).
Qed.

Lemma string_of_Z_chars z :
  Js.all_chars Js.is_digit_or_minus (Js.string_of_Z z) = true.
Proof.
  unfold Js.string_of_Z.
  destruct (Z.to_int z) as [u|u]; cbn [NilZero.string_of_int Js.all_chars].
  - apply all_chars_impl with Js.is_digit; [apply digit_is_digit_or_minus|].
    apply NilZero_string_of_uint_digits.
  - apply andb_true_iff. split; [reflexivity|].
    apply all_chars_impl with Js.is_digit; [apply digit_is_digit_or_minus|].
    apply NilZero_string_of_uint_digits.
Qed.

Lemma to_int_not_nil z : Z.to_int z <> Decimal.Pos Decimal.Nil /\ Z.to_int z <> Decimal.Neg Decimal.Nil.
Proof.
  destruct z as [|p|p]; cbn; split; try discriminate;
    intros [= E]; now apply Unsigned.to_uint_nonnil in E.
Qed.

Lemma int_of_string_of_Z z :
  NilZero.int_of_string (Js.string_of_Z z) = Some (Z.to_int z).
Proof.
  unfold Js.string_of_Z. destruct (to_int_not_nil z). now apply NilZero.isi.
Qed.

(** A string the decimal reader accepts is read by [StringToNumber] as the
    same integer. *)
Lemma int_of_string_chars s i :
  NilZero.int_of_string s = Some i ->
  Js.all_chars Js.is_digit_or_minus s = true.
Proof.
  intros H. apply NilZero.sis in H. subst s.
  destruct i as [u|u]; cbn [NilZero.string_of_int Js.all_chars].
  - apply all_chars_impl with Js.is_digit; [apply digit_is_digit_or_minus|].
    apply NilZero_string_of_uint_digits.
  - apply andb_true_iff. split; [reflexivity|].
    apply all_chars_impl with Js.is_digit; [apply digit_is_digit_or_minus|].
    apply NilZero_string_of_uint_digits.
Qed.

Lemma StringToNumber_int s i :
  NilZero.int_of_string s = Some i ->
  Js.StringToNumber s = Fin (Z.of_int i).
Proof.
  intros H. unfold Js.StringToNumber.
  pose proof (int_of_string_chars s i H) as Hc.
  rewrite trim_id
    by (eapply all_chars_impl; [apply digit_or_minus_not_space|exact Hc]).
  destruct s as [|c t]; [discriminate H|].
  cbn in Hc. apply andb_true_iff in Hc as [Hc _].
  destruct c as [[|] [|] [|] [|] [|] [|] [|] [|]];
    try (cbv in Hc; discriminate Hc);
    cbv beta iota; now rewrite H.
Qed.

Lemma StringToNumber_string_of_Z z :
  Js.StringToNumber (Js.string_of_Z z) = Fin z.
Proof.
  rewrite (StringToNumber_int _ _ (int_of_string_of_Z z)).
  now rewrite DecimalZ.of_to.
Qed.

Lemma number_toString_Fin z : Js.number_toString (Fin z) = Js.string_of_Z z.
Proof.
  unfold Js.number_toString, Fin.
  assert (Qred (inject_Z z) = inject_Z z) as ->.
  { apply Qred_iff. cbn. apply Z.gcd_1_r. }
  reflexivity.
Qed.

End StringFacts.

(** ** Splitting and joining *)

Module SplitFacts.

Lemma split_no_sep sep s : Js.no_sep sep s -> Js.split sep s = [s].
Proof.
  unfold Js.no_sep. induction s as [|c t IH]; cbn; [reflexivity|].
  rewrite andb_true_iff, negb_true_iff. intros [Hc Ht].
  now rewrite Hc, (IH Ht).
Qed.

Lemma split_app_sep sep a b :
  Js.no_sep sep a ->
  Js.split sep (a ++ String sep b)%string = a :: Js.split sep b.
Proof.
  unfold Js.no_sep. induction a as [|c t IH]; cbn.
  - intros _. now rewrite Ascii.eqb_refl.
  - rewrite andb_true_iff, negb_true_iff. intros [Hc Ht].
    now rewrite Hc, (IH Ht).
Qed.

Lemma split_join sep (l : list string) :
  l <> [] -> Forall (Js.no_sep sep) l ->
  Js.split sep (Js.join (String sep EmptyString) l) = l.
Proof.
  induction l as [|x r IH]; [congruence|]. intros _ Hall.
  inversion Hall as [|? ? Hx Hr]; subst.
  destruct r as [|y r'].
  - cbn. now apply split_no_sep.
  - change (Js.join (String sep EmptyString) (x :: y :: r'))
      with (x ++ String sep (Js.join (String sep EmptyString) (y :: r')))%string.
    rewrite split_app_sep by assumption.
    f_equal. apply IH; [discriminate|assumption].
Qed.

Lemma array_toString_point x y :
  Js.array_toString (point (x, y))
  = (Js.string_of_Z x ++ "," ++ Js.string_of_Z y)%string.
Proof.
  unfold Js.array_toString, point, num_of_Z. cbn [map fst snd Js.toString_in_join Js.join].
  now rewrite !StringFacts.number_toString_Fin.
Qed.

Lemma string_of_Z_no_sep sep z :
  sep = ","%char \/ sep = ";"%char -> Js.no_sep sep (Js.string_of_Z z).
Proof.
  intros Hs. unfold Js.no_sep.
  eapply StringFacts.all_chars_impl; [|apply StringFacts.string_of_Z_chars].
  intros c. now apply StringFacts.digit_or_minus_not_sep.
Qed.

Lemma point_no_semicolon p : Js.no_sep ";" (Js.array_toString (point p)).
Proof.
  destruct p as [x y]. rewrite array_toString_point. unfold Js.no_sep.
  rewrite !StringFacts.all_chars_app. cbn [Js.all_chars].
  rewrite (string_of_Z_no_sep ";" x), (string_of_Z_no_sep ";" y) by auto.
  reflexivity.
Qed.

Lemma split_point x y :
  Js.split "," (Js.array_toString (point (x, y)))
  = [Js.string_of_Z x; Js.string_of_Z y].
Proof.
  rewrite array_toString_point.
  change (Js.string_of_Z x ++ "," ++ Js.string_of_Z y)%string
    with (Js.string_of_Z x ++ String "," (Js.string_of_Z y))%string.
  rewrite split_app_sep by (apply string_of_Z_no_sep; auto).
  now rewrite split_no_sep by (apply string_of_Z_no_sep; auto).
Qed.

Lemma split_encode (points : list (Z * Z)) :
  points <> [] ->
  Js.split ";" (encode (map point points))
  = map (fun p => Js.array_toString (point p)) points.
Proof.
  intros Hne. unfold encode. rewrite map_map.
  apply split_join.
  - destruct points; [congruence|discriminate].
  - apply Forall_forall. intros s Hs. apply in_map_iff in Hs as [p [<- _]].
    apply point_no_semicolon.
Qed.

Lemma encode_not_empty (points : list (Z * Z)) :
  points <> [] -> encode (map point points) <> EmptyString.
Proof.
  intros Hne E. pose proof (split_encode points Hne) as H.
  rewrite E in H.
  destruct points as [|[x y] r]; [congruence|].
  assert (H1 := f_equal (hd EmptyString) H). cbn [map hd Js.split] in H1.
  rewrite array_toString_point in H1.
  destruct (Js.string_of_Z x); discriminate H1.
Qed.

End SplitFacts.

(* ================================================================== *)
(** ** The marker codec *)

Section Codec.

Variable d : Doc.

Lemma convertToWindowXY_point x y :
  convertToWindowXY d (point (x, y))
  = point (x + left (position (bgImage d)) + 1, y + top (position (bgImage d)) + 1)%Z.
Proof.
  unfold convertToWindowXY, point, num_of_Z, idx.
  cbn [nth fst snd Js.Number]. now rewrite !JsFacts.add_Fin.
Qed.

Lemma convertToWindowXY_strings a b x y :
  Js.StringToNumber a = Fin x -> Js.StringToNumber b = Fin y ->
  forall more, convertToWindowXY d (map VStr (a :: b :: more))
               = convertToWindowXY d (point (x, y)).
Proof.
  intros Ha Hb more. unfold convertToWindowXY, point, num_of_Z, idx.
  cbn [map nth fst snd Js.Number]. now rewrite Ha, Hb.
Qed.

Lemma two_integers_point x y :
  Spec.two_integers (Js.array_toString (point (x, y))) = Some (x, y).
Proof.
  unfold Spec.two_integers. rewrite SplitFacts.split_point.
  rewrite !StringFacts.int_of_string_of_Z. now rewrite !DecimalZ.of_to.
Qed.

Lemma all_parts_points (points : list (Z * Z)) :
  Spec.all_parts (map (fun p => Js.array_toString (point p)) points) = Some points.
Proof.
  induction points as [|[x y] r IH]; [reflexivity|].
  cbn [map Spec.all_parts]. now rewrite two_integers_point, IH.
Qed.

Lemma two_integers_window part x y :
  Spec.two_integers part = Some (x, y) ->
  convertToWindowXY d (map VStr (Js.split "," part))
  = convertToWindowXY d (point (x, y)).
Proof.
  unfold Spec.two_integers.
  destruct (Js.split "," part) as [|a [|b [|c r]]]; try discriminate.
  destruct (NilZero.int_of_string a) as [i|] eqn:Ea; [|discriminate].
  destruct (NilZero.int_of_string b) as [j|] eqn:Eb; [|discriminate].
  intros [= <- <-].
  apply convertToWindowXY_strings; now apply StringFacts.StringToNumber_int.
Qed.

Lemma all_parts_window parts points :
  Spec.all_parts parts = Some points ->
  map (fun cs => convertToWindowXY d (map VStr (Js.split "," cs))) parts
  = map (fun p => convertToWindowXY d (point p)) points.
Proof.
  revert points. induction parts as [|p r IH]; intros points.
  - now intros [= <-].
  - cbn [Spec.all_parts].
    destruct (Spec.two_integers p) as [[x y]|] eqn:Ep; [|discriminate].
    destruct (Spec.all_parts r) as [l|]; [|discriminate].
    intros [= <-]. cbn [map].
    now rewrite (two_integers_window p x y Ep), (IH l eq_refl).
Qed.

Lemma decode_window val points :
  Spec.decode val = Some points ->
  coords_of_val d val = map (fun p => convertToWindowXY d (point p)) points.
Proof.
  unfold Spec.decode, coords_of_val.
  destruct (String.eqb val "").
  - now intros [= <-].
  - apply all_parts_window.
Qed.

Lemma decode_encode (points : list (Z * Z)) :
  Spec.decode (encode (map point points)) = Some points.
Proof.
  destruct points as [|p r]; [reflexivity|].
  unfold Spec.decode.
  destruct (String.eqb_spec (encode (map point (p :: r))) "") as [E|_].
  - now apply SplitFacts.encode_not_empty in E.
  - rewrite SplitFacts.split_encode by discriminate.
    apply all_parts_points.
Qed.

End Codec.

(** C2.  [encode] joins each pair as ["x,y"] with [";"] between pairs and
    sends the empty sequence to the empty string; for every sequence of
    integer pairs (those within the image among them) decoding the encoded
    string gives the sequence back.  The decoding loop of [getCoords], which
    splits on [";"] and then on [","], reads the same pairs and hands each
    to [convertToWindowXY]. *)
Theorem decode_encode_roundtrip (d : Doc) (points : list (Z * Z)) :
  encode [] = EmptyString /\
  encode (map point points)
  = Js.join ";" (map (fun p => Js.string_of_Z (fst p) ++ "," ++ Js.string_of_Z (snd p))%string
                     points) /\
  Spec.decode (encode (map point points)) = Some points /\
  coords_of_val d (encode (map point points))
  = map (fun p => point (fst p + left (position (bgImage d)) + 1,
                         snd p + top (position (bgImage d)) + 1)%Z) points.
Proof.
  split; [reflexivity|]. split; [|split].
  - unfold encode. rewrite map_map. f_equal. apply map_ext.
    intros [x y]. apply SplitFacts.array_toString_point.
  - apply decode_encode.
  - rewrite (decode_window d _ points (decode_encode points)).
    apply map_ext. intros [x y]. apply convertToWindowXY_point.
Qed.

(** C6 as stated fails: the part ["1,2,3"] is not exactly two integers, the
    decoder of the specification rejects it, and [getCoords] returns the
    pair read from its first two fields (here with the image at position
    (0, 0), hence (2, 3) in window coordinates). *)
Lemma getCoords_no_FormatError :
  Spec.decode "1,2,3" = None /\
  getCoords Examples.offset_page
    {| choice := 0; val := "1,2,3"; infinite := false; noofdrags := 0 |}
  = [point (2, 3)%Z].
Proof. split; reflexivity. Qed.

(** C6, as the code has it.  The decoding loop of [getCoords] raises
    nothing: it is a total function that returns one array per
    [";"]-separated part of a non-empty value.  On every value the decoder
    of the specification accepts it reads the same pairs; in a part with
    more than two fields the further fields are ignored; in a part with one
    field the second coordinate is [NaN]. *)
Theorem getCoords_lenient (d : Doc) (val : string) :
  (forall points, Spec.decode val = Some points ->
     coords_of_val d val = map (fun p => convertToWindowXY d (point p)) points) /\
  (val <> EmptyString ->
     List.length (coords_of_val d val) = List.length (Js.split ";" val)) /\
  (forall (x y : Z) (rest : string), Js.no_sep ";" rest ->
     coords_of_val d (Js.string_of_Z x ++ "," ++ Js.string_of_Z y ++ "," ++ rest)%string
     = [convertToWindowXY d (point (x, y))]) /\
  (forall x : Z,
     coords_of_val d (Js.string_of_Z x)
     = [[VNum (Fin (x + left (position (bgImage d)) + 1)); VNum NaN]]).
Proof.
  split; [|split; [|split]].
  - intros points. apply decode_window.
  - intros Hne. unfold coords_of_val.
    destruct (String.eqb_spec val ""); [congruence|]. apply length_map.
  - intros x y rest Hrest. unfold coords_of_val.
    set (s := (Js.string_of_Z x ++ "," ++ Js.string_of_Z y ++ "," ++ rest)%string).
    assert (Hs : Js.no_sep ";" s).
    { unfold Js.no_sep, s. rewrite !StringFacts.all_chars_app. cbn [Js.all_chars].
      rewrite (SplitFacts.string_of_Z_no_sep ";" x), (SplitFacts.string_of_Z_no_sep ";" y) by auto.
      cbn. exact Hrest. }
    destruct (String.eqb_spec s "") as [E|_].
    { exfalso. unfold s in E. destruct (Js.string_of_Z x); discriminate E. }
    rewrite (SplitFacts.split_no_sep ";" s Hs). cbn [map]. f_equal.
    unfold s.
    change (Js.string_of_Z x ++ "," ++ Js.string_of_Z y ++ "," ++ rest)%string
      with (Js.string_of_Z x ++ String "," (Js.string_of_Z y ++ String "," rest))%string.
    rewrite (SplitFacts.split_app_sep "," (Js.string_of_Z x))
      by (apply SplitFacts.string_of_Z_no_sep; auto).
    rewrite (SplitFacts.split_app_sep "," (Js.string_of_Z y))
      by (apply SplitFacts.string_of_Z_no_sep; auto).
    apply convertToWindowXY_strings; apply StringFacts.StringToNumber_string_of_Z.
  - intros x. unfold coords_of_val.
    destruct (String.eqb_spec (Js.string_of_Z x) "") as [E|_].
    { exfalso. pose proof (StringFacts.int_of_string_of_Z x) as H.
      rewrite E in H. discriminate H. }
    rewrite (SplitFacts.split_no_sep ";") by (apply SplitFacts.string_of_Z_no_sep; auto).
    cbn [map].
    rewrite (SplitFacts.split_no_sep ",") by (apply SplitFacts.string_of_Z_no_sep; auto).
    unfold convertToWindowXY, idx. cbn [map nth Js.Number].
    rewrite StringFacts.StringToNumber_string_of_Z. now rewrite !JsFacts.add_Fin.
Qed.

(* ================================================================== *)
(** ** The patterns *)

Module RegexFacts.

Lemma span_digits_spec s ds r :
  Js.span_digits s = (ds, r) ->
  s = (ds ++ r)%string /\ Js.all_chars Js.is_digit ds = true /\
  Js.starts_with_digit r = false.
Proof.
  revert ds r. induction s as [|c t IH]; intros ds r; cbn [Js.span_digits].
  - intros [= <- <-]. auto.
  - destruct (Js.is_digit c) eqn:Ec.
    + destruct (Js.span_digits t) as [d' r'] eqn:Et.
      intros [= <- <-]. destruct (IH d' r' eq_refl) as (-> & Hd & Hr).
      cbn [append Js.all_chars]. rewrite Ec. auto.
    + intros [= <- <-]. cbn [append Js.all_chars Js.starts_with_digit]. auto.
Qed.

Lemma span_digits_app ds rest :
  Js.all_chars Js.is_digit ds = true -> Js.starts_with_digit rest = false ->
  Js.span_digits (ds ++ rest) = (ds, rest).
Proof.
  intros Hd Hr.
  induction ds as [|c t IH]; cbn [append Js.span_digits Js.all_chars] in *.
  - destruct rest as [|c r]; [reflexivity|].
    cbn [Js.starts_with_digit Js.span_digits] in *. now rewrite Hr.
  - apply andb_true_iff in Hd as [Hc Ht]. now rewrite Hc, (IH Ht).
Qed.

Lemma digits1_spec s ds r :
  Js.digits1 s = Some (ds, r) ->
  s = (ds ++ r)%string /\ Js.is_digits ds /\ Js.starts_with_digit r = false.
Proof.
  unfold Js.digits1. destruct (Js.span_digits s) as [d' r'] eqn:E.
  destruct d' as [|c t]; [discriminate|]. intros [= <- <-].
  destruct (span_digits_spec _ _ _ E) as (-> & Hd & Hr).
  repeat split; try assumption. discriminate.
Qed.

Lemma digits1_app ds rest :
  Js.is_digits ds -> Js.starts_with_digit rest = false ->
  Js.digits1 (ds ++ rest) = Some (ds, rest).
Proof.
  intros [Hne Hd] Hr. unfold Js.digits1.
  rewrite (span_digits_app ds rest Hd Hr). destruct ds; [congruence|reflexivity].
Qed.

Lemma digits1_not_digit c t : Js.is_digit c = false -> Js.digits1 (String c t) = None.
Proof. intros H. unfold Js.digits1. cbn [Js.span_digits]. now rewrite H. Qed.

Lemma lit_spec c s r : Js.lit c s = Some r -> s = String c r.
Proof.
  destruct s as [|a t]; cbn; [discriminate|].
  destruct (Ascii.eqb_spec a c); [|discriminate]. now intros [= <-]; subst.
Qed.

Lemma lit_cons c r : Js.lit c (String c r) = Some r.
Proof. cbn. now rewrite Ascii.eqb_refl. Qed.

Lemma app_empty_r s : (s ++ "")%string = s.
Proof. induction s; cbn; congruence. Qed.

(** *** [^(\d+),(\d+)$] *)

Lemma match_point_spec s parts :
  Js.match_point s = Some parts ->
  exists a b, parts = [s; a; b] /\ s = (a ++ "," ++ b)%string /\
              Js.is_digits a /\ Js.is_digits b.
Proof.
  unfold Js.match_point.
  destruct (Js.digits1 s) as [[a r]|] eqn:E1; [|discriminate].
  destruct (Js.lit "," r) as [r1|] eqn:E2; [|discriminate].
  destruct (Js.digits1 r1) as [[b r2]|] eqn:E3; [|discriminate].
  destruct r2; [|discriminate]. intros [= <-].
  apply digits1_spec in E1 as (Hs & Ha & _).
  apply lit_spec in E2. apply digits1_spec in E3 as (Hr1 & Hb & _).
  rewrite app_empty_r in Hr1. subst r r1.
  exists a, b. split; [reflexivity|]. split; [exact Hs|]. split; assumption.
Qed.

Lemma match_point_intro a b :
  Js.is_digits a -> Js.is_digits b ->
  Js.match_point (a ++ "," ++ b) = Some [(a ++ "," ++ b)%string; a; b].
Proof.
  intros Ha Hb. unfold Js.match_point.
  change (a ++ "," ++ b)%string with (a ++ String "," b)%string.
  rewrite (digits1_app a (String "," b) Ha eq_refl), lit_cons.
  rewrite <- (app_empty_r b) at 1.
  now rewrite (digits1_app b "" Hb eq_refl).
Qed.

(** *** Searching *)

Lemma search_head {A} (f : string -> option A) s r :
  f s = Some r -> Js.search f s = Some r.
Proof. intros H. destruct s; cbn; now rewrite H. Qed.

Lemma search_skip {A} (f : string -> option A) pre s :
  (forall c t, Js.is_digit c = false -> f (String c t) = None) ->
  Js.all_chars (fun c => negb (Js.is_digit c)) pre = true ->
  Js.search f (pre ++ s) = Js.search f s.
Proof.
  intros Hf. induction pre as [|c t IH]; cbn [Js.all_chars append]; [reflexivity|].
  rewrite andb_true_iff, negb_true_iff. intros [Hc Ht].
  cbn [Js.search]. now rewrite (Hf c _ Hc), (IH Ht).
Qed.

Lemma search_spec {A} (f : string -> option A) s r :
  Js.search f s = Some r -> exists pre t, s = (pre ++ t)%string /\ f t = Some r.
Proof.
  induction s as [|c t IH]; cbn.
  - destruct (f "") eqn:E; [|discriminate]. intros [= <-]. now exists "", "".
  - destruct (f (String c t)) eqn:E.
    + intros [= <-]. now exists "", (String c t).
    + intros H. destruct (IH H) as (pre & t' & -> & Ht').
      now exists (String c pre), t'.
Qed.

(** *** [(\d+),(\d+);(\d+)] *)

Lemma circle_at_spec s parts :
  Js.circle_at s = Some parts ->
  exists a b c, parts = [(a ++ "," ++ b ++ ";" ++ c)%string; a; b; c] /\
                Js.is_digits a /\ Js.is_digits b /\ Js.is_digits c.
Proof.
  unfold Js.circle_at.
  destruct (Js.digits1 s) as [[a r]|] eqn:E1; [|discriminate].
  destruct (Js.lit "," r) as [r1|]; [|discriminate].
  destruct (Js.digits1 r1) as [[b r2]|] eqn:E3; [|discriminate].
  destruct (Js.lit ";" r2) as [r3|]; [|discriminate].
  destruct (Js.digits1 r3) as [[c r4]|] eqn:E5; [|discriminate].
  intros [= <-]. exists a, b, c.
  apply digits1_spec in E1 as (_ & Ha & _).
  apply digits1_spec in E3 as (_ & Hb & _).
  apply digits1_spec in E5 as (_ & Hc & _). auto.
Qed.

Lemma circle_at_intro a b c rest :
  Js.is_digits a -> Js.is_digits b -> Js.is_digits c ->
  Js.starts_with_digit rest = false ->
  Js.circle_at (a ++ "," ++ b ++ ";" ++ c ++ rest)
  = Some [(a ++ "," ++ b ++ ";" ++ c)%string; a; b; c].
Proof.
  intros Ha Hb Hc Hr. unfold Js.circle_at.
  change (a ++ "," ++ b ++ ";" ++ c ++ rest)%string
    with (a ++ String "," (b ++ String ";" (c ++ rest)))%string.
  rewrite (digits1_app a (String "," _) Ha eq_refl), lit_cons.
  rewrite (digits1_app b (String ";" _) Hb eq_refl), lit_cons.
  now rewrite (digits1_app c rest Hc Hr).
Qed.

Lemma circle_at_not_digit c t : Js.is_digit c = false -> Js.circle_at (String c t) = None.
Proof. intros H. unfold Js.circle_at. now rewrite digits1_not_digit. Qed.

Lemma match_circle_spec coords parts :
  Js.match_circle coords = Some parts ->
  exists a b c, parts = [(a ++ "," ++ b ++ ";" ++ c)%string; a; b; c] /\
                Js.is_digits a /\ Js.is_digits b /\ Js.is_digits c.
Proof.
  intros H. apply search_spec in H as (pre & t & _ & H).
  now apply circle_at_spec in H.
Qed.

(** *** [(\d+),(\d+);(\d+),(\d+)] *)

Lemma rectangle_at_spec s parts :
  Js.rectangle_at s = Some parts ->
  exists a b c e,
    parts = [(a ++ "," ++ b ++ ";" ++ c ++ "," ++ e)%string; a; b; c; e] /\
    Js.is_digits a /\ Js.is_digits b /\ Js.is_digits c /\ Js.is_digits e.
Proof.
  unfold Js.rectangle_at.
  destruct (Js.digits1 s) as [[a r]|] eqn:E1; [|discriminate].
  destruct (Js.lit "," r) as [r1|]; [|discriminate].
  destruct (Js.digits1 r1) as [[b r2]|] eqn:E3; [|discriminate].
  destruct (Js.lit ";" r2) as [r3|]; [|discriminate].
  destruct (Js.digits1 r3) as [[c r4]|] eqn:E5; [|discriminate].
  destruct (Js.lit "," r4) as [r5|]; [|discriminate].
  destruct (Js.digits1 r5) as [[e r6]|] eqn:E7; [|discriminate].
  intros [= <-]. exists a, b, c, e.
  apply digits1_spec in E1 as (_ & Ha & _).
  apply digits1_spec in E3 as (_ & Hb & _).
  apply digits1_spec in E5 as (_ & Hc & _).
  apply digits1_spec in E7 as (_ & He & _). auto.
Qed.

Lemma rectangle_at_intro a b c e rest :
  Js.is_digits a -> Js.is_digits b -> Js.is_digits c -> Js.is_digits e ->
  Js.starts_with_digit rest = false ->
  Js.rectangle_at (a ++ "," ++ b ++ ";" ++ c ++ "," ++ e ++ rest)
  = Some [(a ++ "," ++ b ++ ";" ++ c ++ "," ++ e)%string; a; b; c; e].
Proof.
  intros Ha Hb Hc He Hr. unfold Js.rectangle_at.
  change (a ++ "," ++ b ++ ";" ++ c ++ "," ++ e ++ rest)%string
    with (a ++ String "," (b ++ String ";" (c ++ String "," (e ++ rest))))%string.
  rewrite (digits1_app a (String "," _) Ha eq_refl), lit_cons.
  rewrite (digits1_app b (String ";" _) Hb eq_refl), lit_cons.
  rewrite (digits1_app c (String "," _) Hc eq_refl), lit_cons.
  now rewrite (digits1_app e rest He Hr).
Qed.

Lemma rectangle_at_not_digit c t :
  Js.is_digit c = false -> Js.rectangle_at (String c t) = None.
Proof. intros H. unfold Js.rectangle_at. now rewrite digits1_not_digit. Qed.

Lemma match_rectangle_spec coords parts :
  Js.match_rectangle coords = Some parts ->
  exists a b c e,
    parts = [(a ++ "," ++ b ++ ";" ++ c ++ "," ++ e)%string; a; b; c; e] /\
    Js.is_digits a /\ Js.is_digits b /\ Js.is_digits c /\ Js.is_digits e.
Proof.
  intros H. apply search_spec in H as (pre & t & _ & H).
  now apply rectangle_at_spec in H.
Qed.

(** *** The number a run of digits denotes *)

Lemma uint_of_digits s :
  Js.all_chars Js.is_digit s = true -> exists u, NilEmpty.uint_of_string s = Some u.
Proof.
  induction s as [|c t IH]; cbn; [now exists Decimal.Nil|].
  rewrite andb_true_iff. intros [Hc Ht]. destruct (IH Ht) as [u ->].
  destruct c as [[|] [|] [|] [|] [|] [|] [|] [|]];
    try (cbv in Hc; discriminate Hc); cbn; eauto.
Qed.

Lemma Number_digits s :
  Js.is_digits s -> exists z, (0 <= z)%Z /\ Js.StringToNumber s = Fin z.
Proof.
  intros [Hne Hd]. destruct (uint_of_digits s Hd) as [u Hu].
  exists (Z.of_uint u). split; [apply N2Z.is_nonneg|].
  apply (StringFacts.StringToNumber_int s (Decimal.Pos u)).
  destruct s as [|c t]; [congruence|].
  unfold NilZero.int_of_string.
  assert (Ascii.eqb c "-" = false) as ->.
  { cbn in Hd. apply andb_true_iff in Hd as [Hc _].
    destruct c as [[|] [|] [|] [|] [|] [|] [|] [|]];
      try reflexivity; cbv in Hc; discriminate Hc. }
  unfold NilZero.uint_of_string. now rewrite Hu.
Qed.

End RegexFacts.

(* ================================================================== *)
(** ** Polygons *)

Section Polygon.

Variable d : Doc.

Lemma coordsInBgImg_strings a b x y :
  Js.StringToNumber a = Fin x -> Js.StringToNumber b = Fin y ->
  coordsInBgImg d [VStr a; VStr b] = coordsInBgImg d (point (x, y)).
Proof.
  intros Ha Hb. unfold coordsInBgImg, point, num_of_Z, idx.
  cbn [nth fst snd Js.Number]. now rewrite Ha, Hb.
Qed.

Lemma vertex_in_image_iff a b :
  Js.is_digits a -> Js.is_digits b ->
  coordsInBgImg d [VStr a; VStr b] = true <-> Spec.vertex_in_image d a b.
Proof.
  intros Ha Hb.
  destruct (RegexFacts.Number_digits a Ha) as (x & _ & Hx).
  destruct (RegexFacts.Number_digits b Hb) as (y & _ & Hy).
  rewrite (coordsInBgImg_strings a b x y Hx Hy), coordsInBgImg_point.
  split.
  - intros H. now exists x, y.
  - intros (x' & y' & Hx' & Hy' & H).
    rewrite Hx in Hx'. rewrite Hy in Hy'.
    apply (f_equal (fun n => match n with Num q => Qnum q | NaN => 0%Z end)) in Hx', Hy'.
    cbn in Hx', Hy'. now subst.
Qed.

(** What one turn of the first loop does with a segment. *)
Lemma polygon_step_spec xy part :
  (exists a b, Spec.kept d part a b /\ polygon_step d xy part = xy ++ [[VStr a; VStr b]]) \/
  ((forall a b, ~ Spec.kept d part a b) /\ polygon_step d xy part = xy).
Proof.
  unfold polygon_step.
  destruct (Js.match_point part) as [parts|] eqn:E.
  - destruct (RegexFacts.match_point_spec _ _ E) as (a & b & -> & Hp & Ha & Hb).
    cbn [group nth_error].
    destruct (coordsInBgImg d [VStr a; VStr b]) eqn:Ein.
    + left. exists a, b. split; [|reflexivity].
      split; [now split|]. now apply vertex_in_image_iff.
    + right. split; [|reflexivity].
      intros a' b' [(Hp' & Ha' & Hb') Hin].
      pose proof (RegexFacts.match_point_intro a' b' Ha' Hb') as E'.
      rewrite <- Hp', E in E'. injection E' as <- <-.
      apply vertex_in_image_iff in Hin; congruence.
  - right. split; [|reflexivity].
    intros a b [(Hp & Ha & Hb) _].
    rewrite Hp, (RegexFacts.match_point_intro a b Ha Hb) in E. discriminate E.
Qed.

Lemma polygon_step_app xy part :
  polygon_step d xy part = xy ++ polygon_step d [] part.
Proof.
  unfold polygon_step. destruct (Js.match_point part) as [parts|].
  - destruct (coordsInBgImg d _); [reflexivity|now rewrite app_nil_r].
  - now rewrite app_nil_r.
Qed.

Lemma polygon_fold parts acc :
  fold_left (polygon_step d) parts acc
  = acc ++ flat_map (polygon_step d []) parts.
Proof.
  revert acc. induction parts as [|p r IH]; intros acc; cbn [fold_left flat_map].
  - now rewrite app_nil_r.
  - now rewrite IH, polygon_step_app, app_assoc.
Qed.

Lemma polygon_filtered parts :
  Spec.filtered d parts (flat_map (polygon_step d []) parts).
Proof.
  induction parts as [|p r IH]; cbn [flat_map]; [constructor|].
  destruct (polygon_step_spec [] p) as [(a & b & K & ->)|[K ->]].
  - now apply Spec.filtered_keep.
  - now apply Spec.filtered_drop.
Qed.

Lemma kept_functional part a b a' b' :
  Spec.kept d part a b -> Spec.kept d part a' b' -> a = a' /\ b = b'.
Proof.
  intros [(Hp & Ha & Hb) _] [(Hp' & Ha' & Hb') _].
  pose proof (RegexFacts.match_point_intro a b Ha Hb) as E.
  pose proof (RegexFacts.match_point_intro a' b' Ha' Hb') as E'.
  rewrite <- Hp in E. rewrite <- Hp' in E'. rewrite E in E'.
  now injection E'.
Qed.

Lemma filtered_functional parts xy xy' :
  Spec.filtered d parts xy -> Spec.filtered d parts xy' -> xy = xy'.
Proof.
  intros H. revert xy'.
  induction H as [|part a b parts xy K _ IH|part parts xy K _ IH];
    intros xy' H'; inversion H'; subst.
  - reflexivity.
  - match goal with K' : Spec.kept d part _ _ |- _ =>
      destruct (kept_functional _ _ _ _ _ K K') as [<- <-] end.
    f_equal. now apply IH.
  - exfalso. match goal with K' : forall a b, ~ _ |- _ => now apply (K' a b) end.
  - exfalso. match goal with K' : Spec.kept d part _ _ |- _ => now apply K in K' end.
  - now apply IH.
Qed.

Lemma filtered_values parts xy :
  Spec.filtered d parts xy ->
  exists pts : list (Z * Z),
    Forall2 Spec.vertex_value xy pts /\
    Forall (fun p => (0 < fst p <= width (bgImage d) /\
                      0 < snd p <= height (bgImage d))%Z) pts.
Proof.
  induction 1 as [|part a b parts xy K _ IH|part parts xy _ _ IH].
  - exists []. split; constructor.
  - destruct IH as (pts & Hv & Hb).
    destruct K as [_ (x & y & Hx & Hy & Hin)].
    exists ((x, y) :: pts). split; constructor; try assumption.
    now split.
  - exact IH.
Qed.

End Polygon.

(** ** The shapes array and the label anchor *)

Lemma array_get_set (a : Shapes) (i : nat) (v : Shape) :
  array_get (array_set a i v) i = Some v.
Proof.
  unfold array_get. revert a. induction i as [|k IH]; intros [|x r]; cbn; auto.
Qed.

Lemma fold_min_spec (l : list Z) (a : Z) :
  forall m, m = fold_left (fun acc x => Z.min x acc) l a ->
  (m <= a)%Z /\ Forall (fun x => (m <= x)%Z) l /\ (m = a \/ In m l).
Proof.
  revert a. induction l as [|x r IH]; intros a m ->; cbn [fold_left].
  - split; [lia|]. split; [constructor|now left].
  - destruct (IH (Z.min x a) _ eq_refl) as (Hle & Hall & Hin).
    split; [lia|]. split.
    + constructor; [lia|exact Hall].
    + destruct Hin as [E|Hin]; [|right; now right].
      destruct (Z.min_spec x a) as [[_ Em]|[_ Em]]; rewrite Em in *.
      * right. now left.
      * now left.
Qed.

Lemma fold_max_spec (l : list Z) (a : Z) :
  forall m, m = fold_left (fun acc x => Z.max x acc) l a ->
  (a <= m)%Z /\ Forall (fun x => (x <= m)%Z) l /\ (m = a \/ In m l).
Proof.
  revert a. induction l as [|x r IH]; intros a m ->; cbn [fold_left].
  - split; [lia|]. split; [constructor|now left].
  - destruct (IH (Z.max x a) _ eq_refl) as (Hle & Hall & Hin).
    split; [lia|]. split.
    + constructor; [lia|exact Hall].
    + destruct Hin as [E|Hin]; [|right; now right].
      destruct (Z.max_spec x a) as [[_ Em]|[_ Em]]; rewrite Em in *.
      * now left.
      * right. now left.
Qed.

Lemma fold_is_min (l : list Z) (a : Z) :
  l <> [] -> Forall (fun x => (x <= a)%Z) l ->
  Spec.is_min (fold_left (fun acc x => Z.min x acc) l a) l.
Proof.
  intros Hne Hall. destruct (fold_min_spec l a _ eq_refl) as (Hle & Hm & [E|Hin]).
  - split; [|exact Hm]. destruct l as [|x r]; [congruence|].
    inversion Hall; subst. inversion Hm; subst.
    assert (x = fold_left (fun acc x => Z.min x acc) (x :: r) a) as <- by lia.
    now left.
  - now split.
Qed.

Lemma fold_is_max (l : list Z) (a : Z) :
  l <> [] -> Forall (fun x => (a <= x)%Z) l ->
  Spec.is_max (fold_left (fun acc x => Z.max x acc) l a) l.
Proof.
  intros Hne Hall. destruct (fold_max_spec l a _ eq_refl) as (Hle & Hm & [E|Hin]).
  - split; [|exact Hm]. destruct l as [|x r]; [congruence|].
    inversion Hall; subst. inversion Hm; subst.
    assert (x = fold_left (fun acc x => Z.max x acc) (x :: r) a) as <- by lia.
    now left.
  - now split.
Qed.

Lemma minmax_fold (xy : list array) (pts : list (Z * Z)) (a b c e : Z) :
  Forall2 Spec.vertex_value xy pts ->
  fold_left minmax_step xy ((Fin a, Fin b), (Fin c, Fin e))
  = ((Fin (fold_left (fun acc x => Z.min x acc) (map fst pts) a),
      Fin (fold_left (fun acc x => Z.min x acc) (map snd pts) b)),
     (Fin (fold_left (fun acc x => Z.max x acc) (map fst pts) c),
      Fin (fold_left (fun acc x => Z.max x acc) (map snd pts) e))).
Proof.
  intros H. revert a b c e.
  induction H as [|v p xy pts [Hx Hy] _ IH]; intros a b c e; [reflexivity|].
  cbn [fold_left map]. unfold minmax_step at 2.
  rewrite Hx, Hy, !JsFacts.min_Fin, !JsFacts.max_Fin. apply IH.
Qed.

Lemma half_inject (a b : Z) :
  ((inject_Z a + inject_Z b) / inject_Z 2)%Q = (a + b # 2)%Q.
Proof.
  unfold inject_Z, Qdiv, Qmult, Qinv, Qplus; cbn. f_equal. lia.
Qed.

Lemma polygon_xy_filtered (d : Doc) (coords : string) :
  Spec.filtered d (Js.split ";" coords) (polygon_xy d coords).
Proof.
  unfold polygon_xy. rewrite polygon_fold. apply polygon_filtered.
Qed.

(** C4.  [addShape_polygon] splits the geometry string on [";"] and keeps,
    in order, exactly the segments that are [int,int] and lie within the
    image: the vertices [xy] it collects are the filtered sequence, and no
    other list is.  Nothing is raised for a dropped segment.  With fewer
    than three vertices left the handler returns [null] and registers
    nothing; on a 100x100 image ["10,10;200,10;50,90"] keeps (10,10) and
    (50,90) and is not drawn. *)
Theorem polygon_points_filtered (d : Doc) (coords : string) :
  Spec.filtered d (Js.split ";" coords) (polygon_xy d coords) /\
  (forall xy, Spec.filtered d (Js.split ";" coords) xy -> xy = polygon_xy d coords) /\
  (forall shapes dropzoneno colour,
      (List.length (polygon_xy d coords) < 3)%nat ->
      addShape_polygon d shapes dropzoneno coords colour = (shapes, None)) /\
  polygon_xy Examples.offset_page "10,10;200,10;50,90"
  = [[VStr "10"; VStr "10"]; [VStr "50"; VStr "90"]] /\
  addShape_polygon Examples.offset_page [] 0 "10,10;200,10;50,90" "#FFFFFF" = ([], None).
Proof.
  split; [apply polygon_xy_filtered|]. split; [|split; [|split]].
  - intros xy H. apply (filtered_functional d _ _ _ H (polygon_xy_filtered d coords)).
  - intros shapes dropzoneno colour Hlen. unfold addShape_polygon.
    destruct (Nat.ltb_spec 2 (List.length (polygon_xy d coords))); [lia|reflexivity].
  - reflexivity.
  - reflexivity.
Qed.

(** C9.  When [addShape_polygon] accepts a geometry string, the polygon it
    registers under the drop-zone number takes its [points] from the string
    as given, with [","] and [";"] replaced by spaces, whatever was
    filtered; the anchor it returns is the midpoint of the bounding box of
    the vertices that were kept, all of which lie within the image. *)
Theorem polygon_drawn_from_raw_string (d : Doc) (shapes : Shapes) (dropzoneno : nat)
    (coords colour : string) (shapes' : Shapes) (anchor : array) :
  addShape_polygon d shapes dropzoneno coords colour = (shapes', Some anchor) ->
  array_get shapes' dropzoneno
  = Some {| tag := "polygon";
            attrs := [("id", dz dropzoneno);
                      ("fill", colour); ("fill-opacity", "0.5");
                      ("stroke", "black"); ("stroke-width", "1");
                      ("points", Js.replace_comma_semicolon coords)] |} /\
  exists pts : list (Z * Z),
    Forall2 Spec.vertex_value (polygon_xy d coords) pts /\
    Forall (fun p => (0 < fst p <= width (bgImage d) /\
                      0 < snd p <= height (bgImage d))%Z) pts /\
    (3 <= List.length pts)%nat /\
    exists minx maxx miny maxy : Z,
      Spec.is_min minx (map fst pts) /\ Spec.is_max maxx (map fst pts) /\
      Spec.is_min miny (map snd pts) /\ Spec.is_max maxy (map snd pts) /\
      anchor = [VNum (Num (minx + maxx # 2)); VNum (Num (miny + maxy # 2))].
Proof.
  unfold addShape_polygon.
  destruct (Nat.ltb_spec 2 (List.length (polygon_xy d coords))) as [Hlen|_];
    [|discriminate].
  destruct (filtered_values d _ _ (polygon_xy_filtered d coords)) as (pts & Hv & Hb).
  rewrite (minmax_fold _ pts _ _ _ _ Hv). cbn [fst snd].
  intros [= <- <-]. split; [apply array_get_set|].
  exists pts. split; [exact Hv|]. split; [exact Hb|].
  assert (Hl : List.length pts = List.length (polygon_xy d coords))
    by (symmetry; eapply Forall2_length; eassumption).
  split; [lia|].
  assert (Hne : pts <> []) by (destruct pts; [cbn in Hl; lia|discriminate]).
  assert (Hnx : map fst pts <> []) by (destruct pts; [congruence|discriminate]).
  assert (Hny : map snd pts <> []) by (destruct pts; [congruence|discriminate]).
  eexists _, _, _, _.
  split; [|split; [|split; [|split]]]; [| | | |rewrite !half_inject; reflexivity].
  - apply fold_is_min; [exact Hnx|].
    apply Forall_map. eapply Forall_impl; [|exact Hb]. cbn. intros; lia.
  - apply fold_is_max; [exact Hnx|].
    apply Forall_map. eapply Forall_impl; [|exact Hb]. cbn. intros; lia.
  - apply fold_is_min; [exact Hny|].
    apply Forall_map. eapply Forall_impl; [|exact Hb]. cbn. intros; lia.
  - apply fold_is_max; [exact Hny|].
    apply Forall_map. eapply Forall_impl; [|exact Hb]. cbn. intros; lia.
Qed.

Lemma polygon_drawn_from_raw_string_witness :
  addShape_polygon Examples.offset_page [] 0 "10,10;200,10;50,90;21,20" "#FFFFFF"
  = ([Some {| tag := "polygon";
              attrs := [("id", "dz0"); ("fill", "#FFFFFF"); ("fill-opacity", "0.5");
                        ("stroke", "black"); ("stroke-width", "1");
                        ("points", "10 10 200 10 50 90 21 20")] |}],
     Some [VNum (Num (60 # 2)); VNum (Num (100 # 2))]) /\
  polygon_xy Examples.offset_page "10,10;200,10;50,90;21,20"
  = [[VStr "10"; VStr "10"]; [VStr "50"; VStr "90"]; [VStr "21"; VStr "20"]] /\
  (array_get
     [Some {| tag := "polygon";
              attrs := [("id", "dz0"); ("fill", "#FFFFFF"); ("fill-opacity", "0.5");
                        ("stroke", "black"); ("stroke-width", "1");
                        ("points", "10 10 200 10 50 90 21 20")] |}] 0
   = Some {| tag := "polygon";
             attrs := [("id", dz 0);
                       ("fill", "#FFFFFF"); ("fill-opacity", "0.5");
                       ("stroke", "black"); ("stroke-width", "1");
                       ("points", Js.replace_comma_semicolon "10,10;200,10;50,90;21,20")] |} /\
   exists pts : list (Z * Z),
     Forall2 Spec.vertex_value
       (polygon_xy Examples.offset_page "10,10;200,10;50,90;21,20") pts /\
     Forall (fun p => (0 < fst p <= width (bgImage Examples.offset_page) /\
                       0 < snd p <= height (bgImage Examples.offset_page))%Z) pts /\
     (3 <= List.length pts)%nat /\
     exists minx maxx miny maxy : Z,
       Spec.is_min minx (map fst pts) /\ Spec.is_max maxx (map fst pts) /\
       Spec.is_min miny (map snd pts) /\ Spec.is_max maxy (map snd pts) /\
       [VNum (Num (60 # 2)); VNum (Num (100 # 2))]
       = [VNum (Num (minx + maxx # 2)); VNum (Num (miny + maxy # 2))]).
Proof.
  split; [reflexivity|]. split; [reflexivity|].
  apply (polygon_drawn_from_raw_string Examples.offset_page [] 0
           "10,10;200,10;50,90;21,20" "#FFFFFF").
  reflexivity.
Defined.

(* ================================================================== *)
(** ** Circles and rectangles *)

Section Handlers.

Variable d : Doc.
Variable shapes : Shapes.
Variable dropzoneno : nat.
Variable colour : string.

Lemma addShape_circle_null coords :
  snd (addShape_circle d shapes dropzoneno coords colour) = None ->
  fst (addShape_circle d shapes dropzoneno coords colour) = shapes.
Proof.
  unfold addShape_circle.
  destruct (Js.match_circle coords) as [parts|]; [|reflexivity].
  destruct (List.length parts =? 4)%nat; [|reflexivity].
  destruct (coordsInBgImg d _); [discriminate|reflexivity].
Qed.

Lemma addShape_rectangle_null coords :
  snd (addShape_rectangle d shapes dropzoneno coords colour) = None ->
  fst (addShape_rectangle d shapes dropzoneno coords colour) = shapes.
Proof.
  unfold addShape_rectangle.
  destruct (Js.match_rectangle coords) as [parts|]; [|reflexivity].
  destruct (List.length parts =? 5)%nat; [|reflexivity].
  destruct (coordsInBgImg d _); [discriminate|reflexivity].
Qed.

Lemma addShape_polygon_null coords :
  snd (addShape_polygon d shapes dropzoneno coords colour) = None ->
  fst (addShape_polygon d shapes dropzoneno coords colour) = shapes.
Proof.
  unfold addShape_polygon.
  destruct (2 <? List.length (polygon_xy d coords))%nat; [|reflexivity].
  destruct (fold_left minmax_step _ _) as [minxy maxxy]. discriminate.
Qed.

Lemma drawShape_null shape coords :
  snd (drawShape d shapes dropzoneno shape coords colour) = None ->
  fst (drawShape d shapes dropzoneno shape coords colour) = shapes.
Proof.
  unfold drawShape.
  destruct (String.eqb shape "circle"); [apply addShape_circle_null|].
  destruct (String.eqb shape "rectangle"); [apply addShape_rectangle_null|].
  destruct (String.eqb shape "polygon"); [apply addShape_polygon_null|].
  reflexivity.
Qed.

(** Text around the pattern is ignored. *)
Lemma match_circle_embedded pre a b c rest :
  Js.all_chars (fun ch => negb (Js.is_digit ch)) pre = true ->
  Js.is_digits a -> Js.is_digits b -> Js.is_digits c ->
  Js.starts_with_digit rest = false ->
  Js.match_circle (pre ++ (a ++ "," ++ b ++ ";" ++ c ++ rest))
  = Some [(a ++ "," ++ b ++ ";" ++ c)%string; a; b; c].
Proof.
  intros Hpre Ha Hb Hc Hrest. unfold Js.match_circle.
  rewrite (RegexFacts.search_skip _ pre _ RegexFacts.circle_at_not_digit Hpre).
  apply RegexFacts.search_head. now apply RegexFacts.circle_at_intro.
Qed.

Lemma match_rectangle_embedded pre a b c e rest :
  Js.all_chars (fun ch => negb (Js.is_digit ch)) pre = true ->
  Js.is_digits a -> Js.is_digits b -> Js.is_digits c -> Js.is_digits e ->
  Js.starts_with_digit rest = false ->
  Js.match_rectangle (pre ++ (a ++ "," ++ b ++ ";" ++ c ++ "," ++ e ++ rest))
  = Some [(a ++ "," ++ b ++ ";" ++ c ++ "," ++ e)%string; a; b; c; e].
Proof.
  intros Hpre Ha Hb Hc He Hrest. unfold Js.match_rectangle.
  rewrite (RegexFacts.search_skip _ pre _ RegexFacts.rectangle_at_not_digit Hpre).
  apply RegexFacts.search_head. now apply RegexFacts.rectangle_at_intro.
Qed.

End Handlers.

Lemma match_circle_exact a b c :
  Js.is_digits a -> Js.is_digits b -> Js.is_digits c ->
  Js.match_circle (a ++ "," ++ b ++ ";" ++ c)
  = Some [(a ++ "," ++ b ++ ";" ++ c)%string; a; b; c].
Proof.
  intros Ha Hb Hc.
  rewrite <- (RegexFacts.app_empty_r c) at 1.
  apply (match_circle_embedded "" a b c ""); auto.
Qed.

Lemma match_rectangle_exact a b c e :
  Js.is_digits a -> Js.is_digits b -> Js.is_digits c -> Js.is_digits e ->
  Js.match_rectangle (a ++ "," ++ b ++ ";" ++ c ++ "," ++ e)
  = Some [(a ++ "," ++ b ++ ";" ++ c ++ "," ++ e)%string; a; b; c; e].
Proof.
  intros Ha Hb Hc He.
  rewrite <- (RegexFacts.app_empty_r e) at 1.
  apply (match_rectangle_embedded "" a b c e ""); auto.
Qed.

(** C10.  The patterns of the circle and rectangle handlers are not
    anchored: text before the pattern that holds no digit and text after it
    that does not start with a digit are ignored, and the handler does with
    such a string what it does with the documented form inside it.  The
    rectangle string ["10,10;5,7"] handed to the circle handler is read as
    the circle of centre (10,10) and radius 5; trailing letters are dropped
    by both handlers. *)
Theorem parsers_match_unanchored :
  (forall d shapes dropzoneno colour pre a b c rest,
      Js.all_chars (fun ch => negb (Js.is_digit ch)) pre = true ->
      Js.is_digits a -> Js.is_digits b -> Js.is_digits c ->
      Js.starts_with_digit rest = false ->
      Js.match_circle (pre ++ (a ++ "," ++ b ++ ";" ++ c ++ rest))
      = Some [(a ++ "," ++ b ++ ";" ++ c)%string; a; b; c] /\
      addShape_circle d shapes dropzoneno
        (pre ++ (a ++ "," ++ b ++ ";" ++ c ++ rest)) colour
      = addShape_circle d shapes dropzoneno (a ++ "," ++ b ++ ";" ++ c) colour) /\
  (forall d shapes dropzoneno colour pre a b c e rest,
      Js.all_chars (fun ch => negb (Js.is_digit ch)) pre = true ->
      Js.is_digits a -> Js.is_digits b -> Js.is_digits c -> Js.is_digits e ->
      Js.starts_with_digit rest = false ->
      Js.match_rectangle (pre ++ (a ++ "," ++ b ++ ";" ++ c ++ "," ++ e ++ rest))
      = Some [(a ++ "," ++ b ++ ";" ++ c ++ "," ++ e)%string; a; b; c; e] /\
      addShape_rectangle d shapes dropzoneno
        (pre ++ (a ++ "," ++ b ++ ";" ++ c ++ "," ++ e ++ rest)) colour
      = addShape_rectangle d shapes dropzoneno
          (a ++ "," ++ b ++ ";" ++ c ++ "," ++ e) colour) /\
  Js.match_circle "10,10;5,7" = Some ["10,10;5"; "10"; "10"; "5"] /\
  Js.match_circle "1,2;3 and 4,5;6" = Some ["1,2;3"; "1"; "2"; "3"] /\
  addShape_circle Examples.offset_page [] 0 "10,10;5,7" "#FFFFFF"
  = ([Some {| tag := "circle";
              attrs := [("id", "dz0"); ("cx", "10"); ("cy", "10"); ("r", "5");
                        ("fill", "#FFFFFF"); ("fill-opacity", "0.5");
                        ("stroke", "black"); ("stroke-width", "1")] |}],
     Some (point (10, 10)%Z)) /\
  snd (addShape_circle Examples.offset_page [] 0 "50,50;20abc" "#FFFFFF")
  = Some (point (50, 50)%Z) /\
  fst (addShape_rectangle Examples.offset_page [] 0 "at 10,10;6,8 px" "#FFFFFF")
  = [Some {| tag := "rect";
             attrs := [("id", "dz0"); ("width", "6"); ("height", "8");
                       ("x", "10"); ("y", "10");
                       ("fill", "#FFFFFF"); ("fill-opacity", "0.5");
                       ("stroke", "black"); ("stroke-width", "1")] |}].
Proof.
  split; [|split; [|repeat split]]; try reflexivity.
  - intros d shapes dropzoneno colour pre a b c rest Hpre Ha Hb Hc Hrest.
    pose proof (match_circle_embedded pre a b c rest Hpre Ha Hb Hc Hrest) as E.
    split; [exact E|].
    unfold addShape_circle. now rewrite E, (match_circle_exact a b c Ha Hb Hc).
  - intros d shapes dropzoneno colour pre a b c e rest Hpre Ha Hb Hc He Hrest.
    pose proof (match_rectangle_embedded pre a b c e rest Hpre Ha Hb Hc He Hrest) as E.
    split; [exact E|].
    unfold addShape_rectangle. now rewrite E, (match_rectangle_exact a b c e Ha Hb Hc He).
Qed.

(** C3 as stated fails.  On a 100x100 image the polygon
    ["10,10;200,10;50,90;21,20"] is accepted and registered with all four
    vertices in its [points], although (200,10) is outside the image. *)
Lemma polygon_accepted_with_vertex_outside :
  addShape_polygon Examples.offset_page [] 0 "10,10;200,10;50,90;21,20" "#FFFFFF"
  = ([Some {| tag := "polygon";
              attrs := [("id", "dz0"); ("fill", "#FFFFFF"); ("fill-opacity", "0.5");
                        ("stroke", "black"); ("stroke-width", "1");
                        ("points", "10 10 200 10 50 90 21 20")] |}],
     Some [VNum (Num (60 # 2)); VNum (Num (100 # 2))]) /\
  coordsInBgImg Examples.offset_page (point (200, 10)%Z) = false.
Proof. split; reflexivity. Qed.

(** The circle of centre (90,90) and radius 50 on the same image: only the
    corner (40,40) of its bounding box is checked, and the circle, which
    reaches x = 140, is registered. *)
Lemma circle_far_side_unchecked :
  addShape_circle Examples.offset_page [] 0 "90,90;50" "#FFFFFF"
  = ([Some {| tag := "circle";
              attrs := [("id", "dz0"); ("cx", "90"); ("cy", "90"); ("r", "50");
                        ("fill", "#FFFFFF"); ("fill-opacity", "0.5");
                        ("stroke", "black"); ("stroke-width", "1")] |}],
     Some (point (90, 90)%Z)) /\
  coordsInBgImg Examples.offset_page (point (90 - 50, 90 - 50)%Z) = true /\
  coordsInBgImg Examples.offset_page (point (90 + 50, 90)%Z) = false.
Proof. repeat split; reflexivity. Qed.

(** What the rectangle handler does once the pattern has matched: the
    numbers are those of the groups, and only the far corner is looked
    at. *)
Lemma addShape_rectangle_parsed (d : Doc) (shapes : Shapes) (dropzoneno : nat)
    (coords colour m a b c e : string) (x y w h : Z) :
  Js.match_rectangle coords = Some [m; a; b; c; e] ->
  Js.StringToNumber a = Fin x -> Js.StringToNumber b = Fin y ->
  Js.StringToNumber c = Fin w -> Js.StringToNumber e = Fin h ->
  addShape_rectangle d shapes dropzoneno coords colour
  = if coordsInBgImg d (point (x + w, y + h)%Z)
    then (array_set shapes dropzoneno
            {| tag := "rect";
               attrs := [("id", dz dropzoneno);
                         ("width", Js.string_of_Z w); ("height", Js.string_of_Z h);
                         ("x", Js.string_of_Z x); ("y", Js.string_of_Z y);
                         ("fill", colour); ("fill-opacity", "0.5");
                         ("stroke", "black"); ("stroke-width", "1")] |},
          Some [VNum (Js.add (Fin x) (Js.div (Fin w) (Fin 2)));
                VNum (Js.add (Fin y) (Js.div (Fin h) (Fin 2)))])
    else (shapes, None).
Proof.
  intros E Ha Hb Hc He. unfold addShape_rectangle. rewrite E.
  cbn [List.length Nat.eqb group nth_error Js.Number].
  rewrite Ha, Hb, Hc, He, !JsFacts.add_Fin, !StringFacts.number_toString_Fin.
  reflexivity.
Qed.

(** The same for the circle handler and the corner [(cx - r, cy - r)]. *)
Lemma addShape_circle_parsed (d : Doc) (shapes : Shapes) (dropzoneno : nat)
    (coords colour m a b c : string) (cx cy r : Z) :
  Js.match_circle coords = Some [m; a; b; c] ->
  Js.StringToNumber a = Fin cx -> Js.StringToNumber b = Fin cy ->
  Js.StringToNumber c = Fin r ->
  addShape_circle d shapes dropzoneno coords colour
  = if coordsInBgImg d (point (cx - r, cy - r)%Z)
    then (array_set shapes dropzoneno
            {| tag := "circle";
               attrs := [("id", dz dropzoneno);
                         ("cx", Js.string_of_Z cx); ("cy", Js.string_of_Z cy);
                         ("r", Js.string_of_Z r);
                         ("fill", colour); ("fill-opacity", "0.5");
                         ("stroke", "black"); ("stroke-width", "1")] |},
          Some (point (cx, cy)))
    else (shapes, None).
Proof.
  intros E Ha Hb Hc. unfold addShape_circle. rewrite E.
  cbn [List.length Nat.eqb group nth_error Js.Number].
  rewrite Ha, Hb, Hc, !JsFacts.sub_Fin, !StringFacts.number_toString_Fin.
  reflexivity.
Qed.

Lemma coordsInBgImg_point_false (d : Doc) (x y : Z) :
  ~ (0 < x <= width (bgImage d) /\ 0 < y <= height (bgImage d))%Z ->
  coordsInBgImg d (point (x, y)) = false.
Proof.
  intros Hn. destruct (coordsInBgImg d (point (x, y))) eqn:E; [|reflexivity].
  apply coordsInBgImg_point in E. contradiction.
Qed.

(** C3, as the code has it.  A handler that returns [null] leaves the
    shapes array as it was.  The rectangle handler reads [x], [y], [w]
    and [h] from the four groups of the first match of its pattern in the
    string; it registers the rectangle with exactly these numbers when the
    far corner [(x + w, y + h)] lies within the image, so that the whole
    rectangle does, and returns [null] otherwise and when nothing matches.
    The circle handler reads [cx], [cy] and [r] likewise and registers
    the circle with exactly these numbers when the corner
    [(cx - r, cy - r)] of its bounding box lies within the image, and
    returns [null] otherwise.  The polygon handler keeps the vertices that
    lie within the image; it returns [null] with fewer than three of them
    and otherwise registers the polygon with every vertex of the string
    among its points, those outside the image too. *)
Theorem shape_handlers_bounds (d : Doc) (shapes : Shapes) (dropzoneno : nat)
    (coords colour : string) :
  (forall shape,
      snd (drawShape d shapes dropzoneno shape coords colour) = None ->
      fst (drawShape d shapes dropzoneno shape coords colour) = shapes) /\
  (Js.match_rectangle coords = None ->
   addShape_rectangle d shapes dropzoneno coords colour = (shapes, None)) /\
  (forall parts, Js.match_rectangle coords = Some parts ->
     exists (a b c e : string) (x y w h : Z),
       parts = [(a ++ "," ++ b ++ ";" ++ c ++ "," ++ e)%string; a; b; c; e] /\
       Js.StringToNumber a = Fin x /\ Js.StringToNumber b = Fin y /\
       Js.StringToNumber c = Fin w /\ Js.StringToNumber e = Fin h /\
       (0 <= x /\ 0 <= y /\ 0 <= w /\ 0 <= h)%Z /\
       ((0 < x + w <= width (bgImage d) /\ 0 < y + h <= height (bgImage d))%Z ->
        addShape_rectangle d shapes dropzoneno coords colour
        = (array_set shapes dropzoneno
             {| tag := "rect";
                attrs := [("id", dz dropzoneno);
                          ("width", Js.string_of_Z w); ("height", Js.string_of_Z h);
                          ("x", Js.string_of_Z x); ("y", Js.string_of_Z y);
                          ("fill", colour); ("fill-opacity", "0.5");
                          ("stroke", "black"); ("stroke-width", "1")] |},
           Some [VNum (Js.add (Fin x) (Js.div (Fin w) (Fin 2)));
                 VNum (Js.add (Fin y) (Js.div (Fin h) (Fin 2)))])) /\
       (~ (0 < x + w <= width (bgImage d) /\ 0 < y + h <= height (bgImage d))%Z ->
        addShape_rectangle d shapes dropzoneno coords colour = (shapes, None))) /\
  (Js.match_circle coords = None ->
   addShape_circle d shapes dropzoneno coords colour = (shapes, None)) /\
  (forall parts, Js.match_circle coords = Some parts ->
     exists (a b c : string) (cx cy r : Z),
       parts = [(a ++ "," ++ b ++ ";" ++ c)%string; a; b; c] /\
       Js.StringToNumber a = Fin cx /\ Js.StringToNumber b = Fin cy /\
       Js.StringToNumber c = Fin r /\
       (0 <= cx /\ 0 <= cy /\ 0 <= r)%Z /\
       ((0 < cx - r <= width (bgImage d) /\ 0 < cy - r <= height (bgImage d))%Z ->
        addShape_circle d shapes dropzoneno coords colour
        = (array_set shapes dropzoneno
             {| tag := "circle";
                attrs := [("id", dz dropzoneno);
                          ("cx", Js.string_of_Z cx); ("cy", Js.string_of_Z cy);
                          ("r", Js.string_of_Z r);
                          ("fill", colour); ("fill-opacity", "0.5");
                          ("stroke", "black"); ("stroke-width", "1")] |},
           Some (point (cx, cy)))) /\
       (~ (0 < cx - r <= width (bgImage d) /\ 0 < cy - r <= height (bgImage d))%Z ->
        addShape_circle d shapes dropzoneno coords colour = (shapes, None))) /\
  (exists (xy : list array) (pts : list (Z * Z)),
     Spec.filtered d (Js.split ";" coords) xy /\
     Forall2 Spec.vertex_value xy pts /\
     Forall (fun p => (0 < fst p <= width (bgImage d) /\
                       0 < snd p <= height (bgImage d))%Z) pts /\
     ((List.length pts < 3)%nat ->
      addShape_polygon d shapes dropzoneno coords colour = (shapes, None)) /\
     ((3 <= List.length pts)%nat ->
      exists anchor : array,
        addShape_polygon d shapes dropzoneno coords colour
        = (array_set shapes dropzoneno
             {| tag := "polygon";
                attrs := [("id", dz dropzoneno);
                          ("fill", colour); ("fill-opacity", "0.5");
                          ("stroke", "black"); ("stroke-width", "1");
                          ("points", Js.replace_comma_semicolon coords)] |},
           Some anchor))).
Proof.
  split; [intros shape; apply drawShape_null|].
  split; [intros E; unfold addShape_rectangle; now rewrite E|].
  split.
  { intros parts E.
    destruct (RegexFacts.match_rectangle_spec _ _ E)
      as (a & b & c & e & -> & Ha & Hb & Hc & He).
    destruct (RegexFacts.Number_digits a Ha) as (x & Hx & Hax).
    destruct (RegexFacts.Number_digits b Hb) as (y & Hy & Hby).
    destruct (RegexFacts.Number_digits c Hc) as (w & Hw & Hcw).
    destruct (RegexFacts.Number_digits e He) as (h & Hh & Heh).
    exists a, b, c, e, x, y, w, h.
    split; [reflexivity|]. do 4 (split; [assumption|]). split; [lia|].
    rewrite (addShape_rectangle_parsed d shapes dropzoneno coords colour _ a b c e
               x y w h E Hax Hby Hcw Heh).
    split; intros Hin.
    - now rewrite (proj2 (coordsInBgImg_point d _ _) Hin).
    - now rewrite (coordsInBgImg_point_false d _ _ Hin). }
  split; [intros E; unfold addShape_circle; now rewrite E|].
  split.
  { intros parts E.
    destruct (RegexFacts.match_circle_spec _ _ E) as (a & b & c & -> & Ha & Hb & Hc).
    destruct (RegexFacts.Number_digits a Ha) as (cx & Hx & Hax).
    destruct (RegexFacts.Number_digits b Hb) as (cy & Hy & Hby).
    destruct (RegexFacts.Number_digits c Hc) as (r & Hr & Hcr).
    exists a, b, c, cx, cy, r.
    split; [reflexivity|]. do 3 (split; [assumption|]). split; [lia|].
    rewrite (addShape_circle_parsed d shapes dropzoneno coords colour _ a b c
               cx cy r E Hax Hby Hcr).
    split; intros Hin.
    - now rewrite (proj2 (coordsInBgImg_point d _ _) Hin).
    - now rewrite (coordsInBgImg_point_false d _ _ Hin). }
  destruct (filtered_values d _ _ (polygon_xy_filtered d coords)) as (pts & Hv & Hb).
  exists (polygon_xy d coords), pts.
  split; [apply polygon_xy_filtered|]. split; [exact Hv|]. split; [exact Hb|].
  rewrite <- (Forall2_length Hv). unfold addShape_polygon.
  split; intros Hlen.
  - destruct (Nat.ltb_spec 2 (List.length (polygon_xy d coords))); [lia|reflexivity].
  - destruct (Nat.ltb_spec 2 (List.length (polygon_xy d coords))); [|lia].
    destruct (fold_left minmax_step _ _) as [[a b] [c e]].
    eexists. reflexivity.
Qed.

(* ================================================================== *)
(** ** Markers by index *)

Module ListFacts.

Lemma Permutation_filter {A} (f : A -> bool) (l l' : list A) :
  Permutation l l' -> Permutation (filter f l) (filter f l').
Proof.
  induction 1 as [|x l l' _ IH|x y l|l l' l'' _ IH1 _ IH2]; cbn.
  - constructor.
  - destruct (f x); [now constructor|exact IH].
  - destruct (f x), (f y); try reflexivity. apply perm_swap.
  - now transitivity (filter f l').
Qed.

Lemma filter_flat_map {A B} (f : B -> bool) (g : A -> list B) (l : list A) :
  filter f (flat_map g l) = flat_map (fun a => filter f (g a)) l.
Proof.
  induction l as [|a r IH]; cbn; [reflexivity|]. now rewrite filter_app, IH.
Qed.

Lemma StronglySorted_app {A} (R : A -> A -> Prop) (l1 l2 : list A) :
  StronglySorted R l1 -> StronglySorted R l2 ->
  (forall x y, In x l1 -> In y l2 -> R x y) ->
  StronglySorted R (l1 ++ l2).
Proof.
  intros H1 H2 H12. induction H1 as [|x l1 Hs IH Hx]; cbn; [exact H2|].
  constructor.
  - apply IH. intros a b Ha Hb. apply H12; [now right|exact Hb].
  - apply Forall_app. split; [exact Hx|].
    apply Forall_forall. intros y Hy. apply H12; [now left|exact Hy].
Qed.

Section Buckets.

Context {A : Type} (key : A -> nat).

Lemma bucket_singleton l i :
  NoDup (map key l) -> bucket key l i = [] \/ exists e, bucket key l i = [e].
Proof.
  induction l as [|x r IH]; cbn; [now left|].
  intros Hnd. apply NoDup_cons_iff in Hnd as [Hx Hr].
  destruct (Nat.eqb_spec (key x) i) as [E|_]; [|now apply IH].
  right. exists x. f_equal.
  destruct (bucket key r i) as [|y t] eqn:Eb; [exact Eb|]. exfalso. apply Hx.
  assert (Hy : In y (bucket key r i)) by (rewrite Eb; now left).
  apply filter_In in Hy as [Hy Hk]. apply Nat.eqb_eq in Hk.
  rewrite E, <- Hk. now apply in_map.
Qed.

Lemma flat_map_insert (e : A) (g : nat -> list A) (ixs : list nat) :
  NoDup ixs ->
  (In (key e) ixs ->
   Permutation (flat_map (fun i => if (key e =? i)%nat then e :: g i else g i) ixs)
               (e :: flat_map g ixs)) /\
  (~ In (key e) ixs ->
   flat_map (fun i => if (key e =? i)%nat then e :: g i else g i) ixs
   = flat_map g ixs).
Proof.
  induction 1 as [|i ixs Hi Hnd [IH1 IH2]]; cbn [flat_map].
  - split; [intros []|reflexivity].
  - destruct (Nat.eqb_spec (key e) i) as [E|E].
    + split.
      * intros _. rewrite IH2 by (now rewrite E). reflexivity.
      * intros Hn. exfalso. apply Hn. now left.
    + split.
      * intros [Hin|Hin]; [congruence|].
        rewrite (IH1 Hin). symmetry. apply Permutation_middle.
      * intros Hn. f_equal. apply IH2. intros Hin. apply Hn. now right.
Qed.

Lemma buckets_permutation l m :
  Forall (fun e => (key e < m)%nat) l ->
  Permutation (flat_map (bucket key l) (seq 0 m)) l.
Proof.
  induction 1 as [|e r He _ IH]; cbn [filter].
  - clear. induction (seq 0 m); cbn; auto.
  - destruct (flat_map_insert e (bucket key r) (seq 0 m) (seq_NoDup m 0)) as [H1 _].
    unfold bucket in *. cbn [filter].
    etransitivity; [|apply perm_skip, IH].
    rewrite <- H1 by (apply in_seq; lia).
    apply Permutation_refl'. apply flat_map_ext. intros i.
    now destruct (key e =? i)%nat.
Qed.

Lemma buckets_sorted (keep : A -> bool) l a k :
  NoDup (map key l) ->
  StronglySorted (fun x y => (key x < key y)%nat)
                 (flat_map (fun i => filter keep (bucket key l i)) (seq a k)) /\
  Forall (fun e => (a <= key e)%nat)
         (flat_map (fun i => filter keep (bucket key l i)) (seq a k)).
Proof.
  intros Hnd. revert a. induction k as [|k IH]; intros a; cbn [seq flat_map].
  - split; constructor.
  - destruct (IH (S a)) as [Hs Hge].
    assert (Hkey : Forall (fun e => key e = a) (filter keep (bucket key l a))).
    { apply Forall_forall. intros e He. apply filter_In in He as [He _].
      apply filter_In in He as [_ He]. now apply Nat.eqb_eq in He. }
    split.
    + apply StronglySorted_app; [|exact Hs|].
      * destruct (bucket_singleton l a Hnd) as [->|[e ->]]; cbn; [constructor|].
        destruct (keep e); repeat constructor.
      * intros x y Hx Hy.
        rewrite Forall_forall in Hkey, Hge.
        rewrite (Hkey x Hx). apply (Hge y Hy).
    + apply Forall_app. split.
      * eapply Forall_impl; [|exact Hkey]. cbn. intros; lia.
      * eapply Forall_impl; [|exact Hge]. cbn. intros; lia.
Qed.

Lemma buckets_existsb (p : A -> bool) l m :
  Forall (fun e => (key e < m)%nat) l ->
  existsb (fun i => existsb p (bucket key l i)) (seq 0 m) = existsb p l.
Proof.
  intros Hall. apply eq_true_iff_eq. rewrite !existsb_exists. split.
  - intros (i & _ & Hi). apply existsb_exists in Hi as (e & He & Hp).
    apply filter_In in He as [He _]. now exists e.
  - intros (e & He & Hp). exists (key e). split.
    + apply in_seq. rewrite Forall_forall in Hall. specialize (Hall e He). lia.
    + apply existsb_exists. exists e. split; [|exact Hp].
      apply filter_In. split; [exact He|apply Nat.eqb_refl].
Qed.

End Buckets.

End ListFacts.

(* ================================================================== *)
(** ** Saving the placements of a choice *)

Section SavePlacement.

Variable d : Doc.
Variable choiceNo : nat.
Variable dr : DragItem.
Variable others : list DragItem.

Let items := dragItemsForChoice d choiceNo.
Let bgxy (e : DragItem) : array := convertToBgImgXY d (offset_array e).
Let keep (e : DragItem) : bool := negb (beingdragged e) && coordsInBgImg d (bgxy e).
Let same_text (e : DragItem) : bool := String.eqb (innerText dr) (innerText e).

Lemma saveCoords_step_spec (acc : list array) (am : bool) (i : nat) :
  NoDup (map itemno items) ->
  saveCoords_step d choiceNo (Some (dr :: others)) (acc, am) i
  = (acc ++ map bgxy (filter keep (bucket itemno items i)),
     am && negb (existsb same_text (bucket itemno items i))).
Proof.
  intros Hnd. unfold saveCoords_step, dragItemForChoice. fold items.
  destruct (ListFacts.bucket_singleton itemno items i Hnd) as [->|[e ->]].
  - cbn [filter map existsb negb]. now rewrite app_nil_r, andb_true_r.
  - cbn [hasClass_beingdragged existsb filter]. rewrite !orb_false_r.
    fold (bgxy e). fold (same_text e). unfold keep.
    destruct (beingdragged e); cbn [negb andb map].
    + rewrite app_nil_r. now destruct (same_text e); rewrite ?andb_false_r, ?andb_true_r.
    + destruct (coordsInBgImg d (bgxy e)); cbn [map]; rewrite ?app_nil_r;
        now destruct (same_text e); rewrite ?andb_false_r, ?andb_true_r.
Qed.

Lemma saveCoords_fold (ixs : list nat) (acc : list array) (am : bool) :
  NoDup (map itemno items) ->
  fold_left (saveCoords_step d choiceNo (Some (dr :: others))) ixs (acc, am)
  = (acc ++ map bgxy (flat_map (fun i => filter keep (bucket itemno items i)) ixs),
     am && negb (existsb (fun i => existsb same_text (bucket itemno items i)) ixs)).
Proof.
  intros Hnd. revert acc am.
  induction ixs as [|i r IH]; intros acc am; cbn [fold_left flat_map existsb map].
  - now rewrite app_nil_r, andb_true_r.
  - rewrite (saveCoords_step_spec acc am i Hnd), IH.
    rewrite map_app, app_assoc, negb_orb, andb_assoc. reflexivity.
Qed.

End SavePlacement.

(** C1.  The scan of [saveCoordsForChoice] reads one marker for each
    number, and a redraw made while a marker is being dragged gives its
    number to a second marker.  The spare of an unlimited choice, number 1,
    is being dragged over a 100x100 image on which marker 0 is placed at
    (70, 20); a redraw puts a new spare with number 1 at the home.  The
    marker is then dropped at image-relative (44, 45), within the image
    and no longer being dragged.  The scan reads, for number 1, the new
    spare at the home, and the value written is ["70,20"]: the dropped
    marker is not saved, and the redraw that ends the drag sends it to
    the home.  The same drop without the redraw in between is saved as
    ["70,20;44,45"]. *)
Theorem saveCoordsForChoice_loses_dropped :
  map (fun e => (itemno e, beingdragged e, drag_offset e))
      (dragItemsForChoice (redrawDrags Pages.spare_dragged) 0)
  = [(1%nat, false, {| left := 15; top := 320 |});
     (1%nat, true, {| left := 55; top := 66 |});
     (0%nat, false, {| left := 81; top := 41 |})] /\
  nth_error (dragItemsForChoice Pages.dropped_after_redraw 0) 1 = Some Pages.dropped /\
  beingdragged Pages.dropped = false /\
  convertToBgImgXY Pages.dropped_after_redraw (offset_array Pages.dropped)
  = point (44, 45)%Z /\
  coordsInBgImg Pages.dropped_after_redraw (point (44, 45)%Z) = true /\
  saveCoordsForChoice Pages.dropped_after_redraw 0 (Some [Pages.dropped])
  = Returned (set_val Pages.dropped_after_redraw 0 "70,20") /\
  (exists d' : Doc,
     dragEnd (redrawDrags Pages.spare_dragged) 0 1 = Returned d' /\
     map val (inputsForChoices d') = ["70,20"%string] /\
     map (fun e => (itemno e, drag_offset e, style_left e, style_top e))
         (dragItemsForChoice d' 0)
     = [(1%nat, {| left := 15; top := 320 |}, Some (Fin 5), Some (Fin 288));
        (1%nat, {| left := 55; top := 66 |}, Some (Fin 5), Some (Fin 288));
        (0%nat, {| left := 81; top := 41 |}, Some (Fin 71), Some (Fin 21))]) /\
  (exists d' : Doc,
     dragEnd Pages.spare_dragged 0 0 = Returned d' /\
     map val (inputsForChoices d') = ["70,20;44,45"%string]).
Proof.
  split; [reflexivity|]. split; [reflexivity|]. split; [reflexivity|].
  split; [reflexivity|]. split; [reflexivity|]. split; [reflexivity|].
  split; eexists; repeat split; reflexivity.
Qed.

(** A dropped marker whose text no marker of the choice carries comes last,
    after the markers in number order; at (0, 50) it is left out. *)
Example saveCoordsForChoice_appends_last :
  saveCoordsForChoice
    (Examples.page Examples.image_offset
       [Examples.marker 1 false 41 61; Examples.marker 0 false 81 41]
       [Examples.field ""])
    0
    (Some [{| itemno := 0; beingdragged := false; unneeded := false;
              innerText := "B";
              drag_offset := {| left := 21; top := 31 |};
              style_left := None; style_top := None |}])
  = Returned
      (set_val (Examples.page Examples.image_offset
                  [Examples.marker 1 false 41 61; Examples.marker 0 false 81 41]
                  [Examples.field ""])
               0 "70,20;30,40;10,10") /\
  saveCoordsForChoice
    (Examples.page Examples.image_offset
       [Examples.marker 1 false 41 61; Examples.marker 0 false 81 41]
       [Examples.field ""])
    0
    (Some [{| itemno := 0; beingdragged := false; unneeded := false;
              innerText := "B";
              drag_offset := {| left := 11; top := 71 |};
              style_left := None; style_top := None |}])
  = Returned
      (set_val (Examples.page Examples.image_offset
                  [Examples.marker 1 false 41 61; Examples.marker 0 false 81 41]
                  [Examples.field ""])
               0 "70,20;30,40").
Proof. split; reflexivity. Qed.

(** Without a dropped marker the call throws before the field is written. *)
Example saveCoordsForChoice_missing_dropped :
  saveCoordsForChoice Examples.edge_page 0 None = Thrown TypeError.
Proof. reflexivity. Qed.

(* ================================================================== *)
(** ** Redrawing the markers of a choice *)

Section Redraw.

(** What the last loop of [redrawDragsAndDrops] leaves in the page. *)
Let stays (item : DragItem) : bool := negb (unneeded item && negb (beingdragged item)).

Let shown (l : list DragItem) : nat := List.length (filter stays l).

(** From slot [k] on, each number is carried by at most one marker, and
    that marker is still marked unneeded. *)
Let pending (k : nat) (l : list DragItem) : Prop :=
  forall i, (k <= i)%nat ->
    bucket itemno l i = [] \/
    exists e, bucket itemno l i = [e] /\ unneeded e = true.

Lemma shown_split (q : DragItem -> bool) l :
  shown l = (shown (filter q l) + shown (filter (fun e => negb (q e)) l))%nat.
Proof.
  unfold shown. induction l as [|e r IH]; cbn [filter]; [reflexivity|].
  destruct (q e); cbn [negb filter]; destruct (stays e); cbn [List.length]; lia.
Qed.

Lemma filter_map_on (q : DragItem -> bool) (h : DragItem -> DragItem) l :
  (forall e, q (h e) = q e) ->
  filter q (map (fun e => if q e then h e else e) l) = map h (filter q l) /\
  filter (fun e => negb (q e)) (map (fun e => if q e then h e else e) l)
  = filter (fun e => negb (q e)) l.
Proof.
  intros Hq. induction l as [|e r [IH1 IH2]]; cbn [map filter]; [auto|].
  destruct (q e) eqn:E.
  - rewrite Hq, E. cbn [negb map]. now rewrite IH1, IH2.
  - rewrite E. cbn [negb]. now rewrite IH1, IH2.
Qed.

Lemma redraw_slot_step (draghome : Home) (k : nat) (xy : array) l :
  pending k l ->
  shown (redraw_slot draghome l (k, xy)) = S (shown l) /\
  pending (S k) (redraw_slot draghome l (k, xy)).
Proof.
  intros Hp. unfold redraw_slot.
  destruct (Hp k (le_n k)) as [E|(e & E & Hu)]; rewrite E.
  - cbn [orb]. split.
    + unfold shown. cbn [filter]. reflexivity.
    + intros i Hi. unfold bucket. cbn [filter place cloneNewDragItem itemno].
      destruct (Nat.eqb_spec k i) as [->|_]; [lia|]. apply Hp. lia.
  - cbn [orb hasClass_beingdragged existsb]. rewrite orb_false_r.
    destruct (beingdragged e) eqn:Ed.
    + split.
      * unfold shown. cbn [filter]. reflexivity.
      * intros i Hi. unfold bucket. cbn [filter place cloneNewDragItem itemno].
        destruct (Nat.eqb_spec k i) as [->|_]; [lia|]. apply Hp. lia.
    + set (q := fun e : DragItem => (itemno e =? k)%nat).
      set (h := fun e : DragItem => place xy (set_unneeded false e)).
      assert (Hq : forall e, q (h e) = q e) by reflexivity.
      destruct (filter_map_on q h l Hq) as [H1 H2].
      change (bucket itemno l k) with (filter q l) in E.
      change (map (fun e0 : DragItem =>
                     if (itemno e0 =? k)%nat
                     then place xy (set_unneeded false e0) else e0) l)
        with (map (fun e0 : DragItem => if q e0 then h e0 else e0) l).
      split.
      * rewrite (shown_split q), H1, H2, (shown_split q l), E.
        unfold shown, stays. cbn [map filter h place set_unneeded unneeded beingdragged].
        rewrite Hu, Ed. reflexivity.
      * intros i Hi. unfold bucket.
        assert (Hb : filter (fun e0 => (itemno e0 =? i)%nat)
                       (map (fun e0 => if q e0 then h e0 else e0) l)
                     = filter (fun e0 => (itemno e0 =? i)%nat) l).
        { clear - Hi. induction l as [|x r IH]; cbn [map filter]; [reflexivity|].
          destruct (q x) eqn:Eq.
          - unfold q in Eq. apply Nat.eqb_eq in Eq.
            cbn [h place set_unneeded itemno].
            destruct (Nat.eqb_spec (itemno x) i); [lia|exact IH].
          - destruct (itemno x =? i)%nat; now rewrite IH. }
        rewrite Hb. apply Hp. lia.
Qed.

Lemma redraw_slots_shown (draghome : Home) (coords : list array) k l :
  pending k l ->
  shown (fold_left (redraw_slot draghome)
                   (combine (seq k (List.length coords)) coords) l)
  = (shown l + List.length coords)%nat.
Proof.
  revert k l. induction coords as [|xy r IH]; intros k l Hp; cbn [List.length seq combine fold_left].
  - lia.
  - destruct (redraw_slot_step draghome k xy l Hp) as [Hs Hp'].
    rewrite (IH (S k) _ Hp'), Hs. lia.
Qed.

Lemma marked_pending l :
  NoDup (map itemno l) -> pending 0 (map (set_unneeded true) l).
Proof.
  intros Hnd i _.
  assert (Hb : bucket itemno (map (set_unneeded true) l) i
               = map (set_unneeded true) (bucket itemno l i)).
  { unfold bucket. clear. induction l as [|x r IH]; cbn [map filter]; [reflexivity|].
    cbn [set_unneeded itemno]. destruct (itemno x =? i)%nat; cbn [map]; now rewrite IH. }
  rewrite Hb. destruct (ListFacts.bucket_singleton itemno l i Hnd) as [->|[e ->]].
  - now left.
  - right. now exists (set_unneeded true e).
Qed.

Lemma marked_shown l :
  shown (map (set_unneeded true) l) = List.length (filter beingdragged l).
Proof.
  unfold shown, stays. induction l as [|x r IH]; cbn [map filter]; [reflexivity|].
  cbn [set_unneeded unneeded beingdragged andb].
  destruct (beingdragged x); cbn [negb List.length]; now rewrite IH.
Qed.

(** The markers of a choice after its field has been reconciled and the
    unneeded ones removed. *)
Lemma redraw_choice_count (draghome : Home) (coords : list array) l :
  NoDup (map itemno l) ->
  List.length
    (filter (fun item => negb (unneeded item && negb (beingdragged item)))
       (fold_left (redraw_slot draghome)
                  (combine (seq 0 (List.length coords)) coords)
                  (map (set_unneeded true) l)))
  = (List.length coords + List.length (filter beingdragged l))%nat.
Proof.
  intros Hnd.
  pose proof (redraw_slots_shown draghome coords 0 _ (marked_pending l Hnd)) as H.
  unfold shown, stays in H. rewrite H.
  change (List.length (filter (fun item => negb (unneeded item && negb (beingdragged item)))
                          (map (set_unneeded true) l)))
    with (shown (map (set_unneeded true) l)).
  rewrite marked_shown. lia.
Qed.

End Redraw.

Section RedrawPage.

Lemma filter_beingdragged_marked l :
  filter beingdragged (map (set_unneeded true) l)
  = map (set_unneeded true) (filter beingdragged l).
Proof.
  induction l as [|x r IH]; cbn [map filter]; [reflexivity|].
  cbn [set_unneeded beingdragged]. destruct (beingdragged x); cbn [map]; now rewrite IH.
Qed.

Lemma getCoords_ext (d1 d2 : Doc) (input : Input) :
  bgImage d1 = bgImage d2 ->
  dragItemHome d1 (choice input) = dragItemHome d2 (choice input) ->
  List.length (dragItemBeingDragged d1 (choice input))
  = List.length (dragItemBeingDragged d2 (choice input)) ->
  getCoords d1 input = getCoords d2 input.
Proof.
  intros Hbg Hhome Hdrag.
  unfold getCoords, coords_of_val, convertToWindowXY, dragHomeXY.
  now rewrite Hbg, Hhome, Hdrag.
Qed.

Lemma getCoords_marked (d : Doc) (input : Input) :
  getCoords (map_dragItems (map (set_unneeded true)) d) input = getCoords d input.
Proof.
  apply getCoords_ext; try reflexivity.
  unfold dragItemBeingDragged. cbn [map_dragItems dragItemsForChoice].
  now rewrite filter_beingdragged_marked, length_map.
Qed.

Lemma redraw_others (inputs : list Input) (d : Doc) (c : nat) :
  (forall i, In i inputs -> choice i <> c) ->
  dragItemsForChoice (fold_left redraw_input inputs d) c = dragItemsForChoice d c /\
  bgImage (fold_left redraw_input inputs d) = bgImage d /\
  dragItemHome (fold_left redraw_input inputs d) = dragItemHome d.
Proof.
  revert d. induction inputs as [|i r IH]; intros d Hc; cbn [fold_left]; [auto|].
  destruct (IH (redraw_input d i)) as (H1 & H2 & H3).
  { intros j Hj. apply Hc. now right. }
  rewrite H1, H2, H3. unfold redraw_input. cbn [set_dragItems dragItemsForChoice bgImage dragItemHome].
  destruct (Nat.eqb_spec c (choice i)) as [E|_]; [|auto].
  exfalso. apply (Hc i); [now left|congruence].
Qed.

Lemma redraw_inputs_choice (inputs : list Input) (d : Doc) (input : Input) :
  In input inputs -> NoDup (map choice inputs) ->
  dragItemsForChoice (fold_left redraw_input inputs d) (choice input)
  = fold_left (redraw_slot (dragItemHome d (choice input)))
              (combine (seq 0 (List.length (getCoords d input))) (getCoords d input))
              (dragItemsForChoice d (choice input)).
Proof.
  intros Hin Hnd. apply in_split in Hin as (pre & post & ->).
  rewrite map_app in Hnd. cbn [map] in Hnd.
  assert (Hpre : forall i, In i pre -> choice i <> choice input).
  { intros i Hi E. apply NoDup_remove_2 in Hnd. apply Hnd.
    apply in_or_app. left. rewrite <- E. now apply in_map. }
  assert (Hpost : forall i, In i post -> choice i <> choice input).
  { intros i Hi E. apply NoDup_remove_2 in Hnd. apply Hnd.
    apply in_or_app. right. rewrite <- E. now apply in_map. }
  rewrite fold_left_app. cbn [fold_left].
  destruct (redraw_others pre d (choice input) Hpre) as (H1 & H2 & H3).
  destruct (redraw_others post (redraw_input (fold_left redraw_input pre d) input)
              (choice input) Hpost) as (H4 & _ & _).
  rewrite H4. unfold redraw_input at 1.
  cbn [set_dragItems dragItemsForChoice]. rewrite Nat.eqb_refl, H1, H3.
  rewrite (getCoords_ext (fold_left redraw_input pre d) d input H2);
    [reflexivity|now rewrite H3|].
  unfold dragItemBeingDragged. now rewrite H1.
Qed.

(** The number of markers of a choice after a redraw. *)
Lemma redrawDrags_count (d : Doc) (input : Input) :
  In input (inputsForChoices d) ->
  NoDup (map choice (inputsForChoices d)) ->
  NoDup (map itemno (dragItemsForChoice d (choice input))) ->
  List.length (dragItemsForChoice (redrawDrags d) (choice input))
  = (List.length (getCoords d input)
     + List.length (dragItemBeingDragged d (choice input)))%nat.
Proof.
  intros Hin Hnd Hitems. unfold redrawDrags.
  cbn [map_dragItems dragItemsForChoice inputsForChoices].
  set (d1 := map_dragItems (map (set_unneeded true)) d).
  change (inputsForChoices d) with (inputsForChoices d1) in Hin, Hnd.
  change (fold_left redraw_input (inputsForChoices d) d1)
    with (fold_left redraw_input (inputsForChoices d1) d1).
  rewrite (redraw_inputs_choice (inputsForChoices d1) d1 input Hin Hnd).
  unfold d1 at 1 2 3. rewrite getCoords_marked.
  cbn [map_dragItems dragItemsForChoice dragItemHome].
  apply (redraw_choice_count _ _ _ Hitems).
Qed.

End RedrawPage.

(** C5.  For the field of a choice, with [placed] the number of pairs it
    holds and [dragging] one when a marker of the choice is being dragged,
    [getCoords] adds the home position as one spare exactly when the field
    is [infinite] or [placed + dragging] is below [noofdrags]; it returns a
    position for every marker to show but the dragged one.  After
    [redrawDragsAndDrops] the choice has [placed + dragging], plus the
    spare, markers in the page.  Unlimited with nothing placed or dragged
    gives 1; a maximum of 2 with 2 placed and none dragged gives 2. *)
Theorem required_display_count (d : Doc) (input : Input) :
  let placed := List.length (coords_of_val d (val input)) in
  let dragging :=
    if (0 <? List.length (dragItemBeingDragged d (choice input)))%nat then 1%nat else 0%nat in
  let spare :=
    if infinite input || (placed + dragging <? noofdrags input)%nat then 1%nat else 0%nat in
  List.length (getCoords d input) = (placed + spare)%nat /\
  (spare = 1%nat ->
   getCoords d input = coords_of_val d (val input) ++ [dragHomeXY d (choice input)]) /\
  (In input (inputsForChoices d) ->
   NoDup (map choice (inputsForChoices d)) ->
   NoDup (map itemno (dragItemsForChoice d (choice input))) ->
   (List.length (dragItemBeingDragged d (choice input)) <= 1)%nat ->
   List.length (dragItemsForChoice (redrawDrags d) (choice input))
   = (placed + dragging + spare)%nat) /\
  List.length (getCoords Examples.unlimited_page (Examples.field "")) = 1%nat /\
  List.length (dragItemsForChoice (redrawDrags Examples.unlimited_page) 0) = 1%nat /\
  List.length (getCoords Examples.full_page Examples.two_of_two) = 2%nat /\
  List.length (dragItemsForChoice (redrawDrags Examples.full_page) 0) = 2%nat.
Proof.
  cbv zeta.
  assert (Hlen : List.length (getCoords d input)
                 = (List.length (coords_of_val d (val input))
                    + (if infinite input
                          || (List.length (coords_of_val d (val input))
                              + (if (0 <? List.length (dragItemBeingDragged d (choice input)))%nat
                                 then 1 else 0)
                              <? noofdrags input)%nat
                       then 1 else 0))%nat).
  { unfold getCoords.
    destruct (infinite input || _); [|lia].
    rewrite length_app. reflexivity. }
  split; [exact Hlen|]. split; [|split].
  - unfold getCoords. destruct (infinite input || _); [reflexivity|discriminate].
  - intros Hin Hnd Hitems Hone.
    rewrite (redrawDrags_count d input Hin Hnd Hitems), Hlen.
    destruct (List.length (dragItemBeingDragged d (choice input))) as [|[|k]];
      cbn [Nat.ltb Nat.leb]; lia.
  - repeat split; reflexivity.
Qed.

(** While the spare of an unlimited choice is being dragged, with one marker
    placed: the field gives two positions, and the page shows three markers
    after the redraw (the placed one, the dragged one and a fresh spare). *)
Example redraw_while_dragging :
  List.length
    (getCoords
       (Examples.page Examples.image_offset
          [Examples.marker 1 true 55 66; Examples.marker 0 false 81 41]
          [Examples.field "70,20"])
       (Examples.field "70,20")) = 2%nat /\
  map (fun e => (itemno e, beingdragged e))
    (dragItemsForChoice
       (redrawDrags
          (Examples.page Examples.image_offset
             [Examples.marker 1 true 55 66; Examples.marker 0 false 81 41]
             [Examples.field "70,20"])) 0)
  = [(1%nat, false); (1%nat, true); (0%nat, false)].
Proof. split; reflexivity. Qed.

(* ================================================================== *)
(** * Further properties *)

(** ** Going between window and image coordinates *)

Lemma convertToBgImgXY_point (d : Doc) (x y : Z) :
  convertToBgImgXY d (point (x, y))
  = point (x - left (offset (bgImage d)) - 1, y - top (offset (bgImage d)) - 1)%Z.
Proof.
  unfold convertToBgImgXY, point, num_of_Z, idx.
  cbn [nth fst snd Js.Number]. now rewrite !JsFacts.sub_Fin.
Qed.

Lemma constrainToBgImg_point (d : Doc) (x y : Z) :
  constrainToBgImg d (point (x, y))
  = point (Z.min (width (bgImage d)) (Z.max 0 (x - left (offset (bgImage d)) - 1))
           + left (position (bgImage d)) + 1,
           Z.min (height (bgImage d)) (Z.max 0 (y - top (offset (bgImage d)) - 1))
           + top (position (bgImage d)) + 1)%Z.
Proof.
  unfold constrainToBgImg. rewrite convertToBgImgXY_point.
  unfold point at 1 2, num_of_Z, idx. cbn [nth fst snd Js.Number].
  rewrite !JsFacts.max_Fin, !JsFacts.min_Fin.
  apply (convertToWindowXY_point d).
Qed.

(** X1.  Going to window coordinates and back, or back and forth the other
    way, moves an integer point by the difference between the position and
    the page offset of the image; it gives the point back when the two are
    equal. *)
Theorem convert_there_and_back (d : Doc) (x y : Z) :
  convertToBgImgXY d (convertToWindowXY d (point (x, y)))
  = point (x + (left (position (bgImage d)) - left (offset (bgImage d))),
           y + (top (position (bgImage d)) - top (offset (bgImage d))))%Z /\
  convertToWindowXY d (convertToBgImgXY d (point (x, y)))
  = point (x + (left (position (bgImage d)) - left (offset (bgImage d))),
           y + (top (position (bgImage d)) - top (offset (bgImage d))))%Z /\
  (offset (bgImage d) = position (bgImage d) ->
   convertToBgImgXY d (convertToWindowXY d (point (x, y))) = point (x, y) /\
   convertToWindowXY d (convertToBgImgXY d (point (x, y))) = point (x, y)).
Proof.
  assert (H1 : convertToBgImgXY d (convertToWindowXY d (point (x, y)))
               = point (x + (left (position (bgImage d)) - left (offset (bgImage d))),
                        y + (top (position (bgImage d)) - top (offset (bgImage d))))%Z).
  { rewrite convertToWindowXY_point, convertToBgImgXY_point. f_equal. f_equal; lia. }
  assert (H2 : convertToWindowXY d (convertToBgImgXY d (point (x, y)))
               = point (x + (left (position (bgImage d)) - left (offset (bgImage d))),
                        y + (top (position (bgImage d)) - top (offset (bgImage d))))%Z).
  { rewrite convertToBgImgXY_point, convertToWindowXY_point. f_equal. f_equal; lia. }
  split; [exact H1|]. split; [exact H2|].
  intros Hal. rewrite H1, H2, Hal. split; f_equal; f_equal; lia.
Qed.

(** X2.  On an image of non-negative width and height, [constrainToBgImg]
    sends every integer window point to the window coordinates of an image
    point within [[0, width] x [0, height]]: the point itself when it is
    inside, the nearest edge otherwise. *)
Theorem constrainToBgImg_within (d : Doc) (x y : Z) :
  (0 <= width (bgImage d))%Z -> (0 <= height (bgImage d))%Z ->
  exists cx cy : Z,
    constrainToBgImg d (point (x, y)) = convertToWindowXY d (point (cx, cy)) /\
    (0 <= cx <= width (bgImage d) /\ 0 <= cy <= height (bgImage d))%Z /\
    (let ix := (x - left (offset (bgImage d)) - 1)%Z in
     (ix < 0 -> cx = 0) /\ (0 <= ix <= width (bgImage d) -> cx = ix) /\
     (width (bgImage d) < ix -> cx = width (bgImage d)))%Z /\
    (let iy := (y - top (offset (bgImage d)) - 1)%Z in
     (iy < 0 -> cy = 0) /\ (0 <= iy <= height (bgImage d) -> cy = iy) /\
     (height (bgImage d) < iy -> cy = height (bgImage d)))%Z.
Proof.
  intros HW HH.
  exists (Z.min (width (bgImage d)) (Z.max 0 (x - left (offset (bgImage d)) - 1))),
         (Z.min (height (bgImage d)) (Z.max 0 (y - top (offset (bgImage d)) - 1))).
  split; [now rewrite constrainToBgImg_point, convertToWindowXY_point|].
  cbv zeta. repeat split; lia.
Qed.

Lemma constrainToBgImg_within_witness :
  (0 <= width (bgImage Examples.offset_page))%Z /\
  (0 <= height (bgImage Examples.offset_page))%Z /\
  exists cx cy : Z,
    constrainToBgImg Examples.offset_page (point (500, 7)%Z)
    = convertToWindowXY Examples.offset_page (point (cx, cy)) /\
    (0 <= cx <= width (bgImage Examples.offset_page) /\
     0 <= cy <= height (bgImage Examples.offset_page))%Z /\
    (let ix := (500 - left (offset (bgImage Examples.offset_page)) - 1)%Z in
     (ix < 0 -> cx = 0) /\
     (0 <= ix <= width (bgImage Examples.offset_page) -> cx = ix) /\
     (width (bgImage Examples.offset_page) < ix ->
      cx = width (bgImage Examples.offset_page)))%Z /\
    (let iy := (7 - top (offset (bgImage Examples.offset_page)) - 1)%Z in
     (iy < 0 -> cy = 0) /\
     (0 <= iy <= height (bgImage Examples.offset_page) -> cy = iy) /\
     (height (bgImage Examples.offset_page) < iy ->
      cy = height (bgImage Examples.offset_page)))%Z.
Proof.
  assert (HW : (0 <= width (bgImage Examples.offset_page))%Z) by (cbn; lia).
  assert (HH : (0 <= height (bgImage Examples.offset_page))%Z) by (cbn; lia).
  split; [exact HW|]. split; [exact HH|].
  exact (constrainToBgImg_within Examples.offset_page 500 7 HW HH).
Defined.

(** X3.  Where the page offset and the position of the image agree, the
    point [constrainToBgImg] returns passes [coordsInBgImg] exactly when
    the image is not empty and the point handed in was right of its left
    edge and below its top edge: a point past the right or bottom edge is
    brought to a place that counts as within the image, a point on or past
    the left or top edge to one that does not. *)
Theorem constrained_point_in_image (d : Doc) (x y : Z) :
  offset (bgImage d) = position (bgImage d) ->
  coordsInBgImg d (convertToBgImgXY d (constrainToBgImg d (point (x, y)))) = true <->
  (0 < x - left (offset (bgImage d)) - 1 /\ 0 < y - top (offset (bgImage d)) - 1 /\
   0 < width (bgImage d) /\ 0 < height (bgImage d))%Z.
Proof.
  intros Hal.
  rewrite constrainToBgImg_point, convertToBgImgXY_point, coordsInBgImg_point.
  rewrite <- Hal. lia.
Qed.

Lemma constrained_point_in_image_witness :
  offset (bgImage Examples.aligned_page) = position (bgImage Examples.aligned_page) /\
  (coordsInBgImg Examples.aligned_page
     (convertToBgImgXY Examples.aligned_page
        (constrainToBgImg Examples.aligned_page (point (5, 60)%Z))) = true <->
   (0 < 5 - left (offset (bgImage Examples.aligned_page)) - 1 /\
    0 < 60 - top (offset (bgImage Examples.aligned_page)) - 1 /\
    0 < width (bgImage Examples.aligned_page) /\
    0 < height (bgImage Examples.aligned_page))%Z) /\
  coordsInBgImg Examples.aligned_page
    (convertToBgImgXY Examples.aligned_page
       (constrainToBgImg Examples.aligned_page (point (5, 60)%Z))) = false /\
  coordsInBgImg Examples.aligned_page
    (convertToBgImgXY Examples.aligned_page
       (constrainToBgImg Examples.aligned_page (point (500, 60)%Z))) = true.
Proof.
  split; [reflexivity|]. split; [|split; reflexivity].
  apply (constrained_point_in_image Examples.aligned_page 5 60). reflexivity.
Defined.

(** ** What saving changes, and when it fails *)

Lemma saveCoords_fold_addme (d : Doc) (choiceNo : nat) (dropped : option (list DragItem))
    (ixs : list nat) (acc : list array) (am : bool) :
  dropped = None \/ dropped = Some [] ->
  snd (fold_left (saveCoords_step d choiceNo dropped) ixs (acc, am)) = am.
Proof.
  intros Hd. revert acc am. induction ixs as [|i r IH]; intros acc am; [reflexivity|].
  cbn [fold_left].
  assert (Hs : exists acc', saveCoords_step d choiceNo dropped (acc, am) i = (acc', am)).
  { unfold saveCoords_step.
    destruct (dragItemForChoice d choiceNo i) as [|first rest]; [now exists acc|].
    destruct Hd as [-> | ->]; eauto. }
  destruct Hs as [acc' ->]. apply IH.
Qed.

Lemma set_val_inputs (d : Doc) (choiceNo : nat) (value : string) :
  Forall2 (fun i i' => choice i' = choice i /\ infinite i' = infinite i /\
                       noofdrags i' = noofdrags i /\
                       (choice i <> choiceNo -> val i' = val i) /\
                       (choice i = choiceNo -> val i' = value))
          (inputsForChoices d) (inputsForChoices (set_val d choiceNo value)).
Proof.
  unfold set_val. cbn [inputsForChoices].
  induction (inputsForChoices d) as [|i r IH]; cbn [map]; constructor; [|exact IH].
  destruct (Nat.eqb_spec (choice i) choiceNo) as [E|E]; cbn [choice infinite noofdrags val];
    repeat split; congruence.
Qed.

(** X4.  [saveCoordsForChoice] throws exactly when it is handed no dropped
    element, or an empty one, and then before anything is written.  Handed
    one, it returns, and the page differs from the one before only in the
    value of the fields of the choice: image, homes, markers and the other
    fields are as they were. *)
Theorem saveCoordsForChoice_throws_iff (d : Doc) (choiceNo : nat)
    (dropped : option (list DragItem)) :
  (saveCoordsForChoice d choiceNo dropped = Thrown TypeError <->
   dropped = None \/ dropped = Some []) /\
  (forall dr others, dropped = Some (dr :: others) ->
   exists (value : string) (d' : Doc),
     saveCoordsForChoice d choiceNo dropped = Returned d' /\
     bgImage d' = bgImage d /\
     dragItemHome d' = dragItemHome d /\
     dragItemsForChoice d' = dragItemsForChoice d /\
     Forall2 (fun i i' => choice i' = choice i /\ infinite i' = infinite i /\
                          noofdrags i' = noofdrags i /\
                          (choice i <> choiceNo -> val i' = val i) /\
                          (choice i = choiceNo -> val i' = value))
             (inputsForChoices d) (inputsForChoices d')).
Proof.
  split.
  - split.
    + unfold saveCoordsForChoice.
      destruct (fold_left _ _ _) as [coords addme].
      destruct dropped as [[|dr others]|]; auto.
      destruct addme; discriminate.
    + intros Hd. unfold saveCoordsForChoice.
      pose proof (saveCoords_fold_addme d choiceNo dropped
                    (seq 0 (S (List.length (dragItemsForChoice d choiceNo)))) [] true Hd) as Ha.
      destruct (fold_left _ _ _) as [coords addme]. cbn [snd] in Ha. subst addme.
      destruct Hd as [-> | ->]; reflexivity.
  - intros dr others ->. unfold saveCoordsForChoice.
    destruct (fold_left _ _ _) as [coords addme].
    destruct addme.
    + eexists _, _. split; [reflexivity|].
      split; [reflexivity|]. split; [reflexivity|]. split; [reflexivity|].
      apply set_val_inputs.
    + eexists _, _. split; [reflexivity|].
      split; [reflexivity|]. split; [reflexivity|]. split; [reflexivity|].
      apply set_val_inputs.
Qed.

(** X15.  On a page where the markers of the choice are numbered without
    repetition and no number is above their count, [saveCoordsForChoice]
    handed a dropped marker returns, and what it writes into the fields of
    the choice is the encoding of: the image-relative positions of the
    markers that are not being dragged and lie within the image
    ([coordsInBgImg]), in increasing marker number; followed, when no
    marker of the choice has the text of the dropped one, by the position
    of the dropped one if that lies within the image.  Every position
    written lies within the image, so a drop at (0, 50) on a 100x100 image
    is left out; the order is by marker number, not by position.  The
    image, the markers and the fields of the other choices are as they
    were. *)
Theorem saveCoordsForChoice_rebuilds (d : Doc) (choiceNo : nat)
    (dropped : DragItem) (others : list DragItem) :
  NoDup (map itemno (dragItemsForChoice d choiceNo)) ->
  Forall (fun e => (itemno e <= List.length (dragItemsForChoice d choiceNo))%nat)
         (dragItemsForChoice d choiceNo) ->
  exists (kept : list DragItem) (written : list array) (d' : Doc),
    Permutation kept
      (filter (fun e => negb (beingdragged e) &&
                        coordsInBgImg d (convertToBgImgXY d (offset_array e)))
              (dragItemsForChoice d choiceNo)) /\
    StronglySorted (fun a b => (itemno a < itemno b)%nat) kept /\
    written
    = map (fun e => convertToBgImgXY d (offset_array e)) kept ++
      (if existsb (fun e => String.eqb (innerText dropped) (innerText e))
                  (dragItemsForChoice d choiceNo)
       then []
       else if coordsInBgImg d (convertToBgImgXY d (offset_array dropped))
            then [convertToBgImgXY d (offset_array dropped)]
            else []) /\
    Forall (fun p => coordsInBgImg d p = true) written /\
    saveCoordsForChoice d choiceNo (Some (dropped :: others)) = Returned d' /\
    bgImage d' = bgImage d /\
    dragItemsForChoice d' = dragItemsForChoice d /\
    Forall2 (fun i i' => choice i' = choice i /\ infinite i' = infinite i /\
                         noofdrags i' = noofdrags i /\
                         (choice i <> choiceNo -> val i' = val i) /\
                         (choice i = choiceNo -> val i' = encode written))
            (inputsForChoices d) (inputsForChoices d').
Proof.
  intros Hnd Hle.
  set (items := dragItemsForChoice d choiceNo) in *.
  set (bgxy := fun e : DragItem => convertToBgImgXY d (offset_array e)).
  set (keep := fun e : DragItem => negb (beingdragged e) && coordsInBgImg d (bgxy e)).
  set (same_text := fun e : DragItem => String.eqb (innerText dropped) (innerText e)).
  set (n := List.length items) in *.
  set (kept := flat_map (fun i => filter keep (bucket itemno items i)) (seq 0 (S n))).
  set (written := map bgxy kept ++
                  (if existsb same_text items then []
                   else if coordsInBgImg d (bgxy dropped) then [bgxy dropped] else [])).
  exists kept, written, (set_val d choiceNo (encode written)).
  assert (Hlt : Forall (fun e => (itemno e < S n)%nat) items).
  { eapply Forall_impl; [|exact Hle]. cbn. intros; lia. }
  split; [|split; [|split; [|split; [|split; [|split; [|split]]]]]].
  - unfold kept. rewrite <- ListFacts.filter_flat_map.
    apply ListFacts.Permutation_filter, ListFacts.buckets_permutation, Hlt.
  - apply (ListFacts.buckets_sorted itemno keep items 0 (S n) Hnd).
  - reflexivity.
  - unfold written. apply Forall_app. split.
    + apply Forall_forall. intros p Hp. apply in_map_iff in Hp as (e & <- & He).
      apply in_flat_map in He as (i & _ & He). apply filter_In in He as [_ He].
      unfold keep in He. now apply andb_true_iff in He as [_ He].
    + destruct (existsb same_text items); [constructor|].
      destruct (coordsInBgImg d (bgxy dropped)) eqn:E; repeat constructor. exact E.
  - unfold saveCoordsForChoice. fold items. fold n.
    rewrite (saveCoords_fold d choiceNo dropped others (seq 0 (S n)) [] true Hnd).
    cbv zeta. fold items.
    pose proof (ListFacts.buckets_existsb itemno same_text items (S n) Hlt) as Hex.
    unfold written, kept. subst same_text keep bgxy. cbv beta in Hex |- *. rewrite Hex.
    cbn [app andb].
    destruct (existsb _ items); cbn [negb].
    + now rewrite app_nil_r.
    + destruct (coordsInBgImg d _); now rewrite ?app_nil_r.
  - reflexivity.
  - reflexivity.
  - apply set_val_inputs.
Qed.

Lemma saveCoordsForChoice_rebuilds_witness :
  NoDup (map itemno (dragItemsForChoice Examples.edge_page 0)) /\
  Forall (fun e => (itemno e <= List.length (dragItemsForChoice Examples.edge_page 0))%nat)
         (dragItemsForChoice Examples.edge_page 0) /\
  convertToBgImgXY Examples.edge_page (offset_array Examples.dropped_on_edge)
  = point (0, 50)%Z /\
  saveCoordsForChoice Examples.edge_page 0 (Some [Examples.dropped_on_edge])
  = Returned (set_val Examples.edge_page 0 "70,20;30,40") /\
  exists (kept : list DragItem) (written : list array) (d' : Doc),
    Permutation kept
      (filter (fun e => negb (beingdragged e) &&
                        coordsInBgImg Examples.edge_page
                          (convertToBgImgXY Examples.edge_page (offset_array e)))
              (dragItemsForChoice Examples.edge_page 0)) /\
    StronglySorted (fun a b => (itemno a < itemno b)%nat) kept /\
    written
    = map (fun e => convertToBgImgXY Examples.edge_page (offset_array e)) kept ++
      (if existsb (fun e => String.eqb (innerText Examples.dropped_on_edge) (innerText e))
                  (dragItemsForChoice Examples.edge_page 0)
       then []
       else if coordsInBgImg Examples.edge_page
                 (convertToBgImgXY Examples.edge_page
                    (offset_array Examples.dropped_on_edge))
            then [convertToBgImgXY Examples.edge_page
                    (offset_array Examples.dropped_on_edge)]
            else []) /\
    Forall (fun p => coordsInBgImg Examples.edge_page p = true) written /\
    saveCoordsForChoice Examples.edge_page 0 (Some [Examples.dropped_on_edge])
    = Returned d' /\
    bgImage d' = bgImage Examples.edge_page /\
    dragItemsForChoice d' = dragItemsForChoice Examples.edge_page /\
    Forall2 (fun i i' => choice i' = choice i /\ infinite i' = infinite i /\
                         noofdrags i' = noofdrags i /\
                         (choice i <> 0%nat -> val i' = val i) /\
                         (choice i = 0%nat -> val i' = encode written))
            (inputsForChoices Examples.edge_page) (inputsForChoices d').
Proof.
  assert (Hnd : NoDup (map itemno (dragItemsForChoice Examples.edge_page 0))).
  { cbn. repeat constructor; cbn; intuition discriminate. }
  assert (Hle : Forall (fun e => (itemno e <= List.length (dragItemsForChoice Examples.edge_page 0))%nat)
                       (dragItemsForChoice Examples.edge_page 0)).
  { cbn. repeat constructor. }
  split; [exact Hnd|]. split; [exact Hle|].
  split; [reflexivity|]. split; [reflexivity|].
  exact (saveCoordsForChoice_rebuilds Examples.edge_page 0 Examples.dropped_on_edge []
           Hnd Hle).
Defined.

(** ** Reading back what was saved *)

Section SaveThenRead.

Variable d : Doc.
Variable choiceNo : nat.
Variable dropped : option (list DragItem).

Let items := dragItemsForChoice d choiceNo.
Let bgxy (e : DragItem) : array := convertToBgImgXY d (offset_array e).

(** The marker a turn of the loop records, if any. *)
Let pick (i : nat) : list DragItem :=
  match bucket itemno items i with
  | [] => []
  | first :: rest =>
      if negb (hasClass_beingdragged (first :: rest)) && coordsInBgImg d (bgxy first)
      then [first] else []
  end.

Lemma saveCoords_fold_coords (ixs : list nat) (acc : list array) (am : bool) :
  fst (fold_left (saveCoords_step d choiceNo dropped) ixs (acc, am))
  = acc ++ map bgxy (flat_map pick ixs).
Proof.
  revert acc am. induction ixs as [|i r IH]; intros acc am; cbn [fold_left flat_map].
  - now rewrite app_nil_r.
  - destruct (saveCoords_step d choiceNo dropped (acc, am) i) as [acc' am'] eqn:E.
    rewrite IH, map_app, app_assoc. f_equal.
    unfold saveCoords_step, dragItemForChoice in E. fold items in E. unfold pick.
    destruct (bucket itemno items i) as [|first rest].
    + injection E as <- _. now rewrite app_nil_r.
    + fold (bgxy first) in E.
      destruct (negb (hasClass_beingdragged (first :: rest))); cbn [andb].
      * destruct (coordsInBgImg d (bgxy first)); injection E as <- _;
          [reflexivity|now rewrite app_nil_r].
      * injection E as <- _. now rewrite app_nil_r.
Qed.

Lemma pick_spec (i : nat) (e : DragItem) :
  In e (pick i) ->
  In e items /\ beingdragged e = false /\ coordsInBgImg d (bgxy e) = true.
Proof.
  unfold pick. destruct (bucket itemno items i) as [|first rest] eqn:Eb; [intros []|].
  destruct (negb (hasClass_beingdragged (first :: rest))) eqn:Ed; cbn [andb]; [|intros []].
  destruct (coordsInBgImg d (bgxy first)) eqn:Ein; [|intros []].
  intros [<-|[]]. split; [|split; [|exact Ein]].
  - assert (H : In first (bucket itemno items i)) by (rewrite Eb; now left).
    now apply filter_In in H as [H _].
  - apply negb_true_iff in Ed. cbn [hasClass_beingdragged existsb] in Ed.
    now apply orb_false_iff in Ed as [Ed _].
Qed.

End SaveThenRead.

Lemma bgxy_integer (d : Doc) (e : DragItem) :
  convertToBgImgXY d (offset_array e)
  = point (left (drag_offset e) - left (offset (bgImage d)) - 1,
           top (drag_offset e) - top (offset (bgImage d)) - 1)%Z.
Proof. apply (convertToBgImgXY_point d). Qed.

(** X5.  Whatever the page, the value [saveCoordsForChoice] writes is the
    encoding of the image positions of a list of markers, each within the
    image and either the dropped one or a marker of the choice that is not
    being dragged; and the decoding loop of [getCoords] reads from that
    value, marker by marker, the page offset of the marker moved by the
    difference between the position and the page offset of the image. *)
Theorem saved_value_reads_back (d : Doc) (choiceNo : nat)
    (dr : DragItem) (others : list DragItem) :
  exists saved : list DragItem,
    saveCoordsForChoice d choiceNo (Some (dr :: others))
    = Returned
        (set_val d choiceNo
           (encode (map (fun e => convertToBgImgXY d (offset_array e)) saved))) /\
    Forall (fun e => coordsInBgImg d (convertToBgImgXY d (offset_array e)) = true /\
                     (e = dr \/
                      In e (dragItemsForChoice d choiceNo) /\ beingdragged e = false))
           saved /\
    coords_of_val d (encode (map (fun e => convertToBgImgXY d (offset_array e)) saved))
    = map (fun e =>
             point (left (drag_offset e)
                    + (left (position (bgImage d)) - left (offset (bgImage d))),
                    top (drag_offset e)
                    + (top (position (bgImage d)) - top (offset (bgImage d))))%Z)
          saved.
Proof.
  set (n := List.length (dragItemsForChoice d choiceNo)).
  pose proof (saveCoords_fold_coords d choiceNo (Some (dr :: others)) (seq 0 (S n)) [] true)
    as Hc.
  cbv zeta in Hc. cbn [app] in Hc.
  set (scanned := flat_map _ (seq 0 (S n))) in Hc.
  assert (Hscan : Forall (fun e => coordsInBgImg d (convertToBgImgXY d (offset_array e)) = true /\
                                   (e = dr \/ In e (dragItemsForChoice d choiceNo) /\
                                              beingdragged e = false)) scanned).
  { apply Forall_forall. intros e He. apply in_flat_map in He as (i & _ & He).
    apply (pick_spec d choiceNo i e) in He as (H1 & H2 & H3). auto. }
  assert (Hread : forall l : list DragItem,
             coords_of_val d (encode (map (fun e => convertToBgImgXY d (offset_array e)) l))
             = map (fun e =>
                      point (left (drag_offset e)
                             + (left (position (bgImage d)) - left (offset (bgImage d))),
                             top (drag_offset e)
                             + (top (position (bgImage d)) - top (offset (bgImage d))))%Z) l).
  { intros l.
    rewrite (map_ext _ (fun e => point (left (drag_offset e) - left (offset (bgImage d)) - 1,
                                        top (drag_offset e) - top (offset (bgImage d)) - 1)%Z)
               (bgxy_integer d)).
    rewrite <- (map_map (fun e => (left (drag_offset e) - left (offset (bgImage d)) - 1,
                                   top (drag_offset e) - top (offset (bgImage d)) - 1)%Z) point).
    rewrite (decode_window d _ _ (decode_encode _)), map_map.
    apply map_ext. intros e. rewrite convertToWindowXY_point. cbn [fst snd].
    f_equal. f_equal; lia. }
  unfold saveCoordsForChoice. fold n.
  destruct (fold_left _ (seq 0 (S n)) ([], true)) as [coords addme].
  cbn [fst] in Hc. subst coords.
  destruct addme.
  - destruct (coordsInBgImg d (convertToBgImgXY d (offset_array dr))) eqn:Ein.
    + exists (scanned ++ [dr]).
      split; [now rewrite map_app|]. split; [|apply Hread].
      apply Forall_app. split; [exact Hscan|]. repeat constructor; auto.
    + exists scanned. split; [reflexivity|]. split; [exact Hscan|apply Hread].
  - exists scanned. split; [reflexivity|]. split; [exact Hscan|apply Hread].
Qed.

(** ** The markers a redraw leaves *)

Section RedrawNumbers.

Variable draghome : Home.
Variable coords : list array.

Let stays (item : DragItem) : bool := negb (unneeded item && negb (beingdragged item)).

(** The marker carries the position [xy] wherever [xy] is a number. *)
Let styled (xy : array) (e : DragItem) : Prop :=
  (forall q, Js.Number (idx xy 0) = Num q -> style_left e = Some (Num q)) /\
  (forall q, Js.Number (idx xy 1) = Num q -> style_top e = Some (Num q)).

Let placed (e : DragItem) : Prop :=
  unneeded e = false /\
  exists xy, nth_error coords (itemno e) = Some xy /\ styled xy e.

Let pending (k : nat) (l : list DragItem) : Prop :=
  forall i, (k <= i)%nat ->
    bucket itemno l i = [] \/
    exists e, bucket itemno l i = [e] /\ unneeded e = true.

Let settled (k : nat) (l : list DragItem) : Prop :=
  pending k l /\
  Forall (fun e => beingdragged e = false) l /\
  Permutation (map itemno (filter stays l)) (seq 0 k) /\
  Forall placed (filter stays l).

Lemma place_styled (xy : array) (e : DragItem) : styled xy (place xy e).
Proof.
  unfold styled, place, css. cbn [style_left style_top].
  split; intros q ->; reflexivity.
Qed.

Lemma filter_stays_revived (k : nat) (h : DragItem -> DragItem) (e : DragItem) l :
  (forall x, itemno (h x) = itemno x) ->
  bucket itemno l k = [e] -> stays e = false -> stays (h e) = true ->
  Permutation
    (filter stays (map (fun x => if (itemno x =? k)%nat then h x else x) l))
    (h e :: filter stays l).
Proof.
  intros Hh. revert e. induction l as [|x r IH]; intros e Hb He Hhe; [discriminate Hb|].
  unfold bucket in Hb. cbn [filter map] in *.
  destruct (Nat.eqb_spec (itemno x) k) as [Ek|Ek].
  - injection Hb as -> Hr. rewrite Hhe, He.
    apply perm_skip. apply Permutation_refl'. f_equal.
    clear - Hr. induction r as [|y t IHr]; [reflexivity|].
    cbn [filter map] in *.
    destruct (itemno y =? k)%nat; [discriminate Hr|]. f_equal. now apply IHr.
  - specialize (IH e Hb He Hhe).
    destruct (stays x).
    + rewrite IH. apply perm_swap.
    + exact IH.
Qed.

Lemma bucket_map_other (k i : nat) (h : DragItem -> DragItem) l :
  (forall x, itemno (h x) = itemno x) ->
  bucket itemno (map (fun x => if (itemno x =? k)%nat then h x else x) l) i
  = map (fun x => if (itemno x =? k)%nat then h x else x) (bucket itemno l i).
Proof.
  intros Hh. unfold bucket. induction l as [|x r IH]; [reflexivity|].
  cbn [map filter].
  assert (E : itemno (if (itemno x =? k)%nat then h x else x) = itemno x)
    by (destruct (itemno x =? k)%nat; [apply Hh|reflexivity]).
  rewrite E. destruct (itemno x =? i)%nat; cbn [map]; now rewrite IH.
Qed.

Lemma redraw_slot_settles (k : nat) (xy : array) l :
  nth_error coords k = Some xy ->
  settled k l -> settled (S k) (redraw_slot draghome l (k, xy)).
Proof.
  intros Hxy (Hp & Hd & Hn & Hpl). unfold redraw_slot.
  assert (Hseq : Permutation (k :: seq 0 k) (seq 0 (S k))).
  { rewrite seq_S. cbn [Nat.add]. apply Permutation_cons_append. }
  assert (Hclone : placed (place xy (cloneNewDragItem draghome k))).
  { split; [reflexivity|]. exists xy. split; [exact Hxy|apply place_styled]. }
  assert (Hadd : settled (S k) (place xy (cloneNewDragItem draghome k) :: l)).
  { split; [|split; [|split]].
    - intros i Hi. unfold bucket. cbn [filter place cloneNewDragItem itemno].
      destruct (Nat.eqb_spec k i) as [->|_]; [lia|]. apply Hp. lia.
    - constructor; [reflexivity|exact Hd].
    - cbn [filter]. change (stays (place xy (cloneNewDragItem draghome k))) with true.
      cbn [map place cloneNewDragItem itemno].
      rewrite <- Hseq. now apply perm_skip.
    - cbn [filter]. change (stays (place xy (cloneNewDragItem draghome k))) with true.
      constructor; [exact Hclone|exact Hpl]. }
  destruct (Hp k (le_n k)) as [E|(e & E & Hu)]; rewrite E; [exact Hadd|].
  cbn [orb hasClass_beingdragged existsb]. rewrite orb_false_r.
  assert (He : In e l).
  { assert (H : In e (bucket itemno l k)) by (rewrite E; now left).
    now apply filter_In in H as [H _]. }
  assert (Hed : beingdragged e = false) by (rewrite Forall_forall in Hd; now apply Hd).
  assert (Hek : itemno e = k).
  { assert (H : In e (bucket itemno l k)) by (rewrite E; now left).
    apply filter_In in H as [_ H]. now apply Nat.eqb_eq in H. }
  rewrite Hed.
  set (h := fun x : DragItem => place xy (set_unneeded false x)).
  assert (Hh : forall x, itemno (h x) = itemno x) by reflexivity.
  assert (Hrev : Permutation
                   (filter stays (map (fun x => if (itemno x =? k)%nat then h x else x) l))
                   (h e :: filter stays l)).
  { apply filter_stays_revived; try assumption.
    - unfold stays. now rewrite Hu, Hed.
    - reflexivity. }
  change (map (fun e0 : DragItem =>
                  if (itemno e0 =? k)%nat then place xy (set_unneeded false e0) else e0) l)
    with (map (fun x : DragItem => if (itemno x =? k)%nat then h x else x) l).
  split; [|split; [|split]].
  - intros i Hi. rewrite (bucket_map_other k i h l Hh).
    destruct (Hp i ltac:(lia)) as [->|(x & Eb & Hx)]; [now left|].
    right. rewrite Eb. cbn [map].
    assert (Hxi : itemno x = i).
    { assert (H : In x (bucket itemno l i)) by (rewrite Eb; now left).
      apply filter_In in H as [_ H]. now apply Nat.eqb_eq in H. }
    destruct (Nat.eqb_spec (itemno x) k) as [Exk|_]; [lia|]. now exists x.
  - apply Forall_forall. intros x Hx. apply in_map_iff in Hx as (y & <- & Hy).
    rewrite Forall_forall in Hd. destruct (itemno y =? k)%nat; [|now apply Hd].
    cbn [h place set_unneeded beingdragged]. now apply Hd.
  - rewrite Hrev. cbn [map]. rewrite Hh, Hek, <- Hseq. now apply perm_skip.
  - eapply Permutation_Forall; [symmetry; exact Hrev|].
    constructor; [|exact Hpl].
    split; [reflexivity|]. exists xy. cbn [h place set_unneeded itemno].
    rewrite Hek. split; [exact Hxy|apply place_styled].
Qed.

Lemma redraw_slots_settle (pre cs : list array) l :
  coords = pre ++ cs ->
  settled (List.length pre) l ->
  settled (List.length coords)
          (fold_left (redraw_slot draghome)
                     (combine (seq (List.length pre) (List.length cs)) cs) l).
Proof.
  revert pre l. induction cs as [|xy r IH]; intros pre l Hc Hs.
  - rewrite Hc, app_nil_r. exact Hs.
  - cbn [List.length seq combine fold_left].
    assert (Hxy : nth_error coords (List.length pre) = Some xy).
    { rewrite Hc, nth_error_app2 by lia. now rewrite Nat.sub_diag. }
    pose proof (redraw_slot_settles (List.length pre) xy l Hxy Hs) as Hs'.
    specialize (IH (pre ++ [xy]) (redraw_slot draghome l (List.length pre, xy))).
    rewrite length_app in IH. cbn [List.length] in IH.
    rewrite Nat.add_1_r in IH. apply IH; [|exact Hs'].
    rewrite Hc, <- app_assoc. reflexivity.
Qed.

Lemma marked_settled l0 :
  NoDup (map itemno l0) -> Forall (fun e => beingdragged e = false) l0 ->
  settled 0 (map (set_unneeded true) l0).
Proof.
  intros Hnd Hd.
  assert (Hnone : filter stays (map (set_unneeded true) l0) = []).
  { clear Hnd. induction Hd as [|x r Hx _ IH]; [reflexivity|].
    cbn [map filter]. unfold stays at 1. cbn [set_unneeded unneeded beingdragged].
    rewrite Hx. exact IH. }
  split; [|split; [|split]].
  - intros i _.
    assert (Hb : bucket itemno (map (set_unneeded true) l0) i
                 = map (set_unneeded true) (bucket itemno l0 i)).
    { unfold bucket. clear. induction l0 as [|x r IH]; cbn [map filter]; [reflexivity|].
      cbn [set_unneeded itemno]. destruct (itemno x =? i)%nat; cbn [map]; now rewrite IH. }
    rewrite Hb. destruct (ListFacts.bucket_singleton itemno l0 i Hnd) as [->|[e ->]].
    + now left.
    + right. exists (set_unneeded true e). split; reflexivity.
  - apply Forall_forall. intros x Hx. apply in_map_iff in Hx as (y & <- & Hy).
    rewrite Forall_forall in Hd. exact (Hd y Hy).
  - rewrite Hnone. constructor.
  - rewrite Hnone. constructor.
Qed.

(** The markers of a choice none of which is being dragged, after its field
    has been reconciled and the unneeded ones removed. *)
Lemma redraw_choice_numbers l0 :
  NoDup (map itemno l0) -> Forall (fun e => beingdragged e = false) l0 ->
  Permutation
    (map itemno
       (filter (fun item => negb (unneeded item && negb (beingdragged item)))
          (fold_left (redraw_slot draghome)
                     (combine (seq 0 (List.length coords)) coords)
                     (map (set_unneeded true) l0))))
    (seq 0 (List.length coords)) /\
  Forall (fun e =>
            unneeded e = false /\ beingdragged e = false /\
            exists xy, nth_error coords (itemno e) = Some xy /\
              (forall q, Js.Number (idx xy 0) = Num q -> style_left e = Some (Num q)) /\
              (forall q, Js.Number (idx xy 1) = Num q -> style_top e = Some (Num q)))
         (filter (fun item => negb (unneeded item && negb (beingdragged item)))
            (fold_left (redraw_slot draghome)
                       (combine (seq 0 (List.length coords)) coords)
                       (map (set_unneeded true) l0))).
Proof.
  intros Hnd Hd.
  destruct (redraw_slots_settle [] coords _ eq_refl (marked_settled l0 Hnd Hd))
    as (_ & Hdr & Hperm & Hpl).
  cbn [List.length] in Hdr, Hperm, Hpl.
  split; [exact Hperm|].
  apply Forall_forall. intros e He.
  rewrite Forall_forall in Hpl. destruct (Hpl e He) as (Hu & xy & Hxy & Hst).
  split; [exact Hu|]. split.
  - apply filter_In in He as [He _]. rewrite Forall_forall in Hdr. now apply Hdr.
  - exists xy. split; [exact Hxy|exact Hst].
Qed.

End RedrawNumbers.

Lemma redrawDrags_items (d : Doc) (input : Input) :
  In input (inputsForChoices d) ->
  NoDup (map choice (inputsForChoices d)) ->
  dragItemsForChoice (redrawDrags d) (choice input)
  = filter (fun item => negb (unneeded item && negb (beingdragged item)))
      (fold_left (redraw_slot (dragItemHome d (choice input)))
                 (combine (seq 0 (List.length (getCoords d input))) (getCoords d input))
                 (map (set_unneeded true) (dragItemsForChoice d (choice input)))).
Proof.
  intros Hin Hnd. unfold redrawDrags.
  cbn [map_dragItems dragItemsForChoice inputsForChoices].
  set (d1 := map_dragItems (map (set_unneeded true)) d).
  change (inputsForChoices d) with (inputsForChoices d1) in Hin, Hnd.
  change (fold_left redraw_input (inputsForChoices d) d1)
    with (fold_left redraw_input (inputsForChoices d1) d1).
  rewrite (redraw_inputs_choice (inputsForChoices d1) d1 input Hin Hnd).
  unfold d1 at 1 2 3. rewrite getCoords_marked. reflexivity.
Qed.

(** X6.  After a redraw, the markers of a choice that has a field are, when
    they carried distinct numbers and none was being dragged, numbered
    0, 1, ... up to the number of positions [getCoords] gives, each number
    once; none is marked unneeded or dragged, and each carries as [left]
    and [top] the position of its number, wherever that is a number.  In
    particular their numbers are distinct and below their count. *)
Theorem redraw_numbers_markers (d : Doc) (input : Input) :
  In input (inputsForChoices d) ->
  NoDup (map choice (inputsForChoices d)) ->
  NoDup (map itemno (dragItemsForChoice d (choice input))) ->
  Forall (fun e => beingdragged e = false) (dragItemsForChoice d (choice input)) ->
  Permutation (map itemno (dragItemsForChoice (redrawDrags d) (choice input)))
              (seq 0 (List.length (getCoords d input))) /\
  NoDup (map itemno (dragItemsForChoice (redrawDrags d) (choice input))) /\
  Forall (fun e =>
            (itemno e < List.length (dragItemsForChoice (redrawDrags d) (choice input)))%nat)
         (dragItemsForChoice (redrawDrags d) (choice input)) /\
  Forall (fun e =>
            unneeded e = false /\ beingdragged e = false /\
            exists xy, nth_error (getCoords d input) (itemno e) = Some xy /\
              (forall q, Js.Number (idx xy 0) = Num q -> style_left e = Some (Num q)) /\
              (forall q, Js.Number (idx xy 1) = Num q -> style_top e = Some (Num q)))
         (dragItemsForChoice (redrawDrags d) (choice input)).
Proof.
  intros Hin Hnd Hitems Hdrag.
  rewrite (redrawDrags_items d input Hin Hnd).
  destruct (redraw_choice_numbers (dragItemHome d (choice input)) (getCoords d input)
              (dragItemsForChoice d (choice input)) Hitems Hdrag) as [Hperm Hall].
  set (after := filter _ _) in *.
  split; [exact Hperm|]. split; [|split; [|exact Hall]].
  - apply (Permutation_NoDup (Permutation_sym Hperm)), seq_NoDup.
  - apply Forall_forall. intros e He.
    assert (Hi : In (itemno e) (seq 0 (List.length (getCoords d input)))).
    { apply (Permutation_in _ Hperm). now apply in_map. }
    apply in_seq in Hi.
    pose proof (Permutation_length Hperm) as Hl.
    rewrite length_map, length_seq in Hl. lia.
Qed.

Lemma redraw_numbers_markers_witness :
  Permutation
    (map itemno (dragItemsForChoice (redrawDrags Examples.edge_page)
                                    (choice (Examples.field "70,20;30,40"))))
    (seq 0 (List.length (getCoords Examples.edge_page (Examples.field "70,20;30,40")))).
Proof.
  apply (redraw_numbers_markers Examples.edge_page (Examples.field "70,20;30,40")).
  - left. reflexivity.
  - cbn. constructor; [intros []|constructor].
  - cbn. repeat constructor; cbn; intuition discriminate.
  - cbn. repeat constructor.
Defined.

(** ** The end of a drag *)

Lemma coords_of_val_saved (d d' : Doc) (l : list DragItem) :
  bgImage d' = bgImage d ->
  coords_of_val d' (encode (map (fun e => convertToBgImgXY d (offset_array e)) l))
  = map (fun e =>
           point (left (drag_offset e)
                  + (left (position (bgImage d)) - left (offset (bgImage d))),
                  top (drag_offset e)
                  + (top (position (bgImage d)) - top (offset (bgImage d))))%Z) l.
Proof.
  intros Hbg.
  rewrite (map_ext _ (fun e => point (left (drag_offset e) - left (offset (bgImage d)) - 1,
                                      top (drag_offset e) - top (offset (bgImage d)) - 1)%Z)
             (bgxy_integer d)).
  rewrite <- (map_map (fun e => (left (drag_offset e) - left (offset (bgImage d)) - 1,
                                 top (drag_offset e) - top (offset (bgImage d)) - 1)%Z) point).
  rewrite (decode_window d' _ _ (decode_encode _)), map_map.
  apply map_ext. intros e. rewrite convertToWindowXY_point, Hbg. cbn [fst snd].
  f_equal. f_equal; lia.
Qed.

Section UpdateNth.

Context {A : Type}.
Variable f : A -> A.

Lemma update_nth_hit (k : nat) (l : list A) (e : A) :
  nth_error l k = Some e -> nth_error (update_nth k f l) k = Some (f e).
Proof.
  revert k. induction l as [|x r IH]; intros [|k]; cbn; try discriminate.
  - now intros [= ->].
  - apply IH.
Qed.

Lemma update_nth_miss (k : nat) (l : list A) :
  nth_error l k = None -> update_nth k f l = l.
Proof.
  revert k. induction l as [|x r IH]; intros [|k]; cbn; try discriminate; try reflexivity.
  intros H. now rewrite IH.
Qed.

Lemma update_nth_map {B : Type} (g : A -> B) (k : nat) (l : list A) :
  (forall x, g (f x) = g x) -> map g (update_nth k f l) = map g l.
Proof.
  intros Hg. revert k. induction l as [|x r IH]; intros [|k]; cbn; try reflexivity.
  - now rewrite Hg.
  - now rewrite IH.
Qed.

Lemma update_nth_Forall (P : A -> Prop) (k : nat) (l : list A) :
  (forall j x, nth_error l j = Some x -> j <> k -> P x) ->
  (forall x, nth_error l k = Some x -> P (f x)) ->
  Forall P (update_nth k f l).
Proof.
  revert k. induction l as [|x r IH]; intros k Ho Hk; [destruct k; constructor|].
  destruct k as [|k]; cbn [update_nth].
  - constructor; [now apply Hk|].
    apply Forall_forall. intros y Hy. apply In_nth_error in Hy as [j Hj].
    now apply (Ho (S j)).
  - constructor; [now apply (Ho 0%nat)|].
    apply IH.
    + intros j y Hj Hne. apply (Ho (S j)); [exact Hj|lia].
    + intros y Hy. now apply Hk.
Qed.

End UpdateNth.

(** Saving for a marker that is itself among the markers of the choice:
    nothing is appended after the scan. *)
Lemma saveCoordsForChoice_member (d : Doc) (choiceNo : nat)
    (dr : DragItem) (others : list DragItem) :
  NoDup (map itemno (dragItemsForChoice d choiceNo)) ->
  Forall (fun x => (itemno x <= List.length (dragItemsForChoice d choiceNo))%nat)
         (dragItemsForChoice d choiceNo) ->
  In dr (dragItemsForChoice d choiceNo) ->
  saveCoordsForChoice d choiceNo (Some (dr :: others))
  = Returned
      (set_val d choiceNo
         (encode
            (map (fun e => convertToBgImgXY d (offset_array e))
               (flat_map
                  (fun i =>
                     filter (fun e => negb (beingdragged e) &&
                                      coordsInBgImg d (convertToBgImgXY d (offset_array e)))
                            (bucket itemno (dragItemsForChoice d choiceNo) i))
                  (seq 0 (S (List.length (dragItemsForChoice d choiceNo)))))))).
Proof.
  intros Hnd Hle Hin.
  set (items := dragItemsForChoice d choiceNo) in *.
  set (n := List.length items) in *.
  assert (Hlt : Forall (fun e => (itemno e < S n)%nat) items).
  { eapply Forall_impl; [|exact Hle]. cbn. intros; lia. }
  unfold saveCoordsForChoice. fold items. fold n.
  rewrite (saveCoords_fold d choiceNo dr others (seq 0 (S n)) [] true Hnd).
  cbv zeta. fold items.
  rewrite (ListFacts.buckets_existsb itemno
             (fun e => String.eqb (innerText dr) (innerText e)) items (S n) Hlt).
  assert (Hex : existsb (fun e => String.eqb (innerText dr) (innerText e)) items = true).
  { apply existsb_exists. exists dr. split; [exact Hin|apply String.eqb_refl]. }
  rewrite Hex. reflexivity.
Qed.

Lemma redraw_inputs_inputs (l : list Input) (d : Doc) :
  inputsForChoices (fold_left redraw_input l d) = inputsForChoices d.
Proof.
  revert d. induction l as [|i r IH]; intros d; [reflexivity|].
  cbn [fold_left]. now rewrite IH.
Qed.

Lemma redrawDrags_inputs (d : Doc) :
  inputsForChoices (redrawDrags d) = inputsForChoices d.
Proof.
  unfold redrawDrags. cbn [map_dragItems inputsForChoices].
  now rewrite redraw_inputs_inputs.
Qed.

(** X7.  Dropping a marker that is not on the page throws.  Dropping the
    marker at place [k] of a choice whose markers carry distinct numbers, none
    above their count, and of which no other is being dragged, returns.  The
    field of the choice then holds the image positions of the markers of
    the choice that lie within the image, the dropped one among them, in
    the order of their numbers.  After the redraw the choice shows one
    marker for each of these and one more when its field allows unlimited
    markers or more than these; they are numbered from 0 without gaps, none
    is being dragged, and the marker numbered [i] is placed where the
    [i]-th of the saved markers was on the page, moved by the difference
    between the position and the page offset of the image. *)
Theorem dragEnd_settles (d : Doc) (c k : nat) :
  (nth_error (dragItemsForChoice d c) k = None -> dragEnd d c k = Thrown TypeError) /\
  (forall (input : Input),
   (k < List.length (dragItemsForChoice d c))%nat ->
   NoDup (map itemno (dragItemsForChoice d c)) ->
   Forall (fun x => (itemno x <= List.length (dragItemsForChoice d c))%nat)
          (dragItemsForChoice d c) ->
   (forall j x, nth_error (dragItemsForChoice d c) j = Some x -> j <> k ->
                beingdragged x = false) ->
   In input (inputsForChoices d) -> choice input = c ->
   NoDup (map choice (inputsForChoices d)) ->
   exists (kept : list DragItem) (d' : Doc),
     dragEnd d c k = Returned d' /\
     Permutation kept
       (filter (fun x => coordsInBgImg d (convertToBgImgXY d (offset_array x)))
               (update_nth k removeClass_beingdragged (dragItemsForChoice d c))) /\
     StronglySorted (fun a b => (itemno a < itemno b)%nat) kept /\
     inputsForChoices d'
     = inputsForChoices
         (set_val d c (encode (map (fun x => convertToBgImgXY d (offset_array x)) kept))) /\
     Permutation
       (map itemno (dragItemsForChoice d' c))
       (seq 0 (List.length kept +
               (if infinite input || (List.length kept <? noofdrags input)%nat
                then 1 else 0))) /\
     Forall (fun x =>
               unneeded x = false /\ beingdragged x = false /\
               forall y, nth_error kept (itemno x) = Some y ->
                 style_left x
                 = Some (Fin (left (drag_offset y)
                              + (left (position (bgImage d)) - left (offset (bgImage d))))) /\
                 style_top x
                 = Some (Fin (top (drag_offset y)
                              + (top (position (bgImage d)) - top (offset (bgImage d))))))
            (dragItemsForChoice d' c)).
Proof.
  split.
  - intros Hnone. unfold dragEnd.
    cbn [set_dragItems dragItemsForChoice]. rewrite Nat.eqb_refl.
    rewrite (update_nth_miss _ _ _ Hnone), Hnone.
    unfold saveCoordsForChoice.
    match goal with
    | |- context [fold_left (saveCoords_step ?dd ?cc ?dr) ?l ?a] =>
        pose proof (saveCoords_fold_addme dd cc dr l [] true (or_intror eq_refl)) as Ha;
        destruct (fold_left (saveCoords_step dd cc dr) l a) as [coords addme]
    end.
    cbn [snd] in Ha. subst addme. reflexivity.
  - intros input Hk Hnd Hle Hothers Hin Hc Hinputs. subst c.
    set (c := choice input) in *.
    set (items := dragItemsForChoice d c) in *.
    destruct (nth_error items k) as [e|] eqn:He;
      [|apply nth_error_None in He; lia].
    set (items1 := update_nth k removeClass_beingdragged items).
    set (d1 := set_dragItems d c items1).
    assert (Hitems1 : dragItemsForChoice d1 c = items1).
    { unfold d1. cbn [set_dragItems dragItemsForChoice]. now rewrite Nat.eqb_refl. }
    assert (Hno1 : map itemno items1 = map itemno items).
    { apply update_nth_map. reflexivity. }
    assert (Hlen1 : List.length items1 = List.length items).
    { rewrite <- (length_map itemno items1), Hno1. apply length_map. }
    assert (Hnd1 : NoDup (map itemno items1)) by now rewrite Hno1.
    assert (Hle1 : Forall (fun x => (itemno x <= List.length items1)%nat) items1).
    { rewrite Hlen1. apply Forall_forall. intros x Hx.
      assert (Hi : In (itemno x) (map itemno items)) by (rewrite <- Hno1; now apply in_map).
      apply in_map_iff in Hi as (y & <- & Hy).
      rewrite Forall_forall in Hle. now apply Hle. }
    assert (Hdrag1 : Forall (fun x => beingdragged x = false) items1).
    { apply update_nth_Forall; [exact Hothers|reflexivity]. }
    assert (He1 : nth_error items1 k = Some (removeClass_beingdragged e)).
    { now apply update_nth_hit. }
    set (bgxy := fun x : DragItem => convertToBgImgXY d (offset_array x)).
    set (kept := flat_map
                   (fun i => filter (fun x => negb (beingdragged x) && coordsInBgImg d (bgxy x))
                                    (bucket itemno items1 i))
                   (seq 0 (S (List.length items1)))).
    assert (Hlt1 : Forall (fun x => (itemno x < S (List.length items1))%nat) items1).
    { eapply Forall_impl; [|exact Hle1]. cbn. intros; lia. }
    assert (Hfilter : filter (fun x => negb (beingdragged x) && coordsInBgImg d (bgxy x)) items1
                      = filter (fun x => coordsInBgImg d (bgxy x)) items1).
    { clear - Hdrag1. induction Hdrag1 as [|x r Hx _ IH]; [reflexivity|].
      cbn [filter]. rewrite Hx, IH. reflexivity. }
    assert (Hsave : saveCoordsForChoice d1 c (Some [removeClass_beingdragged e])
                    = Returned (set_val d1 c (encode (map bgxy kept)))).
    { pose proof (saveCoordsForChoice_member d1 c (removeClass_beingdragged e) []) as Hs.
      rewrite Hitems1 in Hs.
      apply Hs; [exact Hnd1|exact Hle1|]. eapply nth_error_In. exact He1. }
    set (value := encode (map bgxy kept)) in *.
    set (d2 := set_val d1 c value) in *.
    set (input2 := {| choice := choice input; val := value;
                      infinite := infinite input; noofdrags := noofdrags input |}).
    assert (Hin2 : In input2 (inputsForChoices d2)).
    { unfold d2, set_val. cbn [inputsForChoices]. apply in_map_iff.
      exists input. split; [|exact Hin]. fold c. rewrite Nat.eqb_refl. reflexivity. }
    assert (Hinputs2 : NoDup (map choice (inputsForChoices d2))).
    { unfold d2, set_val. cbn [inputsForChoices]. rewrite map_map.
      erewrite map_ext; [exact Hinputs|].
      intros i. cbn. now destruct (choice i =? c)%nat. }
    assert (Hcoords : getCoords d2 input2
                      = map (fun x => point (left (drag_offset x)
                                             + (left (position (bgImage d))
                                                - left (offset (bgImage d))),
                                             top (drag_offset x)
                                             + (top (position (bgImage d))
                                                - top (offset (bgImage d))))%Z) kept
                        ++ (if infinite input || (List.length kept <? noofdrags input)%nat
                            then [dragHomeXY d2 c] else [])).
    { unfold getCoords. cbn [choice val infinite noofdrags input2].
      fold c. unfold dragItemBeingDragged.
      change (dragItemsForChoice d2 c) with (dragItemsForChoice d1 c). rewrite Hitems1.
      assert (Hnone : filter beingdragged items1 = []).
      { clear - Hdrag1. induction Hdrag1 as [|x r Hx _ IH]; [reflexivity|].
        cbn [filter]. now rewrite Hx. }
      rewrite Hnone. change (0 <? List.length (@nil DragItem))%nat with false.
      unfold value, bgxy. rewrite (coords_of_val_saved d d2 kept eq_refl).
      rewrite length_map, Nat.add_0_r.
      destruct (infinite input || (List.length kept <? noofdrags input)%nat);
        [reflexivity|now rewrite app_nil_r]. }
    exists kept, (redrawDrags d2).
    split; [|split; [|split; [|split]]].
    + unfold dragEnd. cbv zeta. fold items. fold items1. fold d1.
      rewrite Hitems1, He1, Hsave. reflexivity.
    + change (Permutation kept (filter (fun x => coordsInBgImg d (bgxy x)) items1)).
      rewrite <- Hfilter. unfold kept. rewrite <- ListFacts.filter_flat_map.
      apply ListFacts.Permutation_filter, ListFacts.buckets_permutation, Hlt1.
    + apply (ListFacts.buckets_sorted itemno _ items1 0 (S (List.length items1)) Hnd1).
    + rewrite redrawDrags_inputs. reflexivity.
    + pose proof (redrawDrags_items d2 input2 Hin2 Hinputs2) as Hafter.
      cbn [choice input2] in Hafter. fold c in Hafter.
      change (dragItemsForChoice d2 c) with (dragItemsForChoice d1 c) in Hafter.
      rewrite Hitems1 in Hafter.
      destruct (redraw_choice_numbers (dragItemHome d2 c) (getCoords d2 input2)
                  items1 Hnd1 Hdrag1) as [Hperm Hall].
      rewrite <- Hafter in Hperm, Hall.
      split.
      * rewrite Hcoords, length_app, length_map in Hperm.
        destruct (infinite input || (List.length kept <? noofdrags input)%nat); exact Hperm.
      * apply Forall_forall. intros x Hx. rewrite Forall_forall in Hall.
        destruct (Hall x Hx) as (Hu & Hb & xy & Hxy & Hl & Ht).
        split; [exact Hu|]. split; [exact Hb|].
        intros y Hy.
        rewrite Hcoords in Hxy.
        rewrite nth_error_app1 in Hxy
          by (rewrite length_map; apply nth_error_Some; congruence).
        rewrite nth_error_map, Hy in Hxy. cbn [option_map] in Hxy.
        injection Hxy as <-.
        split; [apply Hl|apply Ht]; reflexivity.
Qed.

Lemma dragEnd_settles_witness :
  exists d' : Doc,
    dragEnd Pages.dragging_page 0 1 = Returned d' /\
    Permutation (map itemno (dragItemsForChoice d' 0)) [0; 1; 2]%nat.
Proof.
  destruct (proj2 (dragEnd_settles Pages.dragging_page 0 1) (Examples.field "70,20;30,40"))
    as (kept & d' & Hr & Hp & _ & _ & Hn & _).
  - cbn. lia.
  - cbn. repeat constructor; cbn; intuition discriminate.
  - cbn. repeat constructor.
  - intros [|[|[|[|j]]]] x Hj Hne; cbn in Hj; try discriminate; try congruence;
      injection Hj as <-; reflexivity.
  - left. reflexivity.
  - reflexivity.
  - cbn. constructor; [intros []|constructor].
  - exists d'. split; [exact Hr|].
    assert (Hl : List.length kept = 2%nat)
      by (rewrite (Permutation_length Hp); vm_compute; reflexivity).
    rewrite Hl in Hn. exact Hn.
Defined.

(** ** The palette *)

Lemma getNextColour_below (t : State) :
  (t_nextColourIndex t < 8)%nat ->
  getNextColour t
  = (VStr (nth (t_nextColourIndex t) colours ""%string),
     {| t_shapes := t_shapes t;
        t_nextColourIndex := S (t_nextColourIndex t) mod 8;
        t_svg := t_svg t |}).
Proof.
  destruct t as [sh i sv]. cbn [t_nextColourIndex t_shapes t_svg]. intros Hi.
  do 8 (destruct i as [|i]; [reflexivity|]). lia.
Qed.

Lemma succ_mod_8 (k : nat) : (S (k mod 8) mod 8 = S k mod 8)%nat.
Proof.
  rewrite <- (Nat.add_1_r (k mod 8)), <- (Nat.add_1_r k).
  apply Nat.Div0.add_mod_idemp_l.
Qed.

(** X8.  After [restartColours], the colours [getNextColour] hands out run
    through the palette in order and start again after the eighth: the
    call after [k] earlier ones returns [colours[k mod 8]], never
    [undefined], and leaves the index at [(k + 1) mod 8]; the shapes and
    the overlay are not touched. *)
Theorem palette_cycles (t : State) (k : nat) :
  t_nextColourIndex (Nat.iter k (fun s => snd (getNextColour s)) (restartColours t))
  = (k mod 8)%nat /\
  t_shapes (Nat.iter k (fun s => snd (getNextColour s)) (restartColours t)) = t_shapes t /\
  t_svg (Nat.iter k (fun s => snd (getNextColour s)) (restartColours t)) = t_svg t /\
  exists c : string,
    nth_error colours (k mod 8) = Some c /\
    fst (getNextColour (Nat.iter k (fun s => snd (getNextColour s)) (restartColours t)))
    = VStr c.
Proof.
  assert (Hinv : t_nextColourIndex
                   (Nat.iter k (fun s => snd (getNextColour s)) (restartColours t))
                 = (k mod 8)%nat /\
                 t_shapes (Nat.iter k (fun s => snd (getNextColour s)) (restartColours t))
                 = t_shapes t /\
                 t_svg (Nat.iter k (fun s => snd (getNextColour s)) (restartColours t))
                 = t_svg t).
  { induction k as [|k (Hi & Hs & Hv)]; [repeat split|].
    rewrite !Nat.iter_succ. cbv beta.
    set (s := Nat.iter k _ _) in *.
    assert (Hlt : (t_nextColourIndex s < 8)%nat)
      by (rewrite Hi; apply Nat.mod_upper_bound; discriminate).
    rewrite (getNextColour_below s Hlt). cbn [snd t_nextColourIndex t_shapes t_svg].
    rewrite Hi, succ_mod_8. auto. }
  destruct Hinv as (Hi & Hs & Hv).
  split; [exact Hi|]. split; [exact Hs|]. split; [exact Hv|].
  set (s := Nat.iter k _ _) in *.
  assert (Hlt : (k mod 8 < 8)%nat) by (apply Nat.mod_upper_bound; discriminate).
  exists (nth (k mod 8) colours ""%string). split.
  - now apply nth_error_nth'.
  - rewrite (getNextColour_below s) by (now rewrite Hi). cbn [fst]. now rewrite Hi.
Qed.

(** ** The registry of shapes *)

Lemma array_get_set_other (a : Shapes) (i j : nat) (v : Shape) :
  j <> i -> array_get (array_set a i v) j = array_get a j.
Proof.
  unfold array_get. revert a j.
  induction i as [|i IH]; intros [|x r] [|j] Hne; cbn [array_set nth_error];
    try reflexivity; try congruence.
  - now destruct j.
  - rewrite IH by congruence. now destruct j.
  - apply IH. congruence.
Qed.

Lemma array_set_length (a : Shapes) (i : nat) (v : Shape) :
  List.length (array_set a i v) = Nat.max (List.length a) (S i).
Proof.
  revert a. induction i as [|i IH]; intros [|x r]; cbn [array_set List.length];
    try reflexivity.
  - lia.
  - rewrite IH. cbn [List.length]. lia.
  - rewrite IH. lia.
Qed.

(** What a handler does depends on the registry only through the entry it
    writes. *)
Lemma drawShape_result (d : Doc) (dropzoneno : nat) (shape coords colour : string) :
  exists r : option (Shape * array),
    (forall shapes,
        drawShape d shapes dropzoneno shape coords colour
        = match r with
          | Some (s, a) => (array_set shapes dropzoneno s, Some a)
          | None => (shapes, None)
          end) /\
    (forall s a, r = Some (s, a) ->
                 attr "id" s = Some (dz dropzoneno) /\ attr "fill" s = Some colour).
Proof.
  unfold drawShape.
  destruct (String.eqb shape "circle").
  { unfold addShape_circle.
    destruct (Js.match_circle coords) as [parts|];
      [|exists None; split; [reflexivity|discriminate]].
    destruct (List.length parts =? 4)%nat;
      [|exists None; split; [reflexivity|discriminate]].
    destruct (coordsInBgImg d _);
      [|exists None; split; [reflexivity|discriminate]].
    eexists (Some (_, _)). split; [reflexivity|].
    intros s a E. apply (f_equal (option_map fst)) in E. cbn [option_map fst] in E.
    apply (f_equal (fun o => match o with Some x => x | None => s end)) in E.
    subst s. split; reflexivity. }
  destruct (String.eqb shape "rectangle").
  { unfold addShape_rectangle.
    destruct (Js.match_rectangle coords) as [parts|];
      [|exists None; split; [reflexivity|discriminate]].
    destruct (List.length parts =? 5)%nat;
      [|exists None; split; [reflexivity|discriminate]].
    destruct (coordsInBgImg d _);
      [|exists None; split; [reflexivity|discriminate]].
    eexists (Some (_, _)). split; [reflexivity|].
    intros s a E. apply (f_equal (option_map fst)) in E. cbn [option_map fst] in E.
    apply (f_equal (fun o => match o with Some x => x | None => s end)) in E.
    subst s. split; reflexivity. }
  destruct (String.eqb shape "polygon").
  { unfold addShape_polygon.
    destruct (2 <? List.length (polygon_xy d coords))%nat;
      [|exists None; split; [reflexivity|discriminate]].
    destruct (fold_left minmax_step _ _) as [[a b] [c e]].
    eexists (Some (_, _)). split; [reflexivity|].
    intros s an E. apply (f_equal (option_map fst)) in E. cbn [option_map fst] in E.
    apply (f_equal (fun o => match o with Some x => x | None => s end)) in E.
    subst s. split; reflexivity. }
  exists None. split; [reflexivity|discriminate].
Qed.

(** X9.  Whatever the shape name and the geometry, drawing a drop zone
    leaves every entry of the registry but its own as it was and never
    shortens the registry.  When no anchor comes back the registry is
    untouched, so an earlier shape of that drop zone stays.  When an
    anchor comes back, the entry of the drop zone holds a shape with the id
    [dz<dropzoneno>] and the colour as [fill], and shape and anchor are the
    same whatever the registry held. *)
Theorem drawShape_frame (d : Doc) (shapes : Shapes) (dropzoneno : nat)
    (shape coords colour : string) :
  (forall j, j <> dropzoneno ->
     array_get (fst (drawShape d shapes dropzoneno shape coords colour)) j
     = array_get shapes j) /\
  (List.length shapes
   <= List.length (fst (drawShape d shapes dropzoneno shape coords colour)))%nat /\
  (snd (drawShape d shapes dropzoneno shape coords colour) = None ->
   fst (drawShape d shapes dropzoneno shape coords colour) = shapes) /\
  (forall anchor,
     snd (drawShape d shapes dropzoneno shape coords colour) = Some anchor ->
     exists s : Shape,
       array_get (fst (drawShape d shapes dropzoneno shape coords colour)) dropzoneno
       = Some s /\
       attr "id" s = Some (dz dropzoneno) /\
       attr "fill" s = Some colour /\
       forall shapes',
         drawShape d shapes' dropzoneno shape coords colour
         = (array_set shapes' dropzoneno s, Some anchor)).
Proof.
  destruct (drawShape_result d dropzoneno shape coords colour) as (r & Hr & Hattr).
  rewrite (Hr shapes). destruct r as [[s a]|]; cbn [fst snd].
  - split; [intros j Hj; now apply array_get_set_other|].
    split; [rewrite array_set_length; lia|].
    split; [discriminate|].
    intros anchor E.
    assert (Ea : a = anchor)
      by (apply (f_equal (fun o => match o with Some x => x | None => a end)) in E;
          exact E).
    subst anchor. exists s. split; [apply array_get_set|].
    destruct (Hattr s a eq_refl) as [Hid Hfill].
    split; [exact Hid|]. split; [exact Hfill|]. exact Hr.
  - split; [reflexivity|]. split; [lia|]. split; [reflexivity|discriminate].
Qed.

(** ** Redrawing the drop zones *)

Lemma redrawDrops_fold (d : Doc) (zones : list Dropzone) (k : nat) (s : State) :
  t_nextColourIndex s = (k mod 8)%nat ->
  t_nextColourIndex
    (fold_left (redrawDrops_step d) (combine (seq k (List.length zones)) zones) s)
  = ((k + List.length zones) mod 8)%nat /\
  t_svg (fold_left (redrawDrops_step d) (combine (seq k (List.length zones)) zones) s)
  = t_svg s /\
  (forall i z, nth_error zones i = Some z ->
     array_get
       (t_shapes
          (fold_left (redrawDrops_step d) (combine (seq k (List.length zones)) zones) s))
       (k + i)
     = match snd (drawShape d [] (k + i) (dz_shape z) (dz_coords z)
                    (nth ((k + i) mod 8) colours ""%string)) with
       | Some _ =>
           array_get (fst (drawShape d [] (k + i) (dz_shape z) (dz_coords z)
                             (nth ((k + i) mod 8) colours ""%string))) (k + i)
       | None => array_get (t_shapes s) (k + i)
       end) /\
  (forall j, (j < k \/ k + List.length zones <= j)%nat ->
     array_get
       (t_shapes
          (fold_left (redrawDrops_step d) (combine (seq k (List.length zones)) zones) s))
       j
     = array_get (t_shapes s) j).
Proof.
  revert k s. induction zones as [|z r IH]; intros k s Hk.
  - cbn [List.length seq combine fold_left]. rewrite Nat.add_0_r.
    split; [exact Hk|]. split; [reflexivity|].
    split; [intros [|i] z'; discriminate|reflexivity].
  - cbn [List.length seq combine fold_left].
    assert (Hlt : (t_nextColourIndex s < 8)%nat)
      by (rewrite Hk; apply Nat.mod_upper_bound; discriminate).
    assert (Hstep : redrawDrops_step d s (k, z)
                    = {| t_shapes :=
                           fst (drawShape d (t_shapes s) k (dz_shape z) (dz_coords z)
                                  (nth (k mod 8) colours ""%string));
                         t_nextColourIndex := (S k mod 8)%nat;
                         t_svg := t_svg s |}).
    { unfold redrawDrops_step. rewrite (getNextColour_below s Hlt).
      cbn [t_shapes t_nextColourIndex t_svg concat_toString].
      now rewrite Hk, succ_mod_8. }
    rewrite Hstep.
    set (s1 := {| t_shapes := _; t_nextColourIndex := (S k mod 8)%nat; t_svg := t_svg s |}).
    destruct (IH (S k) s1 eq_refl) as (Hi & Hv & Hin & Hout).
    destruct (drawShape_result d k (dz_shape z) (dz_coords z)
                (nth (k mod 8) colours ""%string)) as (res & Hres & _).
    assert (Hframe : forall j, j <> k -> array_get (t_shapes s1) j = array_get (t_shapes s) j).
    { intros j Hj. unfold s1. cbn [t_shapes]. rewrite (Hres (t_shapes s)).
      destruct res as [[sh a]|]; cbn [fst]; [now apply array_get_set_other|reflexivity]. }
    split; [|split; [|split]].
    + rewrite Hi. f_equal. lia.
    + exact Hv.
    + intros [|i] z' Hz.
      * cbn [nth_error] in Hz. assert (z' = z) by congruence. subst z'.
        rewrite Nat.add_0_r. rewrite Hout by lia.
        unfold s1. cbn [t_shapes]. rewrite (Hres (t_shapes s)), (Hres []).
        destruct res as [[sh a]|]; cbn [fst snd]; [|reflexivity].
        now rewrite !array_get_set.
      * cbn [nth_error] in Hz. specialize (Hin i z' Hz).
        replace (k + S i)%nat with (S k + i)%nat by lia.
        rewrite Hin. destruct (snd _); [reflexivity|]. apply Hframe. lia.
    + intros j Hj. rewrite Hout by lia. apply Hframe. lia.
Qed.

(** X10.  The drop-zone half of a redraw does nothing when there are no
    drop zones.  Otherwise drop zone [i] is drawn with [colours[i mod 8]]:
    its entry in the registry becomes the shape its handler builds with
    that colour, or stays what it was when the handler returns no anchor;
    entries past the last drop zone stay; the colour index ends at the
    number of drop zones modulo 8; and, unless the registry is still
    empty, the overlay is rebuilt from the entries present, one pixel
    right of and below the position of the image and with its width and
    height. *)
Theorem redrawDrops_registry (d : Doc) (dropzones : list Dropzone) (t : State) :
  (dropzones = [] -> redrawDrops d dropzones t = t) /\
  (dropzones <> [] ->
   t_nextColourIndex (redrawDrops d dropzones t) = (List.length dropzones mod 8)%nat /\
   (forall i z, nth_error dropzones i = Some z ->
      array_get (t_shapes (redrawDrops d dropzones t)) i
      = match snd (drawShape d [] i (dz_shape z) (dz_coords z)
                     (nth (i mod 8) colours ""%string)) with
        | Some _ =>
            array_get (fst (drawShape d [] i (dz_shape z) (dz_coords z)
                              (nth (i mod 8) colours ""%string))) i
        | None => array_get (t_shapes t) i
        end) /\
   (forall j, (List.length dropzones <= j)%nat ->
      array_get (t_shapes (redrawDrops d dropzones t)) j = array_get (t_shapes t) j) /\
   t_svg (redrawDrops d dropzones t)
   = if (List.length (t_shapes (redrawDrops d dropzones t)) <? 1)%nat then t_svg t
     else Some {| svg_shapes := present (t_shapes (redrawDrops d dropzones t));
                  svg_left := left (position (bgImage d)) + 1;
                  svg_top := top (position (bgImage d)) + 1;
                  svg_width := width (bgImage d);
                  svg_height := height (bgImage d) |}).
Proof.
  split; [intros ->; reflexivity|].
  intros Hne. unfold redrawDrops.
  destruct (Nat.eqb_spec (List.length dropzones) 0) as [E|_];
    [destruct dropzones; [congruence|discriminate]|].
  destruct (redrawDrops_fold d dropzones 0 (restartColours t) eq_refl)
    as (Hi & Hv & Hin & Hout).
  set (s := fold_left _ _ _) in *.
  cbn [Nat.add restartColours t_shapes t_svg] in Hi, Hv, Hin, Hout.
  assert (Hd : drawDropzones d s
               = if (List.length (t_shapes s) <? 1)%nat then s
                 else {| t_shapes := t_shapes s;
                         t_nextColourIndex := t_nextColourIndex s;
                         t_svg := Some {| svg_shapes := present (t_shapes s);
                                          svg_left := left (position (bgImage d)) + 1;
                                          svg_top := top (position (bgImage d)) + 1;
                                          svg_width := width (bgImage d);
                                          svg_height := height (bgImage d) |} |})
    by reflexivity.
  assert (Hs : t_shapes (drawDropzones d s) = t_shapes s)
    by (rewrite Hd; now destruct (List.length (t_shapes s) <? 1)%nat).
  rewrite Hs.
  split; [|split; [|split]].
  - rewrite Hd. destruct (List.length (t_shapes s) <? 1)%nat; exact Hi.
  - exact Hin.
  - intros j Hj. apply Hout. now right.
  - rewrite Hd. destruct (List.length (t_shapes s) <? 1)%nat; [exact Hv|reflexivity].
Qed.

(** Three drop zones on a 100x100 image: the rectangle reaches past the
    right edge and is not drawn, so its entry stays a hole and the overlay
    holds the circle and the polygon. *)
Lemma redrawDrops_registry_witness :
  t_nextColourIndex (redrawDrops Examples.offset_page Pages.three_zones Pages.fresh)
  = 3%nat /\
  array_get (t_shapes (redrawDrops Examples.offset_page Pages.three_zones Pages.fresh)) 1
  = None /\
  option_map (fun s => map tag (svg_shapes s))
    (t_svg (redrawDrops Examples.offset_page Pages.three_zones Pages.fresh))
  = Some ["circle"%string; "polygon"%string].
Proof.
  destruct (proj2 (redrawDrops_registry Examples.offset_page Pages.three_zones Pages.fresh))
    as (Hi & Hin & _ & Hsvg); [discriminate|].
  split; [exact Hi|]. split.
  - rewrite (Hin 1%nat _ eq_refl). reflexivity.
  - rewrite Hsvg. reflexivity.
Defined.

(** ** Class names *)

Section ClassNames.

Variable prefix : string.

Lemma strip_prefix_spec (s r : string) :
  strip_prefix prefix s = Some r -> s = (prefix ++ r)%string.
Proof.
  revert s. induction prefix as [|a p IH]; intros s; cbn [strip_prefix append].
  - now intros [= ->].
  - destruct s as [|b t]; [discriminate|].
    destruct (Ascii.eqb_spec a b) as [->|_]; [|discriminate].
    intros H. now rewrite (IH t H).
Qed.

Lemma strip_prefix_app (r : string) : strip_prefix prefix (prefix ++ r) = Some r.
Proof.
  induction prefix as [|a p IH]; cbn [strip_prefix append]; [reflexivity|].
  now rewrite Ascii.eqb_refl.
Qed.

Lemma digits_at_end_spec (s g : string) :
  digits_at_end s = Some g -> s = g /\ Js.is_digits g.
Proof.
  unfold digits_at_end. destruct (Js.digits1 s) as [[g' r]|] eqn:E; [|discriminate].
  destruct r; [|discriminate]. intros [= <-].
  destruct (RegexFacts.digits1_spec _ _ _ E) as (-> & Hd & _).
  now rewrite RegexFacts.app_empty_r.
Qed.

Lemma digits_at_end_digits (ds : string) : Js.is_digits ds -> digits_at_end ds = Some ds.
Proof.
  intros Hd. unfold digits_at_end.
  rewrite <- (RegexFacts.app_empty_r ds) at 1.
  now rewrite (RegexFacts.digits1_app ds "" Hd eq_refl).
Qed.

Lemma search_found {A : Type} (f : string -> option A) (pre t : string) (r : A) :
  f t = Some r -> exists r', Js.search f (pre ++ t) = Some r'.
Proof.
  intros Hf. induction pre as [|c p IH]; cbn [append].
  - exists r. now apply RegexFacts.search_head.
  - cbn [Js.search]. destruct (f (String c (p ++ t))) as [r'|]; [now exists r'|exact IH].
Qed.

(** A class name that passes the test has digits at its end, so the
    second pattern matches it. *)
Lemma test_then_exec (name : string) :
  test_prefix_digits prefix name = true ->
  exists m, exec_digits_at_end name = Some m.
Proof.
  unfold test_prefix_digits, exec_digits_at_end.
  destruct (strip_prefix prefix name) as [r|] eqn:Es; [|discriminate].
  destruct (digits_at_end r) as [g|] eqn:Eg; [|discriminate]. intros _.
  rewrite (strip_prefix_spec _ _ Es). now apply (search_found _ _ _ g).
Qed.

Lemma first_numeric_suffix_None (names : list string) :
  first_numeric_suffix prefix names = None <->
  Forall (fun name => test_prefix_digits prefix name = false) names.
Proof.
  induction names as [|c r IH]; cbn [first_numeric_suffix].
  - split; [constructor|reflexivity].
  - destruct (test_prefix_digits prefix c) eqn:Et.
    + destruct (test_then_exec c Et) as [m ->].
      split; [discriminate|]. intros H. inversion H; congruence.
    + rewrite IH. split; [now constructor|]. intros H. now inversion H.
Qed.

Lemma first_numeric_suffix_skip (pre rest : list string) :
  Forall (fun name => test_prefix_digits prefix name = false) pre ->
  first_numeric_suffix prefix (pre ++ rest) = first_numeric_suffix prefix rest.
Proof.
  induction 1 as [|c r Hc _ IH]; [reflexivity|].
  cbn [app first_numeric_suffix]. now rewrite Hc.
Qed.

End ClassNames.

Lemma join_not_empty (sep : string) (pre post : list string) (c : string) :
  c <> EmptyString -> Js.join sep (pre ++ c :: post) <> EmptyString.
Proof.
  intros Hc. induction pre as [|x r IH].
  - cbn [app Js.join]. destruct post; [exact Hc|].
    destruct c; [congruence|discriminate].
  - cbn [app]. destruct (r ++ c :: post) as [|y l] eqn:E; [now destruct r|].
    cbn [Js.join]. destruct x; cbn [append]; [|discriminate].
    destruct sep; cbn [append]; [exact IH|discriminate].
Qed.

Lemma letter_not_digit (c : ascii) : is_letter c = true -> Js.is_digit c = false.
Proof.
  unfold is_letter, Js.is_digit. cbv zeta.
  rewrite orb_true_iff, !andb_true_iff, !Nat.leb_le, andb_false_iff, !Nat.leb_gt. lia.
Qed.

Lemma literal_prefix_no_digit (prefix : string) :
  literal_prefix prefix -> Js.all_chars (fun c => negb (Js.is_digit c)) prefix = true.
Proof.
  unfold literal_prefix. induction prefix as [|c p IH]; cbn [Js.all_chars]; [reflexivity|].
  rewrite !andb_true_iff. intros [Hc Hp].
  split; [now rewrite (letter_not_digit c Hc)|now apply IH].
Qed.

(** The first pattern accepts the names made of the prefix and digits. *)
Lemma test_prefix_digits_iff (prefix name : string) :
  test_prefix_digits prefix name = true <->
  exists ds, name = (prefix ++ ds)%string /\ Js.is_digits ds.
Proof.
  unfold test_prefix_digits. split.
  - destruct (strip_prefix prefix name) as [r|] eqn:Es; [|discriminate].
    destruct (digits_at_end r) as [g|] eqn:Eg; [|discriminate]. intros _.
    destruct (digits_at_end_spec r g Eg) as [-> Hg].
    exists g. split; [now apply strip_prefix_spec|exact Hg].
  - intros (ds & -> & Hd). now rewrite strip_prefix_app, (digits_at_end_digits ds Hd).
Qed.

Lemma test_prefix_digits_false (prefix name : string) :
  test_prefix_digits prefix name = false <->
  forall ds, name = (prefix ++ ds)%string -> ~ Js.is_digits ds.
Proof.
  split.
  - intros Hf ds E Hd.
    assert (Ht : test_prefix_digits prefix name = true)
      by (apply test_prefix_digits_iff; now exists ds).
    congruence.
  - intros Hn. destruct (test_prefix_digits prefix name) eqn:Et; [|reflexivity].
    apply test_prefix_digits_iff in Et as (ds & E & Hd). now destruct (Hn ds E).
Qed.

Lemma Forall_test_false (prefix : string) (names : list string) :
  Forall (fun name => test_prefix_digits prefix name = false) names <->
  Forall (fun name => forall ds, name = (prefix ++ ds)%string -> ~ Js.is_digits ds) names.
Proof.
  split; intros H; eapply Forall_impl; try exact H; cbn; intros name;
    apply test_prefix_digits_false.
Qed.

(** The second pattern finds, in a name made of a prefix of letters and
    digits after it, these digits. *)
Lemma exec_prefix_digits (prefix ds : string) :
  literal_prefix prefix -> Js.is_digits ds ->
  exec_digits_at_end (prefix ++ ds) = Some ds.
Proof.
  intros Hp Hd. unfold exec_digits_at_end.
  rewrite RegexFacts.search_skip;
    [|intros c t Hc; unfold digits_at_end; now rewrite RegexFacts.digits1_not_digit
     |now apply literal_prefix_no_digit].
  apply RegexFacts.search_head. now apply digits_at_end_digits.
Qed.

(** X11.  For a prefix made of letters, as ['choice'] and ['noofdrags']
    are, the first pattern of [getClassnameNumericSuffix] accepts exactly
    the class names made of the prefix followed by one or more digits, and
    the second pattern finds in such a name these digits, so that the match
    the number is read from is never [null].  The function returns [null]
    exactly when the node has no class attribute, an empty one, or one
    none of whose names, split at spaces, is the prefix followed by
    digits only.  A node for which it returns [null] with the prefix
    ['choice'] has choice number 0. *)
Theorem getClassnameNumericSuffix_null (classes : option string) (prefix : string) :
  literal_prefix prefix ->
  (forall name,
     test_prefix_digits prefix name = true <->
     exists ds, name = (prefix ++ ds)%string /\ Js.is_digits ds) /\
  (forall ds, Js.is_digits ds -> exec_digits_at_end (prefix ++ ds) = Some ds) /\
  (getClassnameNumericSuffix classes prefix = None <->
   classes = None \/ classes = Some ""%string \/
   exists c, classes = Some c /\
             Forall (fun name => forall ds, name = (prefix ++ ds)%string ->
                                            ~ Js.is_digits ds)
                    (Js.split " " c)) /\
  (prefix = "choice"%string ->
   getClassnameNumericSuffix classes prefix = None ->
   getChoiceNoForNode classes = Fin 0).
Proof.
  intros Hp.
  split; [intros name; apply test_prefix_digits_iff|].
  split; [intros ds Hd; now apply exec_prefix_digits|].
  split.
  - unfold getClassnameNumericSuffix. destruct classes as [c|]; [|now split; auto].
    destruct (String.eqb_spec c "") as [->|Hne].
    + split; auto.
    + rewrite first_numeric_suffix_None, Forall_test_false. split.
      * intros H. right. right. now exists c.
      * intros [H|[H|(c' & H & Hall)]]; congruence.
  - intros -> Hnull. unfold getChoiceNoForNode. now rewrite Hnull.
Qed.

Lemma getClassnameNumericSuffix_null_witness :
  getClassnameNumericSuffix (Some "dragitem item2"%string) "choice" = None /\
  getChoiceNoForNode (Some "dragitem item2"%string) = Fin 0.
Proof.
  destruct (getClassnameNumericSuffix_null (Some "dragitem item2"%string) "choice" eq_refl)
    as (_ & _ & Hnull & Hzero).
  assert (H : getClassnameNumericSuffix (Some "dragitem item2"%string) "choice" = None).
  { apply Hnull. right. right. exists "dragitem item2"%string.
    split; [reflexivity|].
    repeat constructor; intros ds E; discriminate E. }
  split; [exact H|]. apply Hzero; [reflexivity|exact H].
Defined.

(** X12.  For a prefix made of letters and a class attribute of
    space-separated names, the number read is that of the first name made
    of the prefix and digits only: the digits are read in decimal, leading
    zeros allowed, whatever names come before or after it.  With the
    prefix ['choice'] this is the choice number of the node. *)
Theorem class_number_read (prefix ds : string) (pre post : list string) :
  literal_prefix prefix ->
  Js.is_digits ds ->
  Forall (Js.no_sep " ") (pre ++ (prefix ++ ds)%string :: post) ->
  Forall (fun name => forall ds', name = (prefix ++ ds')%string -> ~ Js.is_digits ds') pre ->
  exists z : Z,
    (0 <= z)%Z /\
    Js.StringToNumber ds = Fin z /\
    getClassnameNumericSuffix
      (Some (Js.join " " (pre ++ (prefix ++ ds)%string :: post))) prefix
    = Some (Fin z) /\
    (prefix = "choice"%string ->
     getChoiceNoForNode (Some (Js.join " " (pre ++ (prefix ++ ds)%string :: post)))
     = Fin z).
Proof.
  intros Hp Hd Hsep Hpre. apply Forall_test_false in Hpre.
  destruct (RegexFacts.Number_digits ds Hd) as (z & Hz & Hnum).
  exists z. split; [exact Hz|]. split; [exact Hnum|].
  assert (Hread : getClassnameNumericSuffix
                    (Some (Js.join " " (pre ++ (prefix ++ ds)%string :: post))) prefix
                  = Some (Fin z)).
  { unfold getClassnameNumericSuffix.
    destruct (String.eqb_spec (Js.join " " (pre ++ (prefix ++ ds)%string :: post)) "")
      as [E|_].
    - exfalso. revert E. apply join_not_empty.
      destruct Hd as [Hne _]. destruct prefix; [exact Hne|discriminate].
    - rewrite SplitFacts.split_join; [|now destruct pre|exact Hsep].
      rewrite (first_numeric_suffix_skip prefix pre _ Hpre).
      cbn [first_numeric_suffix].
      rewrite (proj2 (test_prefix_digits_iff prefix (prefix ++ ds))
                 (ex_intro _ ds (conj eq_refl Hd))).
      rewrite (exec_prefix_digits prefix ds Hp Hd).
      cbn [Js.Number]. now rewrite Hnum. }
  split; [exact Hread|].
  intros ->. unfold getChoiceNoForNode. now rewrite Hread.
Qed.

Lemma class_number_read_witness :
  exists z : Z,
    (0 <= z)%Z /\
    Js.StringToNumber "07" = Fin z /\
    getClassnameNumericSuffix (Some "dragitem choice07 item2"%string) "choice" = Some (Fin z) /\
    ("choice"%string = "choice"%string ->
     getChoiceNoForNode (Some "dragitem choice07 item2"%string) = Fin z).
Proof.
  apply (class_number_read "choice" "07" ["dragitem"%string] ["item2"%string]).
  - reflexivity.
  - split; [discriminate|reflexivity].
  - repeat constructor.
  - repeat constructor. intros ds E. discriminate E.
Defined.

(** ** Moving a marker from the keyboard *)

Lemma keys_Remove (keyCode : nat) :
  keys keyCode = Some Remove -> keyCode = 32%nat \/ keyCode = 27%nat.
Proof.
  unfold keys.
  repeat match goal with
         | |- context [(keyCode =? ?n)%nat] => destruct (Nat.eqb_spec keyCode n)
         end; try discriminate; auto.
Qed.

Lemma nudged (d : Doc) (drag : DragItem) (l t : Z) :
  (0 <= width (bgImage d))%Z -> (0 <= height (bgImage d))%Z ->
  (Z.abs (l - left (drag_offset drag)) + Z.abs (t - top (drag_offset drag)) <= 1)%Z ->
  exists cx cy : Z,
    constrainToBgImg d [VNum (Fin l); VNum (Fin t)]
    = convertToWindowXY d (point (cx, cy)) /\
    (0 <= cx <= width (bgImage d))%Z /\ (0 <= cy <= height (bgImage d))%Z /\
    ((0 <= left (drag_offset drag) - left (offset (bgImage d)) - 1 <= width (bgImage d))%Z ->
     (0 <= top (drag_offset drag) - top (offset (bgImage d)) - 1 <= height (bgImage d))%Z ->
     (Z.abs (cx - (left (drag_offset drag) - left (offset (bgImage d)) - 1))
      + Z.abs (cy - (top (drag_offset drag) - top (offset (bgImage d)) - 1)) <= 1)%Z).
Proof.
  intros HW HH Hd.
  eexists _, _. split.
  - change [VNum (Fin l); VNum (Fin t)] with (point (l, t)).
    rewrite (constrainToBgImg_point d l t), convertToWindowXY_point. reflexivity.
  - lia.
Qed.

(** X13.  On an image of non-negative width and height, a key that
    [dropzoneKeyPress] handles sends the marker either to the home of its
    choice, for Space and Escape, or to the window coordinates of an image
    point within [[0, width] x [0, height]]; a marker that was within
    that rectangle moves by at most one pixel, along one axis. *)
Theorem keypress_stays_in_image (d : Doc) (choiceNo : nat) (drag : DragItem)
    (keyCode : nat) (xy : array) :
  (0 <= width (bgImage d))%Z -> (0 <= height (bgImage d))%Z ->
  dropzoneKeyPress_xy d choiceNo drag keyCode = Some xy ->
  (xy = dragHomeXY d choiceNo /\ (keyCode = 32%nat \/ keyCode = 27%nat)) \/
  exists cx cy : Z,
    xy = convertToWindowXY d (point (cx, cy)) /\
    (0 <= cx <= width (bgImage d))%Z /\ (0 <= cy <= height (bgImage d))%Z /\
    ((0 <= left (drag_offset drag) - left (offset (bgImage d)) - 1 <= width (bgImage d))%Z ->
     (0 <= top (drag_offset drag) - top (offset (bgImage d)) - 1 <= height (bgImage d))%Z ->
     (Z.abs (cx - (left (drag_offset drag) - left (offset (bgImage d)) - 1))
      + Z.abs (cy - (top (drag_offset drag) - top (offset (bgImage d)) - 1)) <= 1)%Z).
Proof.
  intros HW HH. unfold dropzoneKeyPress_xy.
  destruct (keys keyCode) as [direction|] eqn:Ek; [|discriminate].
  unfold offset_array, num_of_Z, idx. cbn [nth Js.Number].
  rewrite !JsFacts.sub_Fin, !JsFacts.add_Fin.
  intros E.
  apply (f_equal (fun o => match o with Some v => v | None => xy end)) in E.
  subst xy.
  destruct direction.
  - left. split; [reflexivity|now apply keys_Remove].
  - right. apply nudged; [exact HW|exact HH|lia].
  - right. apply nudged; [exact HW|exact HH|lia].
  - right. apply nudged; [exact HW|exact HH|lia].
  - right. apply nudged; [exact HW|exact HH|lia].
Qed.

Lemma keypress_stays_in_image_witness :
  ([VNum (Fin 1); VNum (Fin 1)]
   = dragHomeXY Examples.offset_page 0 /\ (38 = 32 \/ 38 = 27)%nat) \/
  exists cx cy : Z,
    [VNum (Fin 1); VNum (Fin 1)] = convertToWindowXY Examples.offset_page (point (cx, cy)) /\
    (0 <= cx <= width (bgImage Examples.offset_page))%Z /\
    (0 <= cy <= height (bgImage Examples.offset_page))%Z /\
    ((0 <= left (drag_offset (Examples.marker 0 false 11 21))
           - left (offset (bgImage Examples.offset_page)) - 1
        <= width (bgImage Examples.offset_page))%Z ->
     (0 <= top (drag_offset (Examples.marker 0 false 11 21))
           - top (offset (bgImage Examples.offset_page)) - 1
        <= height (bgImage Examples.offset_page))%Z ->
     (Z.abs (cx - (left (drag_offset (Examples.marker 0 false 11 21))
                   - left (offset (bgImage Examples.offset_page)) - 1))
      + Z.abs (cy - (top (drag_offset (Examples.marker 0 false 11 21))
                     - top (offset (bgImage Examples.offset_page)) - 1)) <= 1)%Z).
Proof.
  apply (keypress_stays_in_image Examples.offset_page 0
           (Examples.marker 0 false 11 21) 38 [VNum (Fin 1); VNum (Fin 1)]).
  - cbn. lia.
  - cbn. lia.
  - reflexivity.
Defined.

(** ** Redrawing twice *)

Section RedrawAgain.

Variable draghome : Home.
Variable coords : list array.

Let revive (lo : nat) (e : DragItem) : DragItem :=
  if (lo <=? itemno e)%nat && (itemno e <? List.length coords)%nat
  then place (nth (itemno e) coords []) (set_unneeded false e)
  else e.

(** When every slot has its marker and none is dragged, the loop over the
    slots clones nothing: it revives and places the markers where they
    stand. *)
Lemma redraw_slots_existing (pre cs : list array) (l : list DragItem) :
  coords = pre ++ cs ->
  Forall (fun e => beingdragged e = false) l ->
  (forall i, (List.length pre <= i < List.length coords)%nat -> In i (map itemno l)) ->
  fold_left (redraw_slot draghome) (combine (seq (List.length pre) (List.length cs)) cs) l
  = map (revive (List.length pre)) l.
Proof.
  revert pre l. induction cs as [|xy r IH]; intros pre l Hc Hd Hin.
  - cbn [List.length seq combine fold_left].
    rewrite <- (map_id l) at 1. apply map_ext. intros e. unfold revive.
    rewrite Hc, app_nil_r.
    destruct (Nat.leb_spec (List.length pre) (itemno e));
      destruct (Nat.ltb_spec (itemno e) (List.length pre)); cbn [andb]; try reflexivity; lia.
  - cbn [List.length seq combine fold_left].
    set (k := List.length pre) in *.
    assert (Hn : List.length coords = (k + S (List.length r))%nat).
    { rewrite Hc, length_app. reflexivity. }
    assert (Hxy : nth k coords [] = xy).
    { rewrite Hc, app_nth2 by (unfold k; lia). unfold k. now rewrite Nat.sub_diag. }
    set (h := fun e : DragItem =>
                if (itemno e =? k)%nat then place xy (set_unneeded false e) else e).
    assert (Hslot : redraw_slot draghome l (k, xy) = map h l).
    { unfold redraw_slot.
      assert (Hk : In k (map itemno l)) by (apply Hin; lia).
      apply in_map_iff in Hk as (e & He & Hel).
      assert (Hb : In e (bucket itemno l k)).
      { apply filter_In. split; [exact Hel|]. now apply Nat.eqb_eq. }
      assert (Hnd : hasClass_beingdragged (bucket itemno l k) = false).
      { unfold hasClass_beingdragged.
        destruct (existsb beingdragged (bucket itemno l k)) eqn:E; [|reflexivity].
        apply existsb_exists in E as (x & Hx & Hxd).
        apply filter_In in Hx as [Hx _]. rewrite Forall_forall in Hd.
        rewrite (Hd x Hx) in Hxd. discriminate. }
      rewrite Hnd. destruct (bucket itemno l k); [destruct Hb|reflexivity]. }
    rewrite Hslot.
    specialize (IH (pre ++ [xy]) (map h l)).
    rewrite length_app in IH. cbn [List.length] in IH. fold k in IH.
    rewrite Nat.add_1_r in IH.
    rewrite IH.
    + rewrite map_map. apply map_ext. intros e. unfold revive, h.
      destruct (Nat.eqb_spec (itemno e) k) as [E|E].
      * cbn [place set_unneeded itemno]. rewrite E.
        destruct (Nat.leb_spec (S k) k); [lia|]. cbn [andb].
        destruct (Nat.leb_spec k k); [|lia].
        destruct (Nat.ltb_spec k (List.length coords)); [|lia].
        cbn [andb]. now rewrite Hxy.
      * destruct (Nat.leb_spec (S k) (itemno e));
          destruct (Nat.leb_spec k (itemno e)); try reflexivity; lia.
    + rewrite Hc, <- app_assoc. reflexivity.
    + apply Forall_forall. intros x Hx. apply in_map_iff in Hx as (e & <- & He).
      rewrite Forall_forall in Hd. unfold h.
      destruct (itemno e =? k)%nat; cbn [place set_unneeded beingdragged]; now apply Hd.
    + intros i Hi. rewrite map_map.
      assert (Hi' : In i (map itemno l)) by (apply Hin; lia).
      erewrite map_ext; [exact Hi'|].
      intros e. unfold h. now destruct (itemno e =? k)%nat.
Qed.

Lemma revive_settled (e : DragItem) :
  (itemno e < List.length coords)%nat ->
  unneeded e = false ->
  (forall xy, nth_error coords (itemno e) = Some xy ->
     (forall q, Js.Number (idx xy 0) = Num q -> style_left e = Some (Num q)) /\
     (forall q, Js.Number (idx xy 1) = Num q -> style_top e = Some (Num q))) ->
  revive 0 (set_unneeded true e) = e.
Proof.
  intros Hlt Hu Hst. unfold revive. cbn [set_unneeded itemno].
  destruct (Nat.ltb_spec (itemno e) (List.length coords)); [|lia]. cbn [Nat.leb andb].
  destruct (Hst (nth (itemno e) coords []) (nth_error_nth' coords [] Hlt)) as [Hl Ht].
  destruct e as [i b u txt off sl st]. cbn [itemno unneeded style_left style_top] in *.
  subst u. unfold place, set_unneeded, css.
  cbn [itemno beingdragged unneeded innerText drag_offset style_left style_top].
  f_equal.
  - destruct (Js.Number (idx (nth i coords []) 0)) as [q|]; [|reflexivity].
    symmetry. now apply Hl.
  - destruct (Js.Number (idx (nth i coords []) 1)) as [q|]; [|reflexivity].
    symmetry. now apply Ht.
Qed.

End RedrawAgain.

Lemma redraw_inputs_frame (inputs : list Input) (d : Doc) :
  bgImage (fold_left redraw_input inputs d) = bgImage d /\
  dragItemHome (fold_left redraw_input inputs d) = dragItemHome d.
Proof.
  revert d. induction inputs as [|i r IH]; intros d; cbn [fold_left]; [auto|].
  destruct (IH (redraw_input d i)) as [H1 H2]. now rewrite H1, H2.
Qed.

Lemma redrawDrags_frame (d : Doc) :
  bgImage (redrawDrags d) = bgImage d /\ dragItemHome (redrawDrags d) = dragItemHome d.
Proof.
  destruct (redraw_inputs_frame (inputsForChoices d)
              (map_dragItems (map (set_unneeded true)) d)) as [H1 H2].
  split; [exact H1|exact H2].
Qed.

(** X14.  Redrawing again changes nothing for a choice none of whose
    markers is being dragged: for the field of a choice whose markers carry
    distinct numbers, the markers after a second redraw are those after
    the first, one by one, and the image, the homes and the fields are
    those of the page before. *)
Theorem redraw_twice (d : Doc) (input : Input) :
  In input (inputsForChoices d) ->
  NoDup (map choice (inputsForChoices d)) ->
  NoDup (map itemno (dragItemsForChoice d (choice input))) ->
  Forall (fun e => beingdragged e = false) (dragItemsForChoice d (choice input)) ->
  dragItemsForChoice (redrawDrags (redrawDrags d)) (choice input)
  = dragItemsForChoice (redrawDrags d) (choice input) /\
  bgImage (redrawDrags d) = bgImage d /\
  dragItemHome (redrawDrags d) = dragItemHome d /\
  inputsForChoices (redrawDrags d) = inputsForChoices d.
Proof.
  intros Hin Hnd Hitems Hdrag.
  destruct (redrawDrags_frame d) as [Hbg Hhome].
  split; [|split; [exact Hbg|split; [exact Hhome|apply redrawDrags_inputs]]].
  destruct (redraw_choice_numbers (dragItemHome d (choice input)) (getCoords d input)
              (dragItemsForChoice d (choice input)) Hitems Hdrag) as [Hperm Hall].
  rewrite <- (redrawDrags_items d input Hin Hnd) in Hperm, Hall.
  set (d' := redrawDrags d) in *.
  set (after := dragItemsForChoice d' (choice input)) in *.
  assert (Hnone : forall l, Forall (fun e => beingdragged e = false) l ->
                            filter beingdragged l = []).
  { intros l Hl. induction Hl as [|x r Hx _ IH]; [reflexivity|].
    cbn [filter]. now rewrite Hx. }
  assert (Hafter_drag : Forall (fun e => beingdragged e = false) after).
  { eapply Forall_impl; [|exact Hall]. cbn. intros e (_ & H & _). exact H. }
  assert (Hcoords : getCoords d' input = getCoords d input).
  { apply getCoords_ext; [exact Hbg|now rewrite Hhome|].
    unfold dragItemBeingDragged. fold after.
    now rewrite (Hnone after Hafter_drag), (Hnone _ Hdrag). }
  assert (Hin' : In input (inputsForChoices d'))
    by (unfold d'; now rewrite redrawDrags_inputs).
  assert (Hnd' : NoDup (map choice (inputsForChoices d')))
    by (unfold d'; now rewrite redrawDrags_inputs).
  rewrite (redrawDrags_items d' input Hin' Hnd'). fold after.
  rewrite Hcoords.
  assert (Hlt : forall e, In e after -> (itemno e < List.length (getCoords d input))%nat).
  { intros e He.
    assert (Hi : In (itemno e) (seq 0 (List.length (getCoords d input))))
      by (apply (Permutation_in _ Hperm); now apply in_map).
    apply in_seq in Hi. lia. }
  assert (Hd' : Forall (fun e => beingdragged e = false) (map (set_unneeded true) after)).
  { apply Forall_forall. intros x Hx. apply in_map_iff in Hx as (e & <- & He).
    rewrite Forall_forall in Hafter_drag. exact (Hafter_drag e He). }
  assert (Hhas : forall i,
             (List.length (@nil array) <= i < List.length (getCoords d input))%nat ->
             In i (map itemno (map (set_unneeded true) after))).
  { intros i Hi. cbn [List.length] in Hi. rewrite map_map.
    change (map (fun x => itemno (set_unneeded true x)) after) with (map itemno after).
    apply (Permutation_in _ (Permutation_sym Hperm)). apply in_seq. lia. }
  pose proof (redraw_slots_existing (dragItemHome d' (choice input)) (getCoords d input)
                [] (getCoords d input) (map (set_unneeded true) after) eq_refl Hd' Hhas)
    as Hex.
  cbv zeta in Hex. change (List.length (@nil array)) with 0%nat in Hex.
  rewrite Hex, map_map.
  match goal with
  | |- context [map ?f after] => assert (Hid : map f after = after)
  end.
  { rewrite <- (map_id after) at 2. apply map_ext_in. intros e He.
    rewrite Forall_forall in Hall. destruct (Hall e He) as (Hu & _ & xy & Hxy & Hst).
    apply (revive_settled (getCoords d input) e (Hlt e He) Hu).
    intros xy' Hxy'. assert (xy' = xy) by congruence. subst xy'. exact Hst. }
  rewrite Hid.
  clear - Hall. induction Hall as [|e r (Hu & Hb & _) _ IH]; [reflexivity|].
  cbn [filter]. rewrite Hu. cbn [andb negb]. now rewrite IH.
Qed.

Lemma redraw_twice_witness :
  dragItemsForChoice (redrawDrags (redrawDrags Examples.edge_page))
                     (choice (Examples.field "70,20;30,40"))
  = dragItemsForChoice (redrawDrags Examples.edge_page)
                       (choice (Examples.field "70,20;30,40")) /\
  bgImage (redrawDrags Examples.edge_page) = bgImage Examples.edge_page /\
  dragItemHome (redrawDrags Examples.edge_page) = dragItemHome Examples.edge_page /\
  inputsForChoices (redrawDrags Examples.edge_page) = inputsForChoices Examples.edge_page.
Proof.
  apply (redraw_twice Examples.edge_page (Examples.field "70,20;30,40")).
  - left. reflexivity.
  - cbn. constructor; [intros []|constructor].
  - cbn. repeat constructor; cbn; intuition discriminate.
  - cbn. repeat constructor.
Defined.
